(** * lxd: migration descriptor translation, lifecycle supervision and the
      exec session barrier.

    A shallow embedding of [lxd/storage_migration.go] and of the container
    lifecycle file (container watchers, restart-all recovery, mass shutdown,
    snapshot cleanup), with the properties their specification states. *)

From stdpp Require Import gmap strings list fin_maps.
From Stdlib Require Import ZArith Lia.

Local Open Scope Z_scope.

(** ** Go's [time.Time], as the standard library represents it. *)

Module GoTime.

(** [*time.Location]: a nil pointer reads as UTC, [time.Unix] stores the
    address of the process-wide local zone. *)
Inductive Location : Type := Local.

(** [type Time struct { wall uint64; ext int64; loc *Location }]. With the
    monotonic bit of [wall] clear, [ext] is the number of seconds since
    January 1 of year 1 and the low 30 bits of [wall] the nanoseconds. *)
Record Time : Type := mkTime {
  wall : Z;
  ext : Z;
  loc : option Location
}.

(** The zero value [time.Time{}], to which an unassigned field is
    initialised. *)
Definition zeroTime : Time := mkTime 0 0 None.

Definition secondsPerDay : Z := 86400.

Definition unixToInternal : Z :=
  (1969 * 365 + 1969 / 4 - 1969 / 100 + 1969 / 400) * secondsPerDay.

Definition internalToUnix : Z := - unixToInternal.

(** Two's complement wrap-around of [int64] arithmetic. *)
Definition wrap64 (z : Z) : Z := (z + 2 ^ 63) mod 2 ^ 64 - 2 ^ 63.

Definition int64 (z : Z) : Prop := - 2 ^ 63 <= z < 2 ^ 63.

(** [func unixTime(sec int64, nsec int32) Time]. *)
Definition unixTime (sec nsec : Z) : Time :=
  mkTime nsec (wrap64 (sec + unixToInternal)) (Some Local).

(** [func Unix(sec int64, nsec int64) Time]: nanoseconds outside
    [0, 1e9) are carried into the seconds first. *)
Definition Unix (sec nsec : Z) : Time :=
  if bool_decide (nsec < 0 \/ 1000000000 <= nsec) then
    let n := Z.quot nsec 1000000000 in
    let sec := wrap64 (sec + n) in
    let nsec := nsec - n * 1000000000 in
    if bool_decide (nsec < 0)
    then unixTime (wrap64 (sec - 1)) (nsec + 1000000000)
    else unixTime sec nsec
  else unixTime sec nsec.

(** [func (t Time) Unix() int64], for a time without monotonic reading. *)
Definition Time_Unix (t : Time) : Z := wrap64 (ext t + internalToUnix).

(** [func (t Time) IsZero() bool]. *)
Definition IsZero (t : Time) : bool :=
  bool_decide (ext t = 0) && bool_decide (Z.land (wall t) (2 ^ 30 - 1) = 0).

End GoTime.

(** ** The migration descriptor translator ([lxd/storage_migration.go]). *)

Module Migration.
Import GoTime.

(** Modelled from the spec: the wire-format records of the [migration]
    package, whose declarations are not part of the translator's file. A
    descriptor carries an architecture code, local configuration entries
    (key/value pairs), local device entries (a name plus property key/value
    pairs), a profile name list, the ephemeral and stateful flags, the
    creation and last-used timestamps as integer epoch seconds, and a
    name. *)
Record Config : Type := mkConfig {
  Key : string;
  Value : string
}.

Record Device : Type := mkDevice {
  DevName : string;
  DevConfig : list Config
}.

Record Snapshot : Type := mkSnapshot {
  Name : string;
  LocalConfig : list Config;
  Profiles : list string;
  Ephemeral : bool;
  LocalDevices : list Device;
  Architecture : Z;
  Stateful : bool;
  CreationDate : Z;
  LastUsedDate : Z
}.

Definition GetKey (c : Config) : string := Key c.
Definition GetValue (c : Config) : string := Value c.
Definition GetName (d : Device) : string := DevName d.
Definition Snapshot_GetName (s : Snapshot) : string := Name s.
Definition GetArchitecture (s : Snapshot) : Z := Architecture s.
Definition GetEphemeral (s : Snapshot) : bool := Ephemeral s.
Definition GetStateful (s : Snapshot) : bool := Stateful s.
Definition GetCreationDate (s : Snapshot) : Z := CreationDate s.
Definition GetLastUsedDate (s : Snapshot) : Z := LastUsedDate s.

(** [instancetype.Type]. *)
Inductive instancetype : Type := Any | Container | VM.

(** [db.InstanceArgs], the fields the translator assigns; every other field
    of the record keeps its zero value. *)
Record InstanceArgs : Type := mkInstanceArgs {
  args_Architecture : Z;
  args_Config : gmap string string;
  args_Type : instancetype;
  args_Snapshot : bool;
  args_Devices : gmap string (gmap string string);
  args_Ephemeral : bool;
  args_Name : string;
  args_Profiles : list string;
  args_Stateful : bool;
  args_Project : string;
  args_CreationDate : Time;
  args_LastUsedDate : Time
}.

Definition set_CreationDate (t : Time) (a : InstanceArgs) : InstanceArgs :=
  mkInstanceArgs (args_Architecture a) (args_Config a) (args_Type a)
    (args_Snapshot a) (args_Devices a) (args_Ephemeral a) (args_Name a)
    (args_Profiles a) (args_Stateful a) (args_Project a)
    t (args_LastUsedDate a).

Definition set_LastUsedDate (t : Time) (a : InstanceArgs) : InstanceArgs :=
  mkInstanceArgs (args_Architecture a) (args_Config a) (args_Type a)
    (args_Snapshot a) (args_Devices a) (args_Ephemeral a) (args_Name a)
    (args_Profiles a) (args_Stateful a) (args_Project a)
    (args_CreationDate a) t.

(** [for _, ent := range entries { m[ent.GetKey()] = ent.GetValue() }],
    starting from the map [m]. *)
Definition collect_config (entries : list Config)
    (m : gmap string string) : gmap string string :=
  fold_left (fun m ent => <[GetKey ent := GetValue ent]> m) entries m.

(** The loop over [snap.LocalDevices]: a fresh property map per entry,
    stored under the entry's name. *)
Definition collect_devices (entries : list Device)
    (m : gmap string (gmap string string)) : gmap string (gmap string string) :=
  fold_left
    (fun m ent => <[GetName ent := collect_config (DevConfig ent) ∅]> m)
    entries m.

Section Translator.
(** [shared.SnapshotDelimiter], a constant of the [shared] package. *)
Variable SnapshotDelimiter : string.

Definition snapshotProtobufToInstanceArgs
    (project containerName : string) (snap : Snapshot) : InstanceArgs :=
  let config := collect_config (LocalConfig snap) ∅ in
  let devices := collect_devices (LocalDevices snap) ∅ in
  let name :=
    (containerName +:+ SnapshotDelimiter +:+ Snapshot_GetName snap)%string in
  let args :=
    {| args_Architecture := GetArchitecture snap;
       args_Config := config;
       args_Type := Container;
       args_Snapshot := true;
       args_Devices := devices;
       args_Ephemeral := GetEphemeral snap;
       args_Name := name;
       args_Profiles := Profiles snap;
       args_Stateful := GetStateful snap;
       args_Project := project;
       args_CreationDate := zeroTime;
       args_LastUsedDate := zeroTime |} in
  let args :=
    if bool_decide (GetCreationDate snap ≠ 0)
    then set_CreationDate (Unix (GetCreationDate snap) 0) args
    else args in
  let args :=
    if bool_decide (GetLastUsedDate snap ≠ 0)
    then set_LastUsedDate (Unix (GetLastUsedDate snap) 0) args
    else args in
  args.
End Translator.

(** The entry that a range loop with map assignment leaves visible under
    key [k]: the last one in the list that carries this key. *)
Fixpoint last_entry {A : Type} (key : A -> string) (k : string)
    (l : list A) : option A :=
  match l with
  | [] => None
  | e :: l' =>
      match last_entry key k l' with
      | Some e' => Some e'
      | None => if bool_decide (key e = k) then Some e else None
      end
  end.

(** The reading of "entries are copied key for key and value for value":
    each entry of the list is found in the mapping under its own key with
    its own value, and the mapping holds nothing else. *)
Definition config_copied (entries : list Config)
    (m : gmap string string) : Prop :=
  (forall ent, ent ∈ entries -> m !! GetKey ent = Some (GetValue ent)) /\
  (forall k v, m !! k = Some v -> mkConfig k v ∈ entries).

Definition devices_copied (entries : list Device)
    (m : gmap string (gmap string string)) : Prop :=
  (forall ent, ent ∈ entries ->
     exists props, m !! GetName ent = Some props /\
                   config_copied (DevConfig ent) props) /\
  (forall n props, m !! n = Some props ->
     exists ent, ent ∈ entries /\ GetName ent = n).

End Migration.

(** ** The instance lifecycle supervisor: ephemeral watchers, restart-all
       recovery, mass shutdown and snapshot cleanup. *)

Module Lifecycle.

(** Go [error] values; a nil error is [None] of [option error]. *)
Inductive error : Type :=
| ErrNotExist
| ErrNoRows
| ErrMsg (msg : string).

(** [os.IsNotExist]. *)
Definition os_IsNotExist (e : error) : bool :=
  match e with ErrNotExist => true | _ => false end.

Definition time_Second : Z := 1000000000.

(** The [containers] table of the metadata store, with the columns the
    supervisor reads or writes. *)
Inductive containerType : Type := cTypeRegular | cTypeSnapshot.

#[global] Instance containerType_eq_dec : EqDecision containerType.
Proof. solve_decision. Defined.

Record Row : Type := mkRow {
  row_id : Z;
  row_name : string;
  row_type : containerType;
  row_power_state : Z
}.

Definition set_power_state (p : Z) (r : Row) : Row :=
  mkRow (row_id r) (row_name r) (row_type r) p.

(** The statements handed to [dbExec]. *)
Inductive Stmt : Type :=
| ClearPowerState                  (* UPDATE containers SET power_state=0 *)
| SetPowerState (name : string)    (* UPDATE containers SET power_state=1 WHERE name=? *)
| DeleteById (id : Z).             (* DELETE FROM containers WHERE id=? *)

(** The queries handed to [dbQueryScan]. *)
Inductive Query : Type :=
| QNames (ty : containerType)
    (* SELECT name FROM containers WHERE type=? *)
| QPowered (ty : containerType)
    (* SELECT name FROM containers WHERE type=? AND power_state=1 *)
| QSnapshots (ty : containerType) (length : Z) (prefix : string).
    (* SELECT name, id FROM containers WHERE type=? AND SUBSTR(name,1,?)=? *)

(** [lxc.State] values the watcher waits for. *)
Inductive LxcState : Type := STOPPED | RUNNING.

(** The calls a supervisor operation makes on its collaborators, in the
    order they are made, each with its outcome. *)
Inductive Event : Type :=
| EvQuery (q : Query) (ok : bool)
| EvExec (s : Stmt) (ok : bool)
| EvList (ok : bool)
| EvNew (name : string) (ok : bool)
| EvIsEphemeral (name : string) (b : bool)
| EvIsRunning (name : string) (b : bool)
| EvStart (name : string) (ok : bool)
| EvGo (name : string)
| EvShutdown (name : string) (timeout : Z) (ok : bool)
| EvStop (name : string) (ok : bool)
| EvDone (name : string)
| EvWait
| EvGoWatch (name : string)
| EvLXContainerGet (name : string) (ok : bool)
| EvLxcWait (name : string) (st : LxcState) (timeout : Z) (reached : bool)
| EvIDGet (name : string) (ok : bool)
| EvDelete (name : string) (ok : bool)
| EvDetect (path : string) (ok : bool)
| EvBtrfsDeleteSubvol (path : string) (ok : bool)
| EvRemoveAll (path : string) (ok : bool).

(** What the daemon operates on: the metadata store, the storage paths
    that exist, and the calls made so far (oldest first). *)
Record Daemon : Type := mkDaemon {
  db : list Row;
  fs : list string;
  trace : list Event
}.

Definition emit (e : Event) (d : Daemon) : Daemon :=
  mkDaemon (db d) (fs d) (trace d ++ [e]).

Definition set_db (rows : list Row) (d : Daemon) : Daemon :=
  mkDaemon rows (fs d) (trace d).

Definition set_fs (paths : list string) (d : Daemon) : Daemon :=
  mkDaemon (db d) paths (trace d).

(** The collaborators the file calls but does not define: the container
    runtime, the storage backend, the failure behaviour of the metadata
    store and path construction. Each answer may depend on everything that
    happened before (the daemon state carries the trace). *)
Record Env : Type := mkEnv {
  env_query_err : Daemon -> Query -> option error;
  env_exec_err : Daemon -> Stmt -> option error;
  env_list : Daemon -> list string * option error;
  env_new_err : Daemon -> string -> option error;
  env_is_ephemeral : Daemon -> string -> bool;
  env_is_running : Daemon -> string -> bool;
  env_start : Daemon -> string -> option error * list Row;
  env_shutdown_err : Daemon -> string -> Z -> option error;
  env_stop_err : Daemon -> string -> option error;
  env_lxget_err : Daemon -> string -> option error;
  env_wait : Daemon -> string -> LxcState -> Z -> bool * list Row;
  env_idget_err : Daemon -> string -> option error;
  env_delete_err : Daemon -> string -> option error;
  env_detect : Daemon -> string -> string * option error;
  env_btrfs_err : Daemon -> string -> option error;
  env_removeall_err : Daemon -> string -> option error;
  VarPath : string -> string -> string;
  SnapshotDelimiter : string
}.

(** *** The metadata store. *)

(** Strings are sequences of bytes, as Go strings are. SQLite's [SUBSTR]
    on a TEXT value counts characters, and steps over one character the way
    its [SQLITE_SKIP_UTF8] does: one byte and, when that byte is 0xC0 or
    above, the bytes of the form 10xxxxxx that follow it. *)
Definition utf8_lead (c : Ascii.ascii) : bool :=
  (192 <=? Ascii.N_of_ascii c)%N.

Definition utf8_continuation (c : Ascii.ascii) : bool :=
  (N.land (Ascii.N_of_ascii c) 192 =? 128)%N.

(** The continuation bytes at the head of [s], and what follows them. *)
Fixpoint skip_continuation (s : string) : string * string :=
  match s with
  | String c s' =>
      if utf8_continuation c
      then let '(a, b) := skip_continuation s' in (String c a, b)
      else (EmptyString, s)
  | EmptyString => (EmptyString, EmptyString)
  end.

(** The first [n] characters of [s]; the text ends at a zero byte. *)
Fixpoint take_chars (n : nat) (s : string) : string :=
  match n, s with
  | S n', String c s' =>
      if (Ascii.N_of_ascii c =? 0)%N then EmptyString
      else if utf8_lead c
      then let '(a, b) := skip_continuation s' in
           String c (a +:+ take_chars n' b)
      else String c (take_chars n' s')
  | _, _ => EmptyString
  end.

(** SQLite's [SUBSTR(s, 1, n)] on TEXT for [n >= 0]: the first [n]
    characters of [s], which are [n] bytes only when each of them is a
    single byte. *)
Definition sql_substr1 (n : Z) (s : string) : string :=
  take_chars (Z.to_nat n) s.

(** Go's [len] of a string: its number of bytes. *)
Definition len (s : string) : Z := Z.of_nat (String.length s).

(** Every character of [s], as SQLite counts them, is one byte: no zero
    byte and no byte 0xC0 or above. ASCII text is of this kind. *)
Fixpoint one_byte_chars (s : string) : bool :=
  match s with
  | String c s' =>
      (0 <? Ascii.N_of_ascii c)%N && (Ascii.N_of_ascii c <? 192)%N
      && one_byte_chars s'
  | EmptyString => true
  end.

Definition row_matches (q : Query) (r : Row) : bool :=
  match q with
  | QNames ty => bool_decide (row_type r = ty)
  | QPowered ty =>
      bool_decide (row_type r = ty) && bool_decide (row_power_state r = 1)
  | QSnapshots ty n prefix =>
      bool_decide (row_type r = ty) &&
      bool_decide (sql_substr1 n (row_name r) = prefix)
  end.

Definition select (q : Query) (rows : list Row) : list Row :=
  List.filter (row_matches q) rows.

Definition exec_stmt (s : Stmt) (rows : list Row) : list Row :=
  match s with
  | ClearPowerState => set_power_state 0 <$> rows
  | SetPowerState name =>
      (fun r => if bool_decide (row_name r = name)
                then set_power_state 1 r else r) <$> rows
  | DeleteById id =>
      List.filter (fun r => negb (bool_decide (row_id r = id))) rows
  end.

Section Supervisor.
Variable E : Env.

(** [dbQueryScan] on a query that scans the [name] column. *)
Definition dbQueryScan_names (q : Query) (d : Daemon)
    : Daemon * (list string + error) :=
  match env_query_err E d q with
  | Some err => (emit (EvQuery q false) d, inr err)
  | None => (emit (EvQuery q true) d, inl (row_name <$> select q (db d)))
  end.

(** [dbQueryScan] on a query that scans [name, id]. *)
Definition dbQueryScan_name_id (q : Query) (d : Daemon)
    : Daemon * (list (string * Z) + error) :=
  match env_query_err E d q with
  | Some err => (emit (EvQuery q false) d, inr err)
  | None =>
      (emit (EvQuery q true) d,
       inl ((fun r => (row_name r, row_id r)) <$> select q (db d)))
  end.

(** [dbExec]: a statement that fails changes nothing. *)
Definition dbExec (s : Stmt) (d : Daemon) : Daemon * option error :=
  match env_exec_err E d s with
  | Some err => (emit (EvExec s false) d, Some err)
  | None => (emit (EvExec s true) (set_db (exec_stmt s (db d)) d), None)
  end.

(** Modelled from the spec: [dbContainerIDGet], the lookup by which the
    watcher checks that the instance is still present in the metadata store.
    It yields the id of the row with this name, or an error when there is
    none or when the store fails. *)
Definition dbContainerIDGet (name : string) (d : Daemon)
    : Daemon * (Z + error) :=
  match env_idget_err E d name with
  | Some err => (emit (EvIDGet name false) d, inr err)
  | None =>
      match List.find (fun r => bool_decide (row_name r = name)) (db d) with
      | Some r => (emit (EvIDGet name true) d, inl (row_id r))
      | None => (emit (EvIDGet name false) d, inr ErrNoRows)
      end
  end.

(** [d.ListRegularContainers()]: the names the store hands back, or an
    error. *)
Definition ListRegularContainers (d : Daemon)
    : Daemon * (list string + error) :=
  match env_list E d with
  | (_, Some err) => (emit (EvList false) d, inr err)
  | (names, None) => (emit (EvList true) d, inl names)
  end.

(** *** Container handles. *)

(** The calls on a container handle go to the container runtime: each
    records the call and hands back what the environment answers. Only
    [Start], [Delete] and a blocking wait may find the store changed when
    they return. *)
Record container : Type := mkContainer { NameGet : string }.

Definition newLxdContainer (name : string) (d : Daemon)
    : Daemon * (container + error) :=
  match env_new_err E d name with
  | Some err => (emit (EvNew name false) d, inr err)
  | None => (emit (EvNew name true) d, inl (mkContainer name))
  end.

Definition IsEmpheral (c : container) (d : Daemon) : Daemon * bool :=
  let b := env_is_ephemeral E d (NameGet c) in
  (emit (EvIsEphemeral (NameGet c) b) d, b).

Definition IsRunning (c : container) (d : Daemon) : Daemon * bool :=
  let b := env_is_running E d (NameGet c) in
  (emit (EvIsRunning (NameGet c) b) d, b).

(** [c.Start()]: the call may fail, and the environment says what the store
    holds when it returns. *)
Definition Start (c : container) (d : Daemon) : Daemon * option error :=
  let '(r, rows) := env_start E d (NameGet c) in
  (emit (EvStart (NameGet c) (bool_decide (r = None))) (set_db rows d), r).

Definition Shutdown (c : container) (timeout : Z) (d : Daemon)
    : Daemon * option error :=
  let r := env_shutdown_err E d (NameGet c) timeout in
  (emit (EvShutdown (NameGet c) timeout (bool_decide (r = None))) d, r).

Definition Stop (c : container) (d : Daemon) : Daemon * option error :=
  let r := env_stop_err E d (NameGet c) in
  (emit (EvStop (NameGet c) (bool_decide (r = None))) d, r).

Definition LXContainerGet (c : container) (d : Daemon)
    : Daemon * option error :=
  let r := env_lxget_err E d (NameGet c) in
  (emit (EvLXContainerGet (NameGet c) (bool_decide (r = None))) d, r).

(** [lxContainer.Wait(state, timeout)] blocks; when it returns, other
    actors may have changed the metadata store. *)
Definition lxc_Wait (c : container) (st : LxcState) (timeout : Z)
    (d : Daemon) : Daemon * bool :=
  let '(reached, rows) := env_wait E d (NameGet c) st timeout in
  (emit (EvLxcWait (NameGet c) st timeout reached) (set_db rows d), reached).

(** Modelled from the spec: [c.Delete()] deletes the instance; when it
    succeeds the instance's row is gone from the store. *)
Definition Delete (c : container) (d : Daemon) : Daemon * option error :=
  match env_delete_err E d (NameGet c) with
  | Some err => (emit (EvDelete (NameGet c) false) d, Some err)
  | None =>
      (emit (EvDelete (NameGet c) true)
         (set_db (List.filter
                    (fun r => negb (bool_decide (row_name r = NameGet c)))
                    (db d)) d),
       None)
  end.
End Supervisor.

(** *** Storage. *)

(** [q] is the path [p] or lies below it. *)
Definition under (p q : string) : bool :=
  bool_decide (q = p) || String.prefix (p +:+ "/") q.

Definition remove_tree (p : string) (paths : list string) : list string :=
  List.filter (fun q => negb (under p q)) paths.

Section Operations.
Variable E : Env.

(** [filesystemDetect(path)]: the backend kind, or an error. *)
Definition filesystemDetect (path : string) (d : Daemon)
    : Daemon * (string * option error) :=
  let '(kind, err) := env_detect E d path in
  (emit (EvDetect path (bool_decide (err = None))) d, (kind, err)).

(** Modelled from the spec: [btrfsDeleteSubvol(path)], the backend's fast
    path; when it succeeds the subvolume and what lies below it are gone. *)
Definition btrfsDeleteSubvol (path : string) (d : Daemon)
    : Daemon * option error :=
  match env_btrfs_err E d path with
  | Some err => (emit (EvBtrfsDeleteSubvol path false) d, Some err)
  | None =>
      (emit (EvBtrfsDeleteSubvol path true)
         (set_fs (remove_tree path (fs d)) d), None)
  end.

(** [os.RemoveAll(path)]; removing a path that does not exist succeeds
    and changes nothing. *)
Definition os_RemoveAll (path : string) (d : Daemon)
    : Daemon * option error :=
  match env_removeall_err E d path with
  | Some err => (emit (EvRemoveAll path false) d, Some err)
  | None =>
      (emit (EvRemoveAll path true)
         (set_fs (remove_tree path (fs d)) d), None)
  end.

(** *** [containerWatchEphemeral]. *)

(** The body of the goroutine: it runs from whatever state the daemon is
    in when the goroutine is scheduled. *)
Definition ephemeral_watcher (c : container) (d : Daemon) : Daemon :=
  match LXContainerGet E c d with
  | (d, Some _) => d
  | (d, None) =>
      let d := (lxc_Wait E c STOPPED (-1 * time_Second) d).1 in
      let d := (lxc_Wait E c RUNNING (1 * time_Second) d).1 in
      let d := (lxc_Wait E c STOPPED (-1 * time_Second) d).1 in
      match dbContainerIDGet E (NameGet c) d with
      | (d, inr _) => d
      | (d, inl _) => (Delete E c d).1
      end
  end.

(** [go func() { ... }()]: the caller only starts the goroutine. *)
Definition containerWatchEphemeral (c : container) (d : Daemon) : Daemon :=
  emit (EvGoWatch (NameGet c)) d.

(** *** [containersWatch]. *)

Fixpoint containersWatch_loop (result : list string) (d : Daemon)
    : Daemon * option error :=
  match result with
  | [] => (d, None)
  | r :: rest =>
      match newLxdContainer E r d with
      | (d, inr err) => (d, Some err)
      | (d, inl c) =>
          let '(d, eph) := IsEmpheral E c d in
          if eph then
            let '(d, run) := IsRunning E c d in
            if run
            then containersWatch_loop rest (containerWatchEphemeral c d)
            else containersWatch_loop rest d
          else containersWatch_loop rest d
      end
  end.

Definition containersWatch (d : Daemon) : Daemon * option error :=
  match dbQueryScan_names E (QNames cTypeRegular) d with
  | (d, inr err) => (d, Some err)
  | (d, inl result) => containersWatch_loop result d
  end.

(** *** [containersRestart]. *)

Fixpoint containersRestart_loop (result : list string) (d : Daemon)
    : Daemon * option error :=
  match result with
  | [] => (d, None)
  | r :: rest =>
      match newLxdContainer E r d with
      | (d, inr err) => (d, Some err)
      | (d, inl c) =>
          (* the result of [container.Start()] is dropped *)
          containersRestart_loop rest (Start E c d).1
      end
  end.

Definition containersRestart (d : Daemon) : Daemon * option error :=
  match dbQueryScan_names E (QPowered cTypeRegular) d with
  | (d, inr err) => (d, Some err)
  | (d, inl result) =>
      match dbExec E ClearPowerState d with
      | (d, Some err) => (d, Some err)
      | (d, None) => containersRestart_loop result d
      end
  end.

(** *** [containersShutdown]. *)

(** The goroutine started for a running container. *)
Definition shutdown_task (c : container) (d : Daemon) : Daemon :=
  let d := (Shutdown E c (time_Second * 30) d).1 in
  let d := (Stop E c d).1 in
  emit (EvDone (NameGet c)) d.

(** [wg.Wait()] returns once every goroutine added to the wait group has
    called [wg.Done()]: the goroutines in flight run to completion. *)
Definition wg_Wait (wg : list container) (d : Daemon) : Daemon :=
  emit EvWait (fold_left (fun d c => shutdown_task c d) wg d).

(** The loop body; [wg] holds the goroutines started and not yet waited
    for. The call to [wg.Wait()] is the last statement of the body. *)
Fixpoint containersShutdown_loop (results : list string)
    (wg : list container) (d : Daemon) : Daemon * option error :=
  match results with
  | [] => (d, None)
  | r :: rest =>
      match newLxdContainer E r d with
      | (d, inr err) => (d, Some err)
      | (d, inl c) =>
          let '(d, run) := IsRunning E c d in
          if run then
            match dbExec E (SetPowerState (NameGet c)) d with
            | (d, Some err) => (d, Some err)
            | (d, None) =>
                let d := emit (EvGo (NameGet c)) d in
                let wg := wg ++ [c] in
                containersShutdown_loop rest [] (wg_Wait wg d)
            end
          else containersShutdown_loop rest [] (wg_Wait wg d)
      end
  end.

Definition containersShutdown (d : Daemon) : Daemon * option error :=
  match ListRegularContainers E d with
  | (d, inr err) => (d, Some err)
  | (d, inl results) => containersShutdown_loop results [] d
  end.

(** *** [containerDeleteSnapshots]. *)

Fixpoint remove_storage_loop (backingFs : string)
    (results : list (string * Z)) (ids : list Z) (d : Daemon)
    : Daemon * list Z :=
  match results with
  | [] => (d, ids)
  | r :: rest =>
      let sname := r.1 in
      let id := r.2 in
      let ids := ids ++ [id] in
      let cdir := VarPath E "snapshots" sname in
      let d := if bool_decide (backingFs = "btrfs")
               then (btrfsDeleteSubvol cdir d).1 else d in
      let d := (os_RemoveAll cdir d).1 in
      remove_storage_loop backingFs rest ids d
  end.

Fixpoint delete_rows_loop (ids : list Z) (d : Daemon)
    : Daemon * option error :=
  match ids with
  | [] => (d, None)
  | id :: rest =>
      match dbExec E (DeleteById id) d with
      | (d, Some err) => (d, Some err)
      | (d, None) => delete_rows_loop rest d
      end
  end.

Definition snapshot_query (cname : string) : Query :=
  let prefix := (cname +:+ SnapshotDelimiter E)%string in
  QSnapshots cTypeSnapshot (len prefix) prefix.

Definition containerDeleteSnapshots (cname : string) (d : Daemon)
    : Daemon * option error :=
  match dbQueryScan_name_id E (snapshot_query cname) d with
  | (d, inr err) => (d, Some err)
  | (d, inl results) =>
      let '(d, (backingFs, err)) :=
        filesystemDetect (VarPath E "containers" cname) d in
      let continue (_ : unit) :=
        let '(d, ids) := remove_storage_loop backingFs results [] d in
        delete_rows_loop ids d in
      match err with
      | Some e => if os_IsNotExist e then continue tt else (d, Some e)
      | None => continue tt
      end
  end.
End Operations.

End Lifecycle.

(** ** The exec session and its connection barrier. *)

Module Exec.

(** [*websocket.Conn]: an established connection, by identity. *)
Definition Conn : Type := nat.

(** [type execWs struct], the fields the barrier involves: [conns] maps a
    logical channel index to its connection (nil until the channel has
    connected), [fds] maps it to the channel's secret, [allConnected] and
    [controlConnected] are the two barrier signals. [relayed] records the
    bytes the relay has passed, with the channel of each. *)
Record execWs : Type := mkExecWs {
  conns : gmap Z (option Conn);
  allConnected : bool;
  controlConnected : bool;
  interactive : bool;
  fds : gmap Z string;
  relayed : list (Z * Z)
}.

Inductive error : Type := ErrPermission.

Definition connected (s : execWs) (fd : Z) : Prop :=
  exists c, conns s !! fd = Some (Some c).

Definition every_channel_connected (s : execWs) : Prop :=
  forall fd, fd ∈ dom (fds s) -> connected s fd.

(** What holds of a session at every moment: the channels are those of
    [fds]; the barrier over all channels is signalled only when every
    channel has connected; bytes have been relayed only after the signal;
    and the signal is not missing once no channel is left to connect. *)
Record session_inv (s : execWs) : Prop := {
  inv_dom : dom (conns s) = dom (fds s);
  inv_barrier : allConnected s = true -> every_channel_connected s;
  inv_relayed : relayed s <> [] -> allConnected s = true;
  inv_released :
    allConnected s = true \/ (exists fd, conns s !! fd = Some None) \/
    conns s = ∅
}.

Section Session.
(** The logical index of the control channel. *)
Variable controlFd : Z.

(** A session whose required channels are the indices of [secrets]; no
    channel has connected and nothing has been relayed. *)
Definition new_session (inter : bool) (secrets : gmap Z string) : execWs :=
  mkExecWs ((fun _ => None) <$> secrets) false false inter secrets [].

Definition all_conns_set (m : gmap Z (option Conn)) : bool :=
  forallb (fun p => bool_decide (is_Some p.2)) (map_to_list m).

Definition find_fd (secrets : gmap Z string) (secret : string) : option Z :=
  fst <$> List.find (fun p => bool_decide (p.2 = secret)) (map_to_list secrets).

(** Modelled from the spec: the connection protocol of the session
    transport, whose code is not in the lifecycle file (only the
    [execWs] declaration is). The caller presents a channel's secret; the
    session records the connection under the channel's logical index;
    the control barrier is released when the control channel connects,
    and the barrier over all channels once every required channel,
    control included, has a connection. *)
Definition Connect (secret : string) (c : Conn) (s : execWs)
    : execWs * option error :=
  match find_fd (fds s) secret with
  | None => (s, Some ErrPermission)
  | Some fd =>
      let conns' := <[fd := Some c]> (conns s) in
      (mkExecWs conns'
         (allConnected s || all_conns_set conns')
         (controlConnected s || bool_decide (fd = controlFd))
         (interactive s) (fds s) (relayed s),
       None)
  end.

(** Modelled from the spec: a relay worker of channel [fd] holding the
    byte [b]. The workers are released by the barrier over all channels:
    before it is signalled the worker is blocked and the byte does not
    pass. *)
Definition relay (fd b : Z) (s : execWs) : execWs :=
  if allConnected s
  then mkExecWs (conns s) (allConnected s) (controlConnected s)
         (interactive s) (fds s) (relayed s ++ [(fd, b)])
  else s.

(** What can happen to a session, in any order. *)
Inductive Op : Type :=
| OpConnect (secret : string) (c : Conn)
| OpRelay (fd b : Z).

Definition apply (s : execWs) (o : Op) : execWs :=
  match o with
  | OpConnect secret c => (Connect secret c s).1
  | OpRelay fd b => relay fd b s
  end.

Definition run (ops : list Op) (s : execWs) : execWs :=
  fold_left apply ops s.
End Session.

End Exec.

(** ** The shape of the call sequences of the batch operations. *)

Module Shapes.
Import Lifecycle.

(** What happens to one instance in the loop of [containersRestart]. *)
Inductive RestartOutcome : Type :=
| RLoadFailed
| RStarted (ok : bool).

Definition restart_block (n : string) (o : RestartOutcome) : list Event :=
  match o with
  | RLoadFailed => [EvNew n false]
  | RStarted ok => [EvNew n true; EvStart n ok]
  end.

Definition restart_aborts (o : RestartOutcome) : bool :=
  match o with RLoadFailed => true | RStarted _ => false end.

(** What happens to one instance in the loop of [containersShutdown]. *)
Inductive ShutdownOutcome : Type :=
| SLoadFailed
| SNotRunning
| SUpdateFailed
| SShutDown (graceful_ok stop_ok : bool).

Definition shutdown_block (n : string) (o : ShutdownOutcome) : list Event :=
  match o with
  | SLoadFailed => [EvNew n false]
  | SNotRunning => [EvNew n true; EvIsRunning n false; EvWait]
  | SUpdateFailed =>
      [EvNew n true; EvIsRunning n true; EvExec (SetPowerState n) false]
  | SShutDown ok1 ok2 =>
      [EvNew n true; EvIsRunning n true; EvExec (SetPowerState n) true;
       EvGo n; EvShutdown n (time_Second * 30) ok1; EvStop n ok2;
       EvDone n; EvWait]
  end.

Definition shutdown_aborts (o : ShutdownOutcome) : bool :=
  match o with SLoadFailed | SUpdateFailed => true | _ => false end.

(** What happens to one instance in the loop of [containersWatch]. *)
Inductive WatchOutcome : Type :=
| WLoadFailed
| WNotEphemeral
| WNotRunning
| WWatched.

Definition watch_block (n : string) (o : WatchOutcome) : list Event :=
  match o with
  | WLoadFailed => [EvNew n false]
  | WNotEphemeral => [EvNew n true; EvIsEphemeral n false]
  | WNotRunning =>
      [EvNew n true; EvIsEphemeral n true; EvIsRunning n false]
  | WWatched =>
      [EvNew n true; EvIsEphemeral n true; EvIsRunning n true; EvGoWatch n]
  end.



Definition blocks {O : Type} (block : string -> O -> list Event)
    (names : list string) (os : list O) : list Event :=
  concat (zip_with block names os).

(** The batch stopped at its last outcome, or ran through all [names]. *)
Definition batch_result {O : Type} (aborts : O -> bool)
    (names : list string) (os : list O) (r : option error) : Prop :=
  (length os <= length names)%nat /\
  match r with
  | None =>
      length os = length names /\ Forall (fun o => aborts o = false) os
  | Some _ =>
      exists os' o, os = os' ++ [o] /\ aborts o = true /\
                    Forall (fun o => aborts o = false) os'
  end.

(** The instances whose row [containersShutdown] has updated. *)
Definition updated (names : list string) (os : list ShutdownOutcome)
    : list string :=
  omap (fun p => match p.2 with SShutDown _ _ => Some p.1 | _ => None end)
    (zip names os).

(** The store after the updates of [containersShutdown] for [names]. *)
Definition apply_updates (names : list string) (rows : list Row) : list Row :=
  fold_left (fun rows n => exec_stmt (SetPowerState n) rows) names rows.

(** The rows of the instances [U] get power_state 1, the others stay. *)
Definition mark_running (U : list string) (r : Row) : Row :=
  if bool_decide (row_name r ∈ U) then set_power_state 1 r else r.

(** Goroutines started and not yet done: [k] of them before the call [e],
    [flight_step k e] after it; [in_flight] lists the count after each call
    of a sequence. *)
Definition flight_step (k : nat) (e : Event) : nat :=
  match e with
  | EvGo _ => S k
  | EvDone _ => Nat.pred k
  | _ => k
  end.

Fixpoint in_flight (k : nat) (evs : list Event) : list nat :=
  match evs with
  | [] => []
  | e :: evs' => flight_step k e :: in_flight (flight_step k e) evs'
  end.

Definition flight_after (k : nat) (evs : list Event) : nat :=
  fold_left flight_step evs k.

Definition is_exec (e : Event) : bool :=
  match e with EvExec _ _ => true | _ => false end.

(** Calls on the storage backend. *)
Definition is_storage_event (e : Event) : bool :=
  match e with
  | EvBtrfsDeleteSubvol _ _ | EvRemoveAll _ _ => true
  | _ => false
  end.

(** The store after the rows with the ids [ids] have been deleted. *)
Definition delete_ids (ids : list Z) (rows : list Row) : list Row :=
  fold_left (fun rows id => exec_stmt (DeleteById id) rows) ids rows.

Definition deleted (ids : list Z) : list Event :=
  (fun id => EvExec (DeleteById id) true) <$> ids.

(** Assumptions on the collaborators during one run. *)
Definition start_keeps_store (E : Env) : Prop :=
  forall d n, (env_start E d n).2 = db d.

Definition store_reads (E : Env) : Prop :=
  forall d q, env_query_err E d q = None.

Definition store_writes (E : Env) : Prop :=
  forall d s, env_exec_err E d s = None.

Definition detects (E : Env) : Prop :=
  forall d p, match (env_detect E d p).2 with
              | Some e => os_IsNotExist e = true
              | None => True
              end.

Definition storage_works (E : Env) : Prop :=
  forall d p, env_removeall_err E d p = None.

(** The directory of a snapshot. *)
Definition snapshot_dir (E : Env) (r : Row) : string :=
  VarPath E "snapshots" (row_name r).

End Shapes.

(** ** Readings of the specification that the examples below test. *)

Module Stated.
Import Lifecycle.

Definition powered_names (d : Daemon) : list string :=
  row_name <$> select (QPowered cTypeRegular) (db d).

(** A restart-all pass goes on with the remaining instances: every
    instance read from the store is at least loaded. *)
Definition restart_continues (E : Env) (d : Daemon) : Prop :=
  forall n, n ∈ powered_names d ->
    exists ok, EvNew n ok ∈ trace (containersRestart E d).1.

(** A restart-all pass surfaces an instance's failure: when a load or a
    start has failed, the pass returns an error. *)
Definition restart_surfaces (E : Env) (d : Daemon) : Prop :=
  (exists n, EvNew n false ∈ trace (containersRestart E d).1 \/
             EvStart n false ∈ trace (containersRestart E d).1) ->
  (containersRestart E d).2 ≠ None.

Definition restart_propagates_without_aborting (E : Env) (d : Daemon) : Prop :=
  restart_continues E d /\ restart_surfaces E d.

(** The forced stop of the shutdown goroutine is conditional: when the
    instance is no longer running once the graceful shutdown has returned,
    no stop is issued. *)
Definition forced_stop_conditional (E : Env) (c : container) (d : Daemon)
    : Prop :=
  env_is_running E (Shutdown E c (time_Second * 30) d).1 (NameGet c) = false ->
  forall ok, EvStop (NameGet c) ok ∉ trace (shutdown_task E c d).

(** Snapshot cleanup reaches every snapshot of the instance: for every
    snapshot row whose name begins with the instance name followed by the
    delimiter, the removal of its directory is attempted. *)
Definition cleanup_reaches_every_snapshot (E : Env) (cname : string)
    (d : Daemon) : Prop :=
  forall r, r ∈ db d -> row_type r = cTypeSnapshot ->
    String.prefix (cname +:+ SnapshotDelimiter E) (row_name r) = true ->
    exists ok, EvRemoveAll (VarPath E "snapshots" (row_name r)) ok
                 ∈ trace (containerDeleteSnapshots E cname d).1.

End Stated.

(** ** Concrete inputs used by the examples below. *)

Module Scenarios.
Import Migration Lifecycle.

(** A descriptor that repeats the configuration key [limits.cpu]. *)
Definition snap_repeated_key : Snapshot :=
  mkSnapshot "daily"
    [mkConfig "limits.cpu" "1"; mkConfig "limits.cpu" "2"]
    ["default"] false [] 2 false 0 1700000000.

(** A descriptor whose keys and device names are pairwise distinct. *)
Definition snap_daily : Snapshot :=
  mkSnapshot "daily"
    [mkConfig "limits.cpu" "1"; mkConfig "limits.memory" "1GB"]
    ["default"] false
    [mkDevice "eth0" [mkConfig "type" "nic"; mkConfig "nictype" "bridged"];
     mkDevice "root" [mkConfig "type" "disk"; mkConfig "path" "/"]]
    2 false 1700000000 0.

Definition names_of (ty : containerType) (rows : list Row) : list string :=
  row_name <$> List.filter (fun r => bool_decide (row_type r = ty)) rows.

Definition occurs (p : Event -> bool) (d : Daemon) : bool :=
  existsb p (trace d).

(** An environment given by the calls that fail and by what the runtime
    reports as running; storage lives under [/var/lib/lxd] and the
    snapshot delimiter is [/]. *)
Definition env_of
    (new_fails start_fails : string -> bool)
    (exec_fails : Stmt -> bool)
    (running : Daemon -> string -> bool)
    (ephemeral : string -> bool)
    (waited : Daemon -> list Row)
    (backing : string) : Env :=
  {| env_query_err := fun _ _ => None;
     env_exec_err := fun _ s =>
       if exec_fails s then Some (ErrMsg "database is locked") else None;
     env_list := fun d => (names_of cTypeRegular (db d), None);
     env_new_err := fun _ n =>
       if new_fails n then Some (ErrMsg "cannot load container") else None;
     env_is_ephemeral := fun _ n => ephemeral n;
     env_is_running := running;
     env_start := fun d n =>
       (if start_fails n then Some (ErrMsg "cannot start container") else None,
        db d);
     env_shutdown_err := fun _ _ _ => None;
     env_stop_err := fun _ _ => None;
     env_lxget_err := fun _ _ => None;
     env_wait := fun d _ _ _ => (true, waited d);
     env_idget_err := fun _ _ => None;
     env_delete_err := fun _ _ => None;
     env_detect := fun _ _ => (backing, None);
     env_btrfs_err := fun _ _ => None;
     env_removeall_err := fun _ _ => None;
     VarPath := fun a b => ("/var/lib/lxd/" +:+ a +:+ "/" +:+ b)%string;
     SnapshotDelimiter := "/" |}.

Definition nothing : string -> bool := fun _ => false.
Definition only (n : string) : string -> bool := fun m => bool_decide (m = n).

(** An instance runs until a graceful shutdown has been requested of it. *)
Definition runs_until_shutdown (d : Daemon) (n : string) : bool :=
  negb (occurs (fun e => match e with
                         | EvShutdown m _ _ => bool_decide (m = n)
                         | _ => false
                         end) d).

(** No call fails and every instance stops gracefully. *)
Definition env_healthy : Env :=
  env_of nothing nothing (fun _ => false) runs_until_shutdown
    nothing db "dir".

(** As [env_healthy], but [idle] is not running. *)
Definition env_idle_stopped : Env :=
  env_of nothing nothing (fun _ => false)
    (fun d n => negb (bool_decide (n = "idle")) && runs_until_shutdown d n)
    nothing db "dir".

(** [web1] is ephemeral; while its watcher waits for it to stop for the
    second time, another path deletes it from the store. *)
Definition env_deleted_meanwhile : Env :=
  env_of nothing nothing (fun _ => false) runs_until_shutdown
    (only "web1")
    (fun d =>
       if occurs (fun e => match e with
                           | EvLxcWait _ RUNNING _ _ => true
                           | _ => false
                           end) d
       then List.filter (fun r => negb (bool_decide (row_name r = "web1")))
              (db d)
       else db d)
    "dir".

(** [web1] is ephemeral and nothing else touches the store. *)
Definition env_ephemeral : Env :=
  env_of nothing nothing (fun _ => false) runs_until_shutdown
    (only "web1") db "dir".

(** The delete of the row with id 5 fails. *)
Definition env_delete_fails : Env :=
  env_of nothing nothing
    (fun s => match s with DeleteById 5 => true | _ => false end)
    runs_until_shutdown nothing db "btrfs".

(** The handle of [web1] cannot be loaded. *)
Definition env_load_fails : Env :=
  env_of (only "web1") nothing (fun _ => false) runs_until_shutdown
    nothing db "dir".

(** [web1] fails to start. *)
Definition env_start_fails : Env :=
  env_of nothing (only "web1") (fun _ => false) runs_until_shutdown
    nothing db "dir".

(** Two regular instances that were running, one that was not, and two
    snapshots of [web1]. *)
Definition rows0 : list Row :=
  [mkRow 1 "web1" cTypeRegular 1;
   mkRow 2 "web2" cTypeRegular 1;
   mkRow 3 "idle" cTypeRegular 0;
   mkRow 4 "web1/daily" cTypeSnapshot 0;
   mkRow 5 "web1/weekly" cTypeSnapshot 0].

Definition daemon0 : Daemon :=
  mkDaemon rows0
    ["/var/lib/lxd/containers/web1";
     "/var/lib/lxd/snapshots/web1/daily";
     "/var/lib/lxd/snapshots/web1/daily/rootfs";
     "/var/lib/lxd/snapshots/web1/weekly"]
    [].

(** An exec session without pseudo-terminal: the control channel [-1] and
    the three data channels. *)
Definition exec_secrets : gmap Z string :=
  {[ (-1) := "s-control"; 0 := "s-stdin"; 1 := "s-stdout"; 2 := "s-stderr" ]}.

(** The client connects three channels, a relay worker tries to pass a
    byte, the last channel connects, and the worker tries again. *)
Definition exec_ops : list Exec.Op :=
  [Exec.OpConnect "s-stdin" 10%nat; Exec.OpConnect "s-control" 11%nat;
   Exec.OpConnect "s-stdout" 12%nat; Exec.OpRelay 0 104;
   Exec.OpConnect "s-stderr" 13%nat; Exec.OpRelay 0 105].

End Scenarios.

(** ** [startContainer], the body of [lxd forkstart <container>]. *)

Module Forkstart.

(** The errors of the go-lxc calls, by their message. *)
Definition lxc_error : Type := string.

(** What [startContainer] returns: its own three formatted errors, or the
    error of [c.Start()] as it is. *)
Inductive error : Type :=
| BadArguments (args : list string)
    (* fmt.Errorf("Bad arguments: %q\n", args) *)
| InitError (cause : lxc_error)
    (* fmt.Errorf("Error initializing container for start: %q", err) *)
| ConfigError (cause : lxc_error)
    (* fmt.Errorf("Error opening startup config file: %q", err) *)
| StartError (err : lxc_error).

(** The calls made, each with its outcome. *)
Inductive Call : Type :=
| CNewContainer (name lxcpath : string) (ok : bool)
| CLoadConfigFile (path : string) (ok : bool)
| CStart (name : string) (ok : bool)
| CRemove (path : string) (ok : bool)
| CFileMove (src dst : string) (ok : bool).

(** The files that exist and the calls made so far (oldest first). *)
Record World : Type := mkWorld {
  files : list string;
  calls : list Call
}.

Definition record (c : Call) (w : World) : World :=
  mkWorld (files w) (calls w ++ [c]).

(** The container runtime, the failures of the file system and
    [shared.LogPath]. *)
Record Env : Type := mkEnv {
  env_NewContainer : World -> string -> string -> option lxc_error;
  env_LoadConfigFile : World -> string -> option lxc_error;
  env_Start : World -> string -> option lxc_error;
  env_remove_ok : World -> string -> bool;
  env_move_ok : World -> string -> string -> bool;
  LogPath : string -> string -> string
}.

Section StartContainer.
Variable E : Env.

(** [os.Remove(path)]: when it succeeds the file is gone. *)
Definition os_Remove (path : string) (w : World) : World :=
  if env_remove_ok E w path
  then record (CRemove path true)
         (mkWorld (List.filter (fun f => negb (bool_decide (f = path)))
                     (files w)) (calls w))
  else record (CRemove path false) w.

(** Modelled from the spec: [shared.FileMove(oldPath, newPath)] moves the
    file; when it succeeds the file is at the new path and no longer at the
    old one. *)
Definition FileMove (oldPath newPath : string) (w : World) : World :=
  if env_move_ok E w oldPath newPath
  then record (CFileMove oldPath newPath true)
         (mkWorld (newPath ::
                     List.filter (fun f => negb (bool_decide (f = oldPath)))
                       (files w)) (calls w))
  else record (CFileMove oldPath newPath false) w.

Definition startContainer (args : list string) (w : World)
    : World * option error :=
  match args with
  | [_; name; lxcpath; configPath] =>
      match env_NewContainer E w name lxcpath with
      | Some err =>
          (record (CNewContainer name lxcpath false) w, Some (InitError err))
      | None =>
          let w := record (CNewContainer name lxcpath true) w in
          match env_LoadConfigFile E w configPath with
          | Some err =>
              (record (CLoadConfigFile configPath false) w,
               Some (ConfigError err))
          | None =>
              let w := record (CLoadConfigFile configPath true) w in
              match env_Start E w name with
              | Some err =>
                  let w := record (CStart name false) w in
                  (os_Remove configPath w, Some (StartError err))
              | None =>
                  let w := record (CStart name true) w in
                  (FileMove configPath (LogPath E name "lxc.conf") w, None)
              end
          end
      end
  | _ => (w, Some (BadArguments args))
  end.
End StartContainer.

Definition is_remove (c : Call) : bool :=
  match c with CRemove _ _ => true | _ => false end.

Definition is_move (c : Call) : bool :=
  match c with CFileMove _ _ _ => true | _ => false end.

End Forkstart.

(** ** More shapes of call sequences. *)

Module MoreShapes.
Import Lifecycle Shapes.

Definition watch_aborts (o : WatchOutcome) : bool :=
  match o with WLoadFailed => true | _ => false end.

(** The storage calls for one snapshot directory: the subvolume delete
    when the backing file system is btrfs, then the recursive removal. *)
Definition storage_block (btrfs : bool) (dir : string) (ok : bool * bool)
    : list Event :=
  (if btrfs then [EvBtrfsDeleteSubvol dir ok.1] else [])
    ++ [EvRemoveAll dir ok.2].

Definition storage_calls (btrfs : bool) (dirs : list string)
    (oks : list (bool * bool)) : list Event :=
  concat (zip_with (storage_block btrfs) dirs oks).

(** No selected snapshot's directory contains the path [p]. *)
Definition outside_snapshots (E : Env) (rows : list Row) (p : string) : Prop :=
  forall r, r ∈ rows -> under (snapshot_dir E r) p = false.

(** Two rows agree in everything but the power state, which is the same or
    has been raised to 1. *)
Definition flag_raised (r r' : Row) : Prop :=
  row_id r' = row_id r /\ row_name r' = row_name r /\
  row_type r' = row_type r /\
  (row_power_state r' = row_power_state r \/ row_power_state r' = 1).

(** The detection of the backing file system of [cname] does not end the
    cleanup: it succeeds, or fails for a missing path. *)
Definition detect_passes (E : Env) (cname : string) (d : Daemon) : Prop :=
  match (env_detect E (emit (EvQuery (snapshot_query E cname) true) d)
           (VarPath E "containers" cname)).2 with
  | Some e => os_IsNotExist e = true
  | None => True
  end.

(** The daemon when the cleanup of [cname] has made its query and the
    detection. *)
Definition after_detect (E : Env) (cname : string) (d : Daemon) : Daemon :=
  emit (EvDetect (VarPath E "containers" cname)
          (bool_decide
             ((env_detect E (emit (EvQuery (snapshot_query E cname) true) d)
                 (VarPath E "containers" cname)).2 = None)))
    (emit (EvQuery (snapshot_query E cname) true) d).

(** The rows the cleanup query of [cname] hands back. *)
Definition snapshot_results (E : Env) (cname : string) (d : Daemon)
    : list (string * Z) :=
  (fun r => (row_name r, row_id r))
    <$> select (snapshot_query E cname) (db d).


End MoreShapes.

(** ** More concrete inputs. *)

Module MoreScenarios.
Import Lifecycle Scenarios.

(** As [snap_daily], with the entries in another order. *)
Definition snap_daily_reordered : Migration.Snapshot :=
  Migration.mkSnapshot "daily"
    [Migration.mkConfig "limits.memory" "1GB";
     Migration.mkConfig "limits.cpu" "1"]
    ["default"] false
    [Migration.mkDevice "root"
       [Migration.mkConfig "type" "disk"; Migration.mkConfig "path" "/"];
     Migration.mkDevice "eth0"
       [Migration.mkConfig "type" "nic";
        Migration.mkConfig "nictype" "bridged"]]
    2 false 1700000000 0.

(** The store [rows0] with every power_state at 0. *)
Definition rows_cleared : list Row := set_power_state 0 <$> rows0.

Definition daemon_cleared : Daemon :=
  mkDaemon rows_cleared (fs daemon0) [].

(** The query of the store fails. *)
Definition env_query_fails : Env :=
  {| env_query_err := fun _ _ => Some (ErrMsg "database is locked");
     env_exec_err := fun _ _ => None;
     env_list := fun d => (names_of cTypeRegular (db d), None);
     env_new_err := fun _ _ => None;
     env_is_ephemeral := fun _ _ => false;
     env_is_running := runs_until_shutdown;
     env_start := fun d _ => (None, db d);
     env_shutdown_err := fun _ _ _ => None;
     env_stop_err := fun _ _ => None;
     env_lxget_err := fun _ _ => None;
     env_wait := fun d _ _ _ => (true, db d);
     env_idget_err := fun _ _ => None;
     env_delete_err := fun _ _ => None;
     env_detect := fun _ _ => ("dir", None);
     env_btrfs_err := fun _ _ => None;
     env_removeall_err := fun _ _ => None;
     VarPath := fun a b => ("/var/lib/lxd/" +:+ a +:+ "/" +:+ b)%string;
     SnapshotDelimiter := "/" |}.

(** An instance whose name holds a character of two bytes ([é] is 0xC3
    0xA9 in UTF-8), with one snapshot. *)
Definition rows_cafe : list Row :=
  [mkRow 1 "café" cTypeRegular 0;
   mkRow 2 "café/daily" cTypeSnapshot 0].

Definition daemon_cafe : Daemon :=
  mkDaemon rows_cafe
    ["/var/lib/lxd/containers/café";
     "/var/lib/lxd/snapshots/café/daily"]
    [].

(** A forkstart environment in which the calls named fail. *)
Definition fork_env (init_fails load_fails start_fails : bool)
    : Forkstart.Env :=
  {| Forkstart.env_NewContainer := fun _ _ _ =>
       if init_fails then Some "no such container" else None;
     Forkstart.env_LoadConfigFile := fun _ _ =>
       if load_fails then Some "cannot read config" else None;
     Forkstart.env_Start := fun _ _ =>
       if start_fails then Some "failed to start" else None;
     Forkstart.env_remove_ok := fun _ _ => true;
     Forkstart.env_move_ok := fun _ _ _ => true;
     Forkstart.LogPath := fun n f =>
       ("/var/log/lxd/" +:+ n +:+ "/" +:+ f)%string |}.

Definition fork_args : list string :=
  ["lxd"; "web1"; "/var/lib/lxd/containers"; "/tmp/lxd_lxc_startconfig_1"].

Definition fork_world : Forkstart.World :=
  Forkstart.mkWorld ["/tmp/lxd_lxc_startconfig_1"] [].

End MoreScenarios.

(** * Properties of the migration descriptor translator *)

Section TranslatorFacts.
Import GoTime Migration.

Lemma Unix_sec_not_zero (v : Z) : Unix v 0 ≠ zeroTime.
Proof.
  unfold Unix. rewrite bool_decide_eq_false_2 by lia.
  unfold unixTime, zeroTime. intros H. discriminate H.
Qed.

Lemma wrap64_id (z : Z) : int64 z -> wrap64 z = z.
Proof.
  unfold int64, wrap64. intros H.
  rewrite Z.mod_small by lia. lia.
Qed.

Lemma wrap64_add_l (a b : Z) : wrap64 (wrap64 a + b) = wrap64 (a + b).
Proof.
  unfold wrap64.
  replace (((a + 2 ^ 63) mod 2 ^ 64 - 2 ^ 63 + b + 2 ^ 63))
    with ((a + 2 ^ 63) mod 2 ^ 64 + b) by lia.
  rewrite Zplus_mod_idemp_l. f_equal. f_equal. lia.
Qed.

(** Reading the epoch second back from [Unix v 0] gives [v]: the value is
    the timestamp of epoch second [v]. *)
Lemma Time_Unix_of_Unix (v : Z) : int64 v -> Time_Unix (Unix v 0) = v.
Proof.
  intros Hv. unfold Unix. rewrite bool_decide_eq_false_2 by lia.
  unfold Time_Unix, unixTime, internalToUnix. simpl.
  rewrite wrap64_add_l.
  replace (v + unixToInternal + - unixToInternal) with v by lia.
  by apply wrap64_id.
Qed.

(** Epoch second [-62135596800] is the instant of the zero time: [IsZero]
    holds of its translation although the field has been assigned. *)
Lemma IsZero_Unix_year_one : IsZero (Unix (-62135596800) 0) = true.
Proof. reflexivity. Qed.

(** C1: the creation timestamp of the record is the zero value exactly when
    the descriptor's creation date is 0, and is [time.Unix(v, 0)] for every
    other value [v]; the same holds of the last-used timestamp. *)
Theorem translator_timestamps (delim project cname : string) (snap : Snapshot) :
  let args := snapshotProtobufToInstanceArgs delim project cname snap in
  (args_CreationDate args = zeroTime <-> GetCreationDate snap = 0) /\
  (args_LastUsedDate args = zeroTime <-> GetLastUsedDate snap = 0) /\
  args_CreationDate args =
    (if bool_decide (GetCreationDate snap = 0) then zeroTime
     else Unix (GetCreationDate snap) 0) /\
  args_LastUsedDate args =
    (if bool_decide (GetLastUsedDate snap = 0) then zeroTime
     else Unix (GetLastUsedDate snap) 0).
Proof.
  unfold snapshotProtobufToInstanceArgs.
  destruct (decide (GetCreationDate snap = 0)) as [Hc|Hc];
    destruct (decide (GetLastUsedDate snap = 0)) as [Hl|Hl].
  - rewrite !bool_decide_eq_false_2 by (intros H; apply H; assumption).
    rewrite !bool_decide_eq_true_2 by assumption. simpl. tauto.
  - rewrite (bool_decide_eq_false_2 (GetCreationDate snap ≠ 0)) by tauto.
    rewrite (bool_decide_eq_true_2 (GetLastUsedDate snap ≠ 0)) by assumption.
    rewrite (bool_decide_eq_true_2 (GetCreationDate snap = 0)) by assumption.
    rewrite (bool_decide_eq_false_2 (GetLastUsedDate snap = 0)) by assumption.
    simpl. repeat split; try tauto.
    intros H. by apply Unix_sec_not_zero in H.
  - rewrite (bool_decide_eq_true_2 (GetCreationDate snap ≠ 0)) by assumption.
    rewrite (bool_decide_eq_false_2 (GetLastUsedDate snap ≠ 0)) by tauto.
    rewrite (bool_decide_eq_false_2 (GetCreationDate snap = 0)) by assumption.
    rewrite (bool_decide_eq_true_2 (GetLastUsedDate snap = 0)) by assumption.
    simpl. repeat split; try tauto.
    intros H. by apply Unix_sec_not_zero in H.
  - rewrite (bool_decide_eq_true_2 (GetCreationDate snap ≠ 0)) by assumption.
    rewrite (bool_decide_eq_true_2 (GetLastUsedDate snap ≠ 0)) by assumption.
    rewrite (bool_decide_eq_false_2 (GetCreationDate snap = 0)) by assumption.
    rewrite (bool_decide_eq_false_2 (GetLastUsedDate snap = 0)) by assumption.
    simpl. repeat split; try tauto.
    + intros H. by apply Unix_sec_not_zero in H.
    + intros H. by apply Unix_sec_not_zero in H.
Qed.

(** *** Range loops with map assignment *)

Lemma last_entry_Some {A : Type} (key : A -> string) (k : string)
    (l : list A) (e : A) :
  last_entry key k l = Some e -> e ∈ l /\ key e = k.
Proof.
  induction l as [|a l IH]; simpl; [discriminate|].
  destruct (last_entry key k l) as [e'|] eqn:Hl.
  - intros [= <-]. destruct (IH eq_refl) as [Hin Hk].
    split; [by apply list_elem_of_further | done].
  - case_bool_decide as Ha; [|discriminate].
    intros [= <-]. split; [apply list_elem_of_here | done].
Qed.

Lemma last_entry_None {A : Type} (key : A -> string) (k : string)
    (l : list A) :
  last_entry key k l = None -> forall e, e ∈ l -> key e ≠ k.
Proof.
  induction l as [|a l IH]; simpl; intros H e He.
  - by apply not_elem_of_nil in He.
  - destruct (last_entry key k l) eqn:Hl; [discriminate|].
    case_bool_decide as Ha; [discriminate|].
    apply elem_of_cons in He as [->|He]; [done | by apply IH].
Qed.

Lemma last_entry_NoDup {A : Type} (key : A -> string) (l : list A) (e : A) :
  NoDup (key <$> l) -> e ∈ l -> last_entry key (key e) l = Some e.
Proof.
  induction l as [|a l IH]; simpl; intros Hnd He.
  - by apply not_elem_of_nil in He.
  - apply NoDup_cons in Hnd as [Hnotin Hnd].
    apply elem_of_cons in He as [->|He].
    + destruct (last_entry key (key a) l) as [e'|] eqn:Hl.
      * apply last_entry_Some in Hl as [Hin Hk].
        exfalso. apply Hnotin. rewrite <- Hk.
        by apply list_elem_of_fmap_2.
      * by rewrite bool_decide_eq_true_2.
    + by rewrite (IH Hnd He).
Qed.

Lemma collect_config_lookup (entries : list Config)
    (m : gmap string string) (k : string) :
  collect_config entries m !! k =
    match last_entry GetKey k entries with
    | Some ent => Some (GetValue ent)
    | None => m !! k
    end.
Proof.
  revert m. induction entries as [|a l IH]; intros m; simpl; [done|].
  unfold collect_config in *. simpl. rewrite IH.
  destruct (last_entry GetKey k l); [done|].
  case_bool_decide as Ha.
  - by rewrite Ha, lookup_insert_eq.
  - by rewrite lookup_insert_ne.
Qed.

Lemma collect_devices_lookup (entries : list Device)
    (m : gmap string (gmap string string)) (n : string) :
  collect_devices entries m !! n =
    match last_entry GetName n entries with
    | Some ent => Some (collect_config (DevConfig ent) ∅)
    | None => m !! n
    end.
Proof.
  revert m. induction entries as [|a l IH]; intros m; simpl; [done|].
  unfold collect_devices in *. simpl. rewrite IH.
  destruct (last_entry GetName n l); [done|].
  case_bool_decide as Ha.
  - by rewrite Ha, lookup_insert_eq.
  - by rewrite lookup_insert_ne.
Qed.

Lemma collect_config_copied (entries : list Config) :
  NoDup (GetKey <$> entries) ->
  config_copied entries (collect_config entries ∅).
Proof.
  intros Hnd. split.
  - intros ent Hin. rewrite collect_config_lookup.
    by rewrite (last_entry_NoDup GetKey entries ent Hnd Hin).
  - intros k v. rewrite collect_config_lookup.
    destruct (last_entry GetKey k entries) as [ent|] eqn:Hl.
    + intros [= <-]. apply last_entry_Some in Hl as [Hin <-].
      by destruct ent.
    + by rewrite lookup_empty.
Qed.

(** The descriptor [snap_repeated_key] has the entry [limits.cpu = 1], and
    the translated record maps [limits.cpu] to [2]: its configuration
    entries are not all copied with their values. *)
Lemma translator_repeated_key_not_copied :
  ~ config_copied (LocalConfig Scenarios.snap_repeated_key)
      (args_Config
         (snapshotProtobufToInstanceArgs "/" "default" "web1"
            Scenarios.snap_repeated_key)).
Proof.
  intros [Hall _].
  specialize (Hall (mkConfig "limits.cpu" "1")).
  assert (Hin : mkConfig "limits.cpu" "1"
                  ∈ LocalConfig Scenarios.snap_repeated_key)
    by apply list_elem_of_here.
  specialize (Hall Hin).
  vm_compute in Hall. discriminate Hall.
Qed.

(** C2 (amended): the record's name is the parent name, the delimiter and
    the snapshot name concatenated; a key is in the configuration mapping
    exactly when an entry carries it, with the value of the last such
    entry, and likewise a device name maps to the properties of the last
    entry with that name; entries with pairwise distinct keys (names) are
    therefore all copied, key for key and value for value. *)
Theorem translator_name_and_mappings
    (delim project cname : string) (snap : Snapshot) :
  let args := snapshotProtobufToInstanceArgs delim project cname snap in
  args_Name args = (cname +:+ delim +:+ Snapshot_GetName snap)%string /\
  (forall k, args_Config args !! k =
             GetValue <$> last_entry GetKey k (LocalConfig snap)) /\
  (forall n, args_Devices args !! n =
             (fun ent => collect_config (DevConfig ent) ∅)
               <$> last_entry GetName n (LocalDevices snap)) /\
  (forall n ent k,
      last_entry GetName n (LocalDevices snap) = Some ent ->
      exists props, args_Devices args !! n = Some props /\
        props !! k = GetValue <$> last_entry GetKey k (DevConfig ent)) /\
  (NoDup (GetKey <$> LocalConfig snap) ->
   config_copied (LocalConfig snap) (args_Config args)) /\
  (NoDup (GetName <$> LocalDevices snap) ->
   (forall ent, ent ∈ LocalDevices snap -> NoDup (GetKey <$> DevConfig ent)) ->
   devices_copied (LocalDevices snap) (args_Devices args)).
Proof.
  assert (Hcfg :
    args_Config (snapshotProtobufToInstanceArgs delim project cname snap)
      = collect_config (LocalConfig snap) ∅ /\
    args_Devices (snapshotProtobufToInstanceArgs delim project cname snap)
      = collect_devices (LocalDevices snap) ∅ /\
    args_Name (snapshotProtobufToInstanceArgs delim project cname snap)
      = (cname +:+ delim +:+ Snapshot_GetName snap)%string).
  { unfold snapshotProtobufToInstanceArgs.
    destruct (bool_decide (GetCreationDate snap ≠ 0));
      destruct (bool_decide (GetLastUsedDate snap ≠ 0)); simpl; done. }
  destruct Hcfg as (Hc & Hd & Hn).
  intros args. subst args. rewrite Hc, Hd, Hn.
  split; [done|]. split.
  { intros k. rewrite collect_config_lookup.
    destruct (last_entry GetKey k (LocalConfig snap)); simpl; [done|].
    apply lookup_empty. }
  split.
  { intros n. rewrite collect_devices_lookup.
    destruct (last_entry GetName n (LocalDevices snap)); simpl; [done|].
    apply lookup_empty. }
  split.
  { intros n ent k Hl. eexists. rewrite collect_devices_lookup, Hl.
    split; [done|]. rewrite collect_config_lookup.
    destruct (last_entry GetKey k (DevConfig ent)); simpl; [done|].
    apply lookup_empty. }
  split.
  { apply collect_config_copied. }
  intros Hnd Hprops. split.
  - intros ent Hin. eexists. rewrite collect_devices_lookup.
    rewrite (last_entry_NoDup GetName _ ent Hnd Hin).
    split; [done|]. apply collect_config_copied. by apply Hprops.
  - intros n props. rewrite collect_devices_lookup.
    destruct (last_entry GetName n (LocalDevices snap)) as [ent|] eqn:Hl.
    + intros _. apply last_entry_Some in Hl as [Hin Hk]. by exists ent.
    + by rewrite lookup_empty.
Qed.

(** The amended C2 at the descriptor [snap_daily] for parent [web1]. *)
Lemma translator_name_and_mappings_witness :
  let args :=
    snapshotProtobufToInstanceArgs "/" "default" "web1" Scenarios.snap_daily in
  args_Name args = "web1/daily" /\
  config_copied (LocalConfig Scenarios.snap_daily) (args_Config args) /\
  devices_copied (LocalDevices Scenarios.snap_daily) (args_Devices args).
Proof.
  pose proof (translator_name_and_mappings "/" "default" "web1"
                Scenarios.snap_daily) as (Hn & _ & _ & _ & Hc & Hd).
  split; [exact Hn|]. split.
  - apply Hc. apply (bool_decide_unpack _). vm_compute. exact I.
  - apply Hd.
    + apply (bool_decide_unpack _). vm_compute. exact I.
    + intros ent Hin. simpl in Hin.
      repeat (apply elem_of_cons in Hin as [->|Hin]);
        [| |by apply not_elem_of_nil in Hin];
        apply (bool_decide_unpack _); vm_compute; exact I.
Defined.

End TranslatorFacts.

(** * Properties of the lifecycle supervisor *)

Section BatchShapes.
Import Lifecycle Shapes.

Context {O : Type} (block : string -> O -> list Event) (aborts : O -> bool).

Lemma blocks_cons (n : string) (names : list string) (o : O) (os : list O) :
  blocks block (n :: names) (o :: os) = block n o ++ blocks block names os.
Proof. reflexivity. Qed.

Lemma blocks_nil_r (names : list string) : blocks block names [] = [].
Proof. by destruct names. Qed.

Lemma batch_result_nil : batch_result aborts [] [] None.
Proof. split; [done|]. split; [done|]. constructor. Qed.

Lemma batch_result_abort (n : string) (names : list string) (o : O)
    (err : error) :
  aborts o = true -> batch_result aborts (n :: names) [o] (Some err).
Proof.
  intros Ho. split; [simpl; lia|].
  exists [], o. split; [done|]. split; [done|]. constructor.
Qed.

Lemma batch_result_cons (n : string) (names : list string) (o : O)
    (os : list O) (r : option error) :
  aborts o = false ->
  batch_result aborts names os r ->
  batch_result aborts (n :: names) (o :: os) r.
Proof.
  intros Ho [Hlen Hr]. split; [simpl; lia|].
  destruct r as [err|].
  - destruct Hr as (os' & o' & -> & Ha & Hall).
    exists (o :: os'), o'. split; [done|]. split; [done|].
    by constructor.
  - destruct Hr as [Hl Hall]. split; [simpl; lia|]. by constructor.
Qed.

Lemma app_cons_split {A : Type} (xs ys l1 l2 : list A) (e : A) :
  xs ++ ys = l1 ++ e :: l2 ->
  (exists t, xs = l1 ++ e :: t /\ l2 = t ++ ys) \/
  (exists h, l1 = xs ++ h /\ ys = h ++ e :: l2).
Proof.
  revert l1. induction xs as [|x xs IH]; intros l1 H; simpl in H.
  - right. by exists l1.
  - destruct l1 as [|y l1]; simpl in H; injection H as -> H.
    + left. by exists xs.
    + destruct (IH l1 H) as [(t & -> & ->)|(h & -> & ->)].
      * left. by exists t.
      * right. by exists h.
Qed.

(** A call of a batch lies in the block of one of its instances. *)
Lemma blocks_split (names : list string) (os : list O)
    (l1 l2 : list Event) (e : Event) :
  blocks block names os = l1 ++ e :: l2 ->
  exists names1 n names2 os1 o os2 b1 b2,
    names = names1 ++ n :: names2 /\ os = os1 ++ o :: os2 /\
    block n o = b1 ++ e :: b2 /\
    l1 = blocks block names1 os1 ++ b1 /\
    l2 = b2 ++ blocks block names2 os2.
Proof.
  revert os l1. induction names as [|n names IH]; intros os l1 H.
  - by destruct l1.
  - destruct os as [|o os]; [by destruct l1|].
    rewrite blocks_cons in H.
    apply app_cons_split in H as [(t & Hb & ->)|(h & -> & Hrest)].
    + exists [], n, names, [], o, os, l1, t. done.
    + destruct (IH os h Hrest)
        as (names1 & m & names2 & os1 & o' & os2 & b1 & b2
            & -> & -> & Hb & -> & ->).
      exists (n :: names1), m, names2, (o :: os1), o', os2, b1, b2.
      rewrite blocks_cons, <- app_assoc. done.
Qed.

End BatchShapes.


Section RestartFacts.
Import Lifecycle Shapes.
Variable E : Env.

Lemma containersRestart_loop_shape (result : list string) (d : Daemon) :
  exists os,
    trace (containersRestart_loop E result d).1
      = trace d ++ blocks restart_block result os /\
    (start_keeps_store E -> db (containersRestart_loop E result d).1 = db d) /\
    fs (containersRestart_loop E result d).1 = fs d /\
    batch_result restart_aborts result os
      (containersRestart_loop E result d).2.
Proof.
  revert d. induction result as [|n result IH]; intros d.
  - exists []. simpl. rewrite app_nil_r.
    split; [done|]. split; [done|]. split; [done|]. apply batch_result_nil.
  - simpl. unfold newLxdContainer.
    destruct (env_new_err E d n) as [err|] eqn:Hn.
    + exists [RLoadFailed]. simpl.
      rewrite blocks_cons, blocks_nil_r.
      split; [done|]. split; [done|]. split; [done|].
      by apply batch_result_abort.
    + simpl. unfold Start. simpl.
      destruct (env_start E (emit (EvNew n true) d) n) as [r rows] eqn:Hs.
      simpl.
      match goal with
      | |- context [containersRestart_loop E result ?d1] =>
          destruct (IH d1) as (os & Ht & Hd & Hf & Hr)
      end.
      exists (RStarted (bool_decide (r = None)) :: os).
      rewrite Ht, Hf, blocks_cons. simpl.
      split; [by rewrite <- !app_assoc|].
      split.
      { intros Hk. rewrite (Hd Hk). simpl.
        pose proof (Hk (emit (EvNew n true) d) n) as Hrows.
        by rewrite Hs in Hrows. }
      split; [done|].
      by apply batch_result_cons.
Qed.

Lemma exec_ClearPowerState_zero (rows : list Row) (r : Row) :
  r ∈ exec_stmt ClearPowerState rows -> row_power_state r = 0.
Proof.
  simpl. intros Hr. apply list_elem_of_fmap in Hr as (r0 & -> & _). done.
Qed.

Lemma restart_blocks_events (names : list string) (os : list RestartOutcome)
    (e : Event) :
  e ∈ blocks restart_block names os ->
  exists n ok, n ∈ names /\ (e = EvNew n ok \/ e = EvStart n ok).
Proof.
  revert os. induction names as [|n names IH]; intros os He.
  - by apply elem_of_nil in He.
  - destruct os as [|o os]; [by apply elem_of_nil in He|].
    rewrite blocks_cons in He. apply elem_of_app in He as [He|He].
    + destruct o as [|ok]; simpl in He.
      * apply list_elem_of_singleton in He as ->.
        exists n, false. split; [apply list_elem_of_here | by left].
      * apply elem_of_cons in He as [->|He].
        { exists n, true. split; [apply list_elem_of_here | by left]. }
        apply list_elem_of_singleton in He as ->.
        exists n, ok. split; [apply list_elem_of_here | by right].
    + destruct (IH os He) as (m & ok & Hm & Hev).
      exists m, ok. split; [by apply list_elem_of_further | done].
Qed.

Lemma select_QPowered (ty : containerType) (rows : list Row) (n : string) :
  n ∈ row_name <$> select (QPowered ty) rows <->
  exists r, r ∈ rows /\ row_name r = n /\ row_type r = ty /\
            row_power_state r = 1.
Proof.
  rewrite list_elem_of_fmap. unfold select. split.
  - intros (r & -> & Hr). apply list_elem_of_In, filter_In in Hr as [Hin Hm].
    simpl in Hm. apply andb_true_iff in Hm as [Ht Hp].
    apply bool_decide_eq_true in Ht. apply bool_decide_eq_true in Hp.
    exists r. by rewrite list_elem_of_In.
  - intros (r & Hin & <- & Ht & Hp). exists r. split; [done|].
    apply list_elem_of_In, filter_In. split; [by apply list_elem_of_In|].
    simpl. by rewrite !bool_decide_eq_true_2.
Qed.

Lemma containersRestart_run (d : Daemon) :
  let q := QPowered cTypeRegular in
  env_query_err E d q = None ->
  env_exec_err E (emit (EvQuery q true) d) ClearPowerState = None ->
  containersRestart E d =
    containersRestart_loop E (row_name <$> select q (db d))
      (emit (EvExec ClearPowerState true)
         (set_db (exec_stmt ClearPowerState (db d)) (emit (EvQuery q true) d))).
Proof.
  intros q Hq Hx. unfold containersRestart, dbQueryScan_names.
  fold q. rewrite Hq. unfold dbExec. rewrite Hx. done.
Qed.

(** C6: restart-all recovery first reads the instances whose power_state
    is 1, then clears the flag of every row, and only then loads and starts
    the instances read; it executes no other statement during the pass, and
    with a start call that leaves the store as it finds it every row has
    power_state 0 at the end, whatever the outcome of the individual loads
    and starts. *)
Theorem containersRestart_power_state (d : Daemon) :
  let q := QPowered cTypeRegular in
  let names := row_name <$> select q (db d) in
  env_query_err E d q = None ->
  env_exec_err E (emit (EvQuery q true) d) ClearPowerState = None ->
  start_keeps_store E ->
  exists os,
    trace (containersRestart E d).1
      = trace d ++ [EvQuery q true; EvExec ClearPowerState true]
                ++ blocks restart_block names os /\
    (forall n, n ∈ names <->
       exists r, r ∈ db d /\ row_name r = n /\ row_type r = cTypeRegular /\
                 row_power_state r = 1) /\
    (forall e, e ∈ blocks restart_block names os ->
       exists n ok, n ∈ names /\ (e = EvNew n ok \/ e = EvStart n ok)) /\
    db (containersRestart E d).1 = set_power_state 0 <$> db d /\
    (forall r, r ∈ db (containersRestart E d).1 -> row_power_state r = 0).
Proof.
  intros q names Hq Hx Hk.
  rewrite (containersRestart_run d Hq Hx). fold q. fold names.
  destruct (containersRestart_loop_shape names
              (emit (EvExec ClearPowerState true)
                 (set_db (exec_stmt ClearPowerState (db d))
                    (emit (EvQuery q true) d))))
    as (os & Ht & Hd & _ & _).
  exists os. rewrite Ht, (Hd Hk). simpl.
  split; [by rewrite <- !app_assoc|].
  split; [apply select_QPowered|].
  split; [apply restart_blocks_events|].
  split; [done|].
  intros r Hr. by apply (exec_ClearPowerState_zero (db d)).
Qed.

(** What each instance of a restart-all pass went through decides the
    result: an error is returned exactly when a handle could not be
    loaded, and then nothing after that instance is processed. *)
Lemma containersRestart_batch (d : Daemon) :
  let q := QPowered cTypeRegular in
  let names := row_name <$> select q (db d) in
  env_query_err E d q = None ->
  env_exec_err E (emit (EvQuery q true) d) ClearPowerState = None ->
  exists os,
    trace (containersRestart E d).1
      = trace d ++ [EvQuery q true; EvExec ClearPowerState true]
                ++ blocks restart_block names os /\
    batch_result restart_aborts names os (containersRestart E d).2.
Proof.
  intros q names Hq Hx.
  rewrite (containersRestart_run d Hq Hx). fold q. fold names.
  destruct (containersRestart_loop_shape names
              (emit (EvExec ClearPowerState true)
                 (set_db (exec_stmt ClearPowerState (db d))
                    (emit (EvQuery q true) d))))
    as (os & Ht & _ & _ & Hr).
  exists os. rewrite Ht. simpl.
  split; [by rewrite <- !app_assoc | done].
Qed.

(** An error of the restart loop is the error of the load that failed, and
    the loop ends with that load. *)
Lemma containersRestart_loop_error (result : list string) (d : Daemon)
    (err : error) :
  (containersRestart_loop E result d).2 = Some err ->
  exists d' n,
    n ∈ result /\
    (containersRestart_loop E result d).1 = emit (EvNew n false) d' /\
    env_new_err E d' n = Some err.
Proof.
  revert d. induction result as [|r result IH]; intros d H; [done|].
  simpl in *. unfold newLxdContainer in *.
  destruct (env_new_err E d r) as [e0|] eqn:Hn.
  - simpl in *. injection H as ->. exists d, r.
    split; [apply list_elem_of_here|]. done.
  - destruct (IH _ H) as (d' & n & Hin & Hd & He).
    exists d', n. split; [by apply list_elem_of_further|]. done.
Qed.

End RestartFacts.

(** C6 on the store [rows0], where [web1] fails to start: the pass still
    leaves every power_state at 0. *)
Lemma containersRestart_power_state_witness :
  Forall (fun r => Lifecycle.row_power_state r = 0)
    (Lifecycle.db
       (Lifecycle.containersRestart Scenarios.env_start_fails
          Scenarios.daemon0).1).
Proof.
  destruct (containersRestart_power_state Scenarios.env_start_fails
              Scenarios.daemon0 eq_refl eq_refl (fun _ _ => eq_refl))
    as (os & _ & _ & _ & _ & H).
  apply Forall_forall. exact H.
Defined.

Section ShutdownFacts.
Import Lifecycle Shapes.
Variable E : Env.

Lemma containersShutdown_loop_shape (results : list string) (d : Daemon) :
  exists os,
    trace (containersShutdown_loop E results [] d).1
      = trace d ++ blocks shutdown_block results os /\
    db (containersShutdown_loop E results [] d).1
      = apply_updates (updated results os) (db d) /\
    fs (containersShutdown_loop E results [] d).1 = fs d /\
    batch_result shutdown_aborts results os
      (containersShutdown_loop E results [] d).2.
Proof.
  revert d. induction results as [|n results IH]; intros d.
  - exists []. simpl. rewrite app_nil_r.
    split; [done|]. split; [done|]. split; [done|]. apply batch_result_nil.
  - simpl. unfold newLxdContainer.
    destruct (env_new_err E d n) as [err|] eqn:Hn.
    { exists [SLoadFailed]. simpl. rewrite blocks_cons, blocks_nil_r.
      split; [done|]. split; [by destruct results|]. split; [done|].
      by apply batch_result_abort. }
    simpl.
    destruct (env_is_running E (emit (EvNew n true) d) n) eqn:Hrun.
    + unfold dbExec.
      destruct (env_exec_err E
                  (emit (EvIsRunning n true) (emit (EvNew n true) d))
                  (SetPowerState n)) as [err|] eqn:Hx.
      { exists [SUpdateFailed]. simpl. rewrite blocks_cons, blocks_nil_r.
        split; [by rewrite <- !app_assoc|].
        split; [by destruct results|]. split; [done|].
        by apply batch_result_abort. }
      match goal with
      | |- context [containersShutdown_loop E results [] ?d1] =>
          destruct (IH d1) as (os & Ht & Hd & Hf & Hr)
      end.
      eexists (SShutDown _ _ :: os).
      rewrite Ht, Hd, Hf, blocks_cons. simpl.
      split; [by rewrite <- !app_assoc|].
      split; [done|]. split; [done|].
      by apply batch_result_cons.
    + match goal with
      | |- context [containersShutdown_loop E results [] ?d1] =>
          destruct (IH d1) as (os & Ht & Hd & Hf & Hr)
      end.
      exists (SNotRunning :: os).
      rewrite Ht, Hd, Hf, blocks_cons. simpl.
      split; [by rewrite <- !app_assoc|].
      split; [done|]. split; [done|].
      by apply batch_result_cons.
Qed.

(** *** The calls of one loop iteration *)

Ltac block_cases b1 H :=
  simpl in H;
  repeat (destruct b1 as [|? b1]; simplify_eq/=); eauto 10.

Lemma shutdown_block_Go (n m : string) (o : ShutdownOutcome)
    (b1 b2 : list Event) :
  shutdown_block n o = b1 ++ EvGo m :: b2 ->
  m = n /\
  b1 = [EvNew n true; EvIsRunning n true; EvExec (SetPowerState n) true] /\
  exists ok1 ok2,
    o = SShutDown ok1 ok2 /\
    b2 = [EvShutdown n (time_Second * 30) ok1; EvStop n ok2; EvDone n; EvWait].
Proof. destruct o; intros H; block_cases b1 H. Qed.

Lemma shutdown_block_Shutdown (n m : string) (t : Z) (ok : bool)
    (o : ShutdownOutcome) (b1 b2 : list Event) :
  shutdown_block n o = b1 ++ EvShutdown m t ok :: b2 ->
  m = n /\ t = time_Second * 30 /\
  b1 = [EvNew n true; EvIsRunning n true; EvExec (SetPowerState n) true;
        EvGo n] /\
  exists ok2, b2 = [EvStop n ok2; EvDone n; EvWait].
Proof. destruct o; intros H; block_cases b1 H. Qed.

Lemma shutdown_block_Stop (n m : string) (ok : bool)
    (o : ShutdownOutcome) (b1 b2 : list Event) :
  shutdown_block n o = b1 ++ EvStop m ok :: b2 ->
  m = n /\ b2 = [EvDone n; EvWait] /\
  exists ok1,
    b1 = [EvNew n true; EvIsRunning n true; EvExec (SetPowerState n) true;
          EvGo n; EvShutdown n (time_Second * 30) ok1].
Proof. destruct o; intros H; block_cases b1 H. Qed.




(** *** The store after a mass shutdown *)

Lemma apply_updates_mark (U : list string) (rows : list Row) :
  apply_updates U rows = mark_running U <$> rows.
Proof.
  revert rows. induction U as [|n U IH]; intros rows.
  - unfold apply_updates. simpl.
    rewrite <- (list_fmap_id rows) at 1. apply list_fmap_ext.
    intros _ r _. unfold mark_running.
    rewrite bool_decide_eq_false_2; [done | apply not_elem_of_nil].
  - unfold apply_updates in *. simpl. rewrite IH.
    rewrite <- list_fmap_compose. apply list_fmap_ext.
    intros _ r _. simpl. unfold mark_running.
    destruct (decide (row_name r = n)) as [Hn|Hn].
    + rewrite (bool_decide_eq_true_2 (row_name r = n)) by done.
      rewrite (bool_decide_eq_true_2 (row_name r ∈ n :: U))
        by (rewrite Hn; apply list_elem_of_here).
      by destruct (bool_decide (row_name (set_power_state 1 r) ∈ U)).
    + rewrite (bool_decide_eq_false_2 (row_name r = n)) by done.
      destruct (decide (row_name r ∈ U)) as [HU|HU].
      * rewrite !bool_decide_eq_true_2; [done| |done].
        by apply list_elem_of_further.
      * rewrite !bool_decide_eq_false_2; [done| |done].
        rewrite elem_of_cons. tauto.
Qed.

Lemma updated_cons (n : string) (names : list string)
    (o : ShutdownOutcome) (os : list ShutdownOutcome) :
  updated (n :: names) (o :: os) =
    match o with
    | SShutDown _ _ => n :: updated names os
    | _ => updated names os
    end.
Proof. by destruct o. Qed.

Lemma updated_Go (names : list string) (os : list ShutdownOutcome)
    (n : string) :
  n ∈ updated names os <-> EvGo n ∈ blocks shutdown_block names os.
Proof.
  revert os. induction names as [|m names IH]; intros os.
  - simpl. rewrite !elem_of_nil. done.
  - destruct os as [|o os].
    { rewrite blocks_nil_r. simpl. rewrite !elem_of_nil. done. }
    rewrite updated_cons, blocks_cons, elem_of_app.
    destruct o; simpl; rewrite ?elem_of_cons, ?elem_of_nil, <- ?IH;
      intuition (try discriminate; try congruence).
Qed.

Lemma containersShutdown_run (d : Daemon) (names : list string) :
  env_list E d = (names, None) ->
  containersShutdown E d =
    containersShutdown_loop E names [] (emit (EvList true) d).
Proof.
  intros Hl. unfold containersShutdown, ListRegularContainers.
  by rewrite Hl.
Qed.

(** The calls and the result of a mass shutdown over [names]. *)
Lemma containersShutdown_shape (d : Daemon) (names : list string) :
  env_list E d = (names, None) ->
  exists os,
    trace (containersShutdown E d).1
      = trace d ++ EvList true :: blocks shutdown_block names os /\
    db (containersShutdown E d).1 = mark_running (updated names os) <$> db d /\
    fs (containersShutdown E d).1 = fs d /\
    batch_result shutdown_aborts names os (containersShutdown E d).2.
Proof.
  intros Hl. rewrite (containersShutdown_run d names Hl).
  destruct (containersShutdown_loop_shape names (emit (EvList true) d))
    as (os & Ht & Hd & Hf & Hr).
  exists os. rewrite Ht, Hd, Hf, apply_updates_mark. simpl.
  split; [by rewrite <- app_assoc|]. done.
Qed.






(** An error of the shutdown loop is the error of the load or of the
    power_state update that failed, and the loop ends with that call. *)
Lemma containersShutdown_loop_error (results : list string) (d : Daemon)
    (err : error) :
  (containersShutdown_loop E results [] d).2 = Some err ->
  exists d' n,
    n ∈ results /\
    ((containersShutdown_loop E results [] d).1 = emit (EvNew n false) d' /\
     env_new_err E d' n = Some err \/
     (containersShutdown_loop E results [] d).1
       = emit (EvExec (SetPowerState n) false) d' /\
     env_exec_err E d' (SetPowerState n) = Some err).
Proof.
  revert d. induction results as [|r results IH]; intros d H; [done|].
  simpl in *. unfold newLxdContainer in *.
  destruct (env_new_err E d r) as [e0|] eqn:Hn.
  { simpl in *. injection H as ->. exists d, r.
    split; [apply list_elem_of_here|]. left. done. }
  simpl in *.
  destruct (env_is_running E (emit (EvNew r true) d) r) eqn:Hrun.
  - unfold dbExec in *.
    destruct (env_exec_err E
                (emit (EvIsRunning r true) (emit (EvNew r true) d))
                (SetPowerState r)) as [e0|] eqn:Hx.
    { simpl in *. injection H as ->.
      exists (emit (EvIsRunning r true) (emit (EvNew r true) d)), r.
      split; [apply list_elem_of_here|]. right. done. }
    destruct (IH _ H) as (d' & n & Hin & Hd).
    exists d', n. split; [by apply list_elem_of_further|]. done.
  - destruct (IH _ H) as (d' & n & Hin & Hd).
    exists d', n. split; [by apply list_elem_of_further|]. done.
Qed.


(** C7 (amended): the goroutine of a mass shutdown requests a graceful
    shutdown with a timeout of 30 seconds and then issues the forced stop
    in every case, whatever the instance's state after the graceful
    shutdown; a forced stop is issued only there. *)
Theorem containersShutdown_forced_stop (d : Daemon) (names : list string) :
  env_list E d = (names, None) ->
  (forall c d0, exists ok1 ok2,
      trace (shutdown_task E c d0)
        = trace d0 ++ [EvShutdown (NameGet c) (time_Second * 30) ok1;
                       EvStop (NameGet c) ok2; EvDone (NameGet c)]) /\
  exists evs,
    trace (containersShutdown E d).1 = trace d ++ EvList true :: evs /\
    (forall l1 n l2, evs = l1 ++ EvGo n :: l2 ->
       exists l0 ok1 ok2 l3,
         l1 = l0 ++ [EvIsRunning n true; EvExec (SetPowerState n) true] /\
         l2 = EvShutdown n (time_Second * 30) ok1 :: EvStop n ok2
                :: EvDone n :: EvWait :: l3) /\
    (forall l1 n t ok l2, evs = l1 ++ EvShutdown n t ok :: l2 ->
       t = time_Second * 30 /\ exists ok2 l3, l2 = EvStop n ok2 :: l3) /\
    (forall l1 n ok l2, evs = l1 ++ EvStop n ok :: l2 ->
       exists l0 ok1, l1 = l0 ++ [EvShutdown n (time_Second * 30) ok1]).
Proof.
  intros Hl. split.
  { intros c d0. eexists _, _. unfold shutdown_task. simpl.
    by rewrite <- !app_assoc. }
  destruct (containersShutdown_shape d names Hl) as (os & Ht & _ & _ & _).
  exists (blocks shutdown_block names os). split; [done|]. split.
  { intros l1 n l2 H.
    apply blocks_split in H
      as (ns1 & m & ns2 & os1 & o & os2 & b1 & b2 & _ & _ & Hb & -> & ->).
    apply shutdown_block_Go in Hb as (-> & -> & ok1 & ok2 & _ & ->).
    exists (blocks shutdown_block ns1 os1 ++ [EvNew m true]), ok1, ok2,
      (blocks shutdown_block ns2 os2).
    by rewrite <- app_assoc. }
  split.
  { intros l1 n t ok l2 H.
    apply blocks_split in H
      as (ns1 & m & ns2 & os1 & o & os2 & b1 & b2 & _ & _ & Hb & -> & ->).
    apply shutdown_block_Shutdown in Hb as (-> & -> & _ & ok2 & ->).
    split; [done|]. by eexists _, _. }
  intros l1 n ok l2 H.
  apply blocks_split in H
    as (ns1 & m & ns2 & os1 & o & os2 & b1 & b2 & _ & _ & Hb & -> & ->).
  apply shutdown_block_Stop in Hb as (-> & _ & ok1 & ->).
  exists (blocks shutdown_block ns1 os1
            ++ [EvNew m true; EvIsRunning m true;
                EvExec (SetPowerState m) true; EvGo m]), ok1.
  by rewrite <- app_assoc.
Qed.

Lemma flight_after_app (k : nat) (a b : list Event) :
  flight_after k (a ++ b) = flight_after (flight_after k a) b.
Proof. apply fold_left_app. Qed.

Lemma in_flight_app (k : nat) (a b : list Event) :
  in_flight k (a ++ b) = in_flight k a ++ in_flight (flight_after k a) b.
Proof.
  revert k. induction a as [|e a IH]; intros k; [done|].
  simpl. by rewrite IH.
Qed.

Lemma shutdown_block_flight (n : string) (o : ShutdownOutcome) :
  flight_after 0 (shutdown_block n o) = 0%nat /\
  Forall (fun k => (k <= 1)%nat) (in_flight 0 (shutdown_block n o)).
Proof.
  destruct o; simpl; (split; [done|]); repeat constructor.
Qed.

Lemma shutdown_blocks_flight (names : list string)
    (os : list ShutdownOutcome) :
  flight_after 0 (blocks shutdown_block names os) = 0%nat /\
  Forall (fun k => (k <= 1)%nat)
    (in_flight 0 (blocks shutdown_block names os)).
Proof.
  revert os. induction names as [|n names IH]; intros os.
  - split; [done|]. constructor.
  - destruct os as [|o os]; [split; [done | constructor]|].
    rewrite blocks_cons, flight_after_app, in_flight_app.
    destruct (shutdown_block_flight n o) as [-> Hb].
    destruct (IH os) as [-> Hrest].
    split; [done|]. by apply Forall_app.
Qed.

(** C8: in a mass shutdown at most one shutdown goroutine is in flight
    after any call: each one is waited for before the next instance is
    looked at, so the attempts run one after the other. *)
Theorem containersShutdown_one_at_a_time (d : Daemon) (names : list string) :
  env_list E d = (names, None) ->
  exists evs,
    trace (containersShutdown E d).1 = trace d ++ EvList true :: evs /\
    Forall (fun k => (k <= 1)%nat) (in_flight 0 evs) /\
    (forall l1 n l2, evs = l1 ++ EvGo n :: l2 ->
       exists ok1 ok2 l3,
         l2 = EvShutdown n (time_Second * 30) ok1 :: EvStop n ok2
                :: EvDone n :: EvWait :: l3 /\
         flight_after 0 l1 = 0%nat).
Proof.
  intros Hl.
  destruct (containersShutdown_shape d names Hl) as (os & Ht & _ & _ & _).
  exists (blocks shutdown_block names os). split; [done|].
  split; [apply shutdown_blocks_flight|].
  intros l1 n l2 H.
  apply blocks_split in H
    as (ns1 & m & ns2 & os1 & o & os2 & b1 & b2 & _ & _ & Hb & -> & ->).
  apply shutdown_block_Go in Hb as (-> & -> & ok1 & ok2 & _ & ->).
  exists ok1, ok2, (blocks shutdown_block ns2 os2). split; [done|].
  rewrite flight_after_app.
  destruct (shutdown_blocks_flight ns1 os1) as [-> _]. done.
Qed.

End ShutdownFacts.

(** C3 (amended): in restart-all recovery and in mass shutdown the result
    is an error exactly when an instance's handle could not be loaded or, in
    mass shutdown, its power_state could not be written; the batch then ends
    with that call, the instance is the last one processed, and the error
    returned is the error of that call. A start, a graceful shutdown or a
    forced stop that fails does not end the batch and is not reported: a
    batch in which only such calls fail processes every instance and returns
    nil. *)
Theorem batch_failures_abort_or_are_dropped (E : Lifecycle.Env) :
  let q := Lifecycle.QPowered Lifecycle.cTypeRegular in
  (forall d,
     Lifecycle.env_query_err E d q = None ->
     Lifecycle.env_exec_err E (Lifecycle.emit (Lifecycle.EvQuery q true) d)
       Lifecycle.ClearPowerState = None ->
     exists os,
       Lifecycle.trace (Lifecycle.containersRestart E d).1
         = Lifecycle.trace d
             ++ [Lifecycle.EvQuery q true;
                 Lifecycle.EvExec Lifecycle.ClearPowerState true]
             ++ Shapes.blocks Shapes.restart_block (Stated.powered_names d) os /\
       Shapes.batch_result Shapes.restart_aborts (Stated.powered_names d) os
         (Lifecycle.containersRestart E d).2 /\
       forall err,
         (Lifecycle.containersRestart E d).2 = Some err ->
         exists d' n,
           n ∈ Stated.powered_names d /\
           (Lifecycle.containersRestart E d).1
             = Lifecycle.emit (Lifecycle.EvNew n false) d' /\
           Lifecycle.env_new_err E d' n = Some err) /\
  (forall d names,
     Lifecycle.env_list E d = (names, None) ->
     exists os,
       Lifecycle.trace (Lifecycle.containersShutdown E d).1
         = Lifecycle.trace d
             ++ Lifecycle.EvList true
                  :: Shapes.blocks Shapes.shutdown_block names os /\
       Shapes.batch_result Shapes.shutdown_aborts names os
         (Lifecycle.containersShutdown E d).2 /\
       forall err,
         (Lifecycle.containersShutdown E d).2 = Some err ->
         exists d' n,
           n ∈ names /\
           ((Lifecycle.containersShutdown E d).1
              = Lifecycle.emit (Lifecycle.EvNew n false) d' /\
            Lifecycle.env_new_err E d' n = Some err \/
            (Lifecycle.containersShutdown E d).1
              = Lifecycle.emit
                  (Lifecycle.EvExec (Lifecycle.SetPowerState n) false) d' /\
            Lifecycle.env_exec_err E d' (Lifecycle.SetPowerState n)
              = Some err)).
Proof.
  intros q. split.
  - intros d Hq Hx.
    destruct (containersRestart_batch E d Hq Hx) as (os & Ht & Hr).
    exists os. split; [exact Ht|]. split; [exact Hr|].
    intros err. rewrite (containersRestart_run E d Hq Hx).
    apply containersRestart_loop_error.
  - intros d names Hl.
    destruct (containersShutdown_shape E d names Hl) as (os & Ht & _ & _ & Hr).
    exists os. split; [exact Ht|]. split; [exact Hr|].
    intros err. rewrite (containersShutdown_run E d names Hl).
    apply containersShutdown_loop_error.
Qed.

Section LifecycleExamples.
Import Lifecycle Shapes Scenarios.

Lemma restart_trace_load_fails :
  trace (containersRestart env_load_fails daemon0).1
    = [EvQuery (QPowered cTypeRegular) true; EvExec ClearPowerState true;
       EvNew "web1" false].
Proof. reflexivity. Qed.

Lemma restart_trace_start_fails :
  trace (containersRestart env_start_fails daemon0).1
    = [EvQuery (QPowered cTypeRegular) true; EvExec ClearPowerState true;
       EvNew "web1" true; EvStart "web1" false;
       EvNew "web2" true; EvStart "web2" true].
Proof. reflexivity. Qed.

(** With [web1] and [web2] to restart: when the handle of [web1] cannot be
    loaded the pass returns without touching [web2], and when [web1] fails
    to start the pass returns nil. *)
Lemma restart_aborts_or_drops_failure :
  ~ Stated.restart_propagates_without_aborting env_load_fails daemon0 /\
  ~ Stated.restart_propagates_without_aborting env_start_fails daemon0.
Proof.
  split.
  - intros [Hc _]. destruct (Hc "web2") as [ok Hin].
    { apply list_elem_of_further, list_elem_of_here. }
    rewrite restart_trace_load_fails in Hin.
    rewrite !elem_of_cons, elem_of_nil in Hin.
    destruct Hin as [H|[H|[H|[]]]]; discriminate H.
  - intros [_ Hs]. apply Hs; [|reflexivity].
    exists "web1". right. rewrite restart_trace_start_fails.
    do 3 apply list_elem_of_further. apply list_elem_of_here.
Qed.

(** The amended C3 on the store [rows0]: where [web1] fails to start the
    pass goes through both instances, and where the handle of [web1] cannot
    be loaded the pass ends with that load and returns its error. *)
Lemma batch_failures_abort_or_are_dropped_witness :
  (exists os,
     trace (containersRestart env_start_fails daemon0).1
       = [EvQuery (QPowered cTypeRegular) true; EvExec ClearPowerState true]
           ++ blocks restart_block ["web1"; "web2"] os /\
     batch_result restart_aborts ["web1"; "web2"] os
       (containersRestart env_start_fails daemon0).2) /\
  (exists d' n,
     n ∈ ["web1"; "web2"] /\
     (containersRestart env_load_fails daemon0).1 = emit (EvNew n false) d' /\
     env_new_err env_load_fails d' n = Some (ErrMsg "cannot load container")).
Proof.
  split.
  - destruct (batch_failures_abort_or_are_dropped env_start_fails) as [Hr _].
    destruct (Hr daemon0 eq_refl eq_refl) as (os & Ht & Hb & _).
    exists os. split; [exact Ht | exact Hb].
  - destruct (batch_failures_abort_or_are_dropped env_load_fails) as [Hr _].
    destruct (Hr daemon0 eq_refl eq_refl) as (os & _ & _ & He).
    exact (He (ErrMsg "cannot load container") eq_refl).
Defined.

(** [web1] stops gracefully: it is not running when the graceful shutdown
    has returned, and the goroutine still issues the forced stop. *)
Lemma forced_stop_is_unconditional :
  ~ Stated.forced_stop_conditional env_healthy (mkContainer "web1") daemon0.
Proof.
  intros H. apply (H eq_refl true).
  apply list_elem_of_further, list_elem_of_here.
Qed.

(** The amended C7 on the store [rows0] with instances that stop
    gracefully. *)
Lemma containersShutdown_forced_stop_witness :
  exists evs,
    trace (containersShutdown env_healthy daemon0).1 = EvList true :: evs /\
    (forall l1 n t ok l2, evs = l1 ++ EvShutdown n t ok :: l2 ->
       t = time_Second * 30 /\ exists ok2 l3, l2 = EvStop n ok2 :: l3).
Proof.
  destruct (containersShutdown_forced_stop env_healthy daemon0
              ["web1"; "web2"; "idle"] eq_refl)
    as (_ & evs & Ht & _ & Hs & _).
  exists evs. split; [exact Ht | exact Hs].
Defined.


(** C8 on the store [rows0] with [web1] and [web2] running: the goroutine
    of [web2] is started after the one of [web1] is done and has been
    waited for. *)
Lemma containersShutdown_one_at_a_time_witness :
  trace (containersShutdown env_idle_stopped daemon0).1
    = [EvList true;
       EvNew "web1" true; EvIsRunning "web1" true;
       EvExec (SetPowerState "web1") true; EvGo "web1";
       EvShutdown "web1" 30000000000 true; EvStop "web1" true;
       EvDone "web1"; EvWait;
       EvNew "web2" true; EvIsRunning "web2" true;
       EvExec (SetPowerState "web2") true; EvGo "web2";
       EvShutdown "web2" 30000000000 true; EvStop "web2" true;
       EvDone "web2"; EvWait;
       EvNew "idle" true; EvIsRunning "idle" false; EvWait] /\
  exists evs,
    trace (containersShutdown env_idle_stopped daemon0).1
      = EvList true :: evs /\
    Forall (fun k => (k <= 1)%nat) (in_flight 0 evs).
Proof.
  split; [reflexivity|].
  destruct (containersShutdown_one_at_a_time env_idle_stopped daemon0
              ["web1"; "web2"; "idle"] eq_refl) as (evs & Ht & Hf & _).
  exists evs. split; [exact Ht | exact Hf].
Defined.

End LifecycleExamples.

(** * Byte strings and SQLite's characters *)

Section ByteStrings.
Import Lifecycle.

Lemma append_assoc_r (a b c : string) :
  (a +:+ (b +:+ c) = (a +:+ b) +:+ c)%string.
Proof.
  induction a as [|x a IH]; [done|].
  change (String x (a +:+ (b +:+ c)) = String x ((a +:+ b) +:+ c)).
  by rewrite IH.
Qed.

Lemma prefix_append (p s : string) : String.prefix p (p +:+ s) = true.
Proof.
  induction p as [|c p IH]; simpl; [by destruct s|].
  destruct (Ascii.ascii_dec c c); [exact IH | done].
Qed.

Lemma prefix_split (p s : string) :
  String.prefix p s = true -> exists t, s = (p +:+ t)%string.
Proof.
  revert s. induction p as [|c p IH]; intros s H.
  - by exists s.
  - destruct s as [|c' s]; simpl in H; [done|].
    destruct (Ascii.ascii_dec c c') as [->|]; [|done].
    destruct (IH s H) as [t ->]. by exists t.
Qed.

Lemma skip_continuation_app (s : string) :
  s = ((skip_continuation s).1 +:+ (skip_continuation s).2)%string.
Proof.
  induction s as [|c s IH]; simpl; [done|].
  destruct (utf8_continuation c); [|done].
  destruct (skip_continuation s) as [a b]. simpl in IH.
  change (String c s = String c (a +:+ b)). by rewrite <- IH.
Qed.

(** What [SUBSTR(s, 1, n)] returns is the beginning of [s]. *)
Lemma take_chars_split (n : nat) (s : string) :
  exists t, s = (take_chars n s +:+ t)%string.
Proof.
  revert s. induction n as [|n IH]; intros s.
  - exists s. by destruct s.
  - destruct s as [|c s]; [by exists EmptyString|]. simpl.
    destruct (Ascii.N_of_ascii c =? 0)%N; [by eexists|].
    destruct (utf8_lead c).
    + pose proof (skip_continuation_app s) as Hs.
      destruct (skip_continuation s) as [a b]. simpl in Hs.
      destruct (IH b) as [t Ht]. exists t.
      change (String c s = String c ((a +:+ take_chars n b) +:+ t)).
      by rewrite <- append_assoc_r, <- Ht, <- Hs.
    + destruct (IH s) as [t Ht]. exists t.
      change (String c s = String c (take_chars n s +:+ t)).
      by rewrite <- Ht.
Qed.

Lemma take_chars_prefix (n : nat) (s : string) :
  String.prefix (take_chars n s) s = true.
Proof.
  destruct (take_chars_split n s) as [t Ht].
  rewrite Ht at 2. apply prefix_append.
Qed.

(** Of text whose characters are single bytes, the first [len p]
    characters of [p ++ t] are [p]. *)
Lemma take_chars_one_byte (p t : string) :
  one_byte_chars p = true ->
  take_chars (String.length p) (p +:+ t) = p.
Proof.
  induction p as [|c p IH]; intros H.
  - by destruct t.
  - simpl in H. apply andb_true_iff in H as [H Hp].
    apply andb_true_iff in H as [H0 H1].
    apply N.ltb_lt in H0, H1.
    change (take_chars (S (String.length p)) (String c (p +:+ t))
            = String c p).
    simpl.
    destruct (N.eqb_spec (Ascii.N_of_ascii c) 0) as [He|_]; [lia|].
    unfold utf8_lead.
    destruct (N.leb_spec 192 (Ascii.N_of_ascii c)) as [Hl|_]; [lia|].
    by rewrite (IH Hp).
Qed.
End ByteStrings.

(** * Snapshot cleanup *)

Section CleanupFacts.
Import Lifecycle Shapes.
Variable E : Env.

Lemma remove_tree_self (p : string) (paths : list string) :
  p ∉ remove_tree p paths.
Proof.
  unfold remove_tree. rewrite list_elem_of_In, filter_In.
  intros [_ H]. unfold under in H.
  by rewrite bool_decide_eq_true_2 in H.
Qed.

Lemma remove_tree_subseteq (p q : string) (paths : list string) :
  q ∉ paths -> q ∉ remove_tree p paths.
Proof.
  unfold remove_tree. rewrite !list_elem_of_In, filter_In. tauto.
Qed.

Lemma os_RemoveAll_spec (p : string) (d : Daemon) :
  exists ok,
    trace (os_RemoveAll E p d).1 = trace d ++ [EvRemoveAll p ok] /\
    db (os_RemoveAll E p d).1 = db d /\
    (forall q, q ∉ fs d -> q ∉ fs (os_RemoveAll E p d).1) /\
    (ok = true -> p ∉ fs (os_RemoveAll E p d).1) /\
    (storage_works E -> ok = true).
Proof.
  unfold os_RemoveAll. destruct (env_removeall_err E d p) eqn:Hr; simpl.
  - exists false. repeat split; try done.
    intros Hw. by rewrite Hw in Hr.
  - exists true. repeat split; auto using remove_tree_subseteq, remove_tree_self.
Qed.

Lemma btrfsDeleteSubvol_spec (p : string) (d : Daemon) :
  exists ok,
    trace (btrfsDeleteSubvol E p d).1 = trace d ++ [EvBtrfsDeleteSubvol p ok] /\
    db (btrfsDeleteSubvol E p d).1 = db d /\
    (forall q, q ∉ fs d -> q ∉ fs (btrfsDeleteSubvol E p d).1).
Proof.
  unfold btrfsDeleteSubvol. destruct (env_btrfs_err E d p); simpl.
  - exists false. done.
  - exists true. repeat split; auto using remove_tree_subseteq.
Qed.

(** The first loop: storage calls only, a removal for every snapshot
    found, its ids collected in order. *)
Lemma remove_storage_loop_spec (backingFs : string)
    (results : list (string * Z)) (ids : list Z) (d : Daemon) :
  exists sev,
    trace (remove_storage_loop E backingFs results ids d).1 = trace d ++ sev /\
    (remove_storage_loop E backingFs results ids d).2 = ids ++ results.*2 /\
    db (remove_storage_loop E backingFs results ids d).1 = db d /\
    Forall (fun e => is_storage_event e = true) sev /\
    (forall r, r ∈ results ->
       exists ok, EvRemoveAll (VarPath E "snapshots" r.1) ok ∈ sev /\
                  (storage_works E -> ok = true)) /\
    (forall p, p ∉ fs d \/ EvRemoveAll p true ∈ sev ->
       p ∉ fs (remove_storage_loop E backingFs results ids d).1).
Proof.
  revert ids d. induction results as [|r results IH]; intros ids d.
  - exists []. simpl. rewrite !app_nil_r.
    repeat split; try done.
    + intros r Hr. by apply elem_of_nil in Hr.
    + intros p [Hp|Hp]; [done | by apply elem_of_nil in Hp].
  - simpl.
    set (cdir := VarPath E "snapshots" r.1).
    set (d1 := if bool_decide (backingFs = "btrfs")
               then (btrfsDeleteSubvol E cdir d).1 else d).
    assert (H1 : exists bev,
              trace d1 = trace d ++ bev /\ db d1 = db d /\
              Forall (fun e => is_storage_event e = true) bev /\
              (forall p ok, EvRemoveAll p ok ∉ bev) /\
              (forall q, q ∉ fs d -> q ∉ fs d1)).
    { subst d1. destruct (bool_decide (backingFs = "btrfs")).
      - destruct (btrfsDeleteSubvol_spec cdir d) as (ok & Ht & Hd & Hf).
        exists [EvBtrfsDeleteSubvol cdir ok].
        repeat split; try done.
        + by repeat constructor.
        + intros p ok' Hin. apply list_elem_of_singleton in Hin. discriminate.
      - exists []. rewrite app_nil_r. repeat split; try done.
        intros p ok' Hin. by apply elem_of_nil in Hin. }
    destruct H1 as (bev & Ht1 & Hd1 & Hs1 & Hno1 & Hf1).
    destruct (os_RemoveAll_spec cdir d1)
      as (ok & Ht2 & Hd2 & Hf2 & Hok2 & Hw2).
    destruct (IH (ids ++ [r.2]) (os_RemoveAll E cdir d1).1)
      as (sev & Ht & Hids & Hd & Hs & Hall & Hfs).
    exists (bev ++ [EvRemoveAll cdir ok] ++ sev).
    rewrite Ht, Hids, Hd, Ht2, Hd2, Ht1, Hd1.
    split; [by rewrite <- !app_assoc|].
    split; [by rewrite <- app_assoc|].
    split; [done|]. split.
    { apply Forall_app. split; [done|]. by constructor. }
    split.
    { intros r' Hr'. apply elem_of_cons in Hr' as [->|Hr'].
      - exists ok. split; [|done].
        rewrite elem_of_app. right. apply list_elem_of_here.
      - destruct (Hall r' Hr') as (ok' & Hin & Hw). exists ok'.
        split; [|done].
        rewrite elem_of_app. right. by apply list_elem_of_further. }
    intros p Hp. apply Hfs.
    destruct Hp as [Hp|Hp]; [left; by apply Hf2, Hf1|].
    apply elem_of_app in Hp as [Hp|Hp]; [by apply Hno1 in Hp|].
    apply elem_of_cons in Hp as [Hp|Hp]; [|by right].
    left. injection Hp as -> <-. by apply Hok2.
Qed.

Lemma delete_ids_snoc (ids : list Z) (id : Z) (rows : list Row) :
  delete_ids (ids ++ [id]) rows = exec_stmt (DeleteById id) (delete_ids ids rows).
Proof. unfold delete_ids. by rewrite fold_left_app. Qed.

Lemma elem_of_delete_ids (ids : list Z) (rows : list Row) (r : Row) :
  r ∈ delete_ids ids rows <-> r ∈ rows /\ row_id r ∉ ids.
Proof.
  revert rows. induction ids as [|id ids IH]; intros rows.
  - simpl. split; [intros H; split; [done | apply not_elem_of_nil] | tauto].
  - unfold delete_ids in *. simpl. rewrite IH.
    rewrite list_elem_of_In, filter_In, <- list_elem_of_In.
    rewrite negb_true_iff, bool_decide_eq_false, not_elem_of_cons. tauto.
Qed.

(** The second loop: deletes in order, stopping at the first that fails. *)
Lemma delete_rows_loop_spec (ids : list Z) (d : Daemon) :
  fs (delete_rows_loop E ids d).1 = fs d /\
  match (delete_rows_loop E ids d).2 with
  | None =>
      trace (delete_rows_loop E ids d).1 = trace d ++ deleted ids /\
      db (delete_rows_loop E ids d).1 = delete_ids ids (db d)
  | Some _ =>
      exists done id rest,
        ids = done ++ id :: rest /\
        trace (delete_rows_loop E ids d).1
          = trace d ++ deleted done ++ [EvExec (DeleteById id) false] /\
        db (delete_rows_loop E ids d).1 = delete_ids done (db d)
  end.
Proof.
  revert d. induction ids as [|id ids IH]; intros d.
  - simpl. by rewrite app_nil_r.
  - simpl. unfold dbExec.
    destruct (env_exec_err E d (DeleteById id)) as [err|] eqn:Hx; simpl.
    + split; [done|]. by exists [], id, ids.
    + match goal with
      | |- context [delete_rows_loop E ids ?d1] =>
          destruct (IH d1) as [Hf IHr]; rewrite Hf;
          destruct (delete_rows_loop E ids d1).2
      end.
      * split; [done|].
        destruct IHr as (done & id' & rest & -> & Ht & Hd).
        exists (id :: done), id', rest. rewrite Ht, Hd. simpl.
        split; [done|]. by rewrite <- !app_assoc.
      * split; [done|]. destruct IHr as [Ht Hd].
        rewrite Ht, Hd. simpl. by rewrite <- !app_assoc.
Qed.

Lemma delete_rows_loop_ok (ids : list Z) (d : Daemon) :
  store_writes E -> (delete_rows_loop E ids d).2 = None.
Proof.
  intros Hw. revert d. induction ids as [|id ids IH]; intros d; [done|].
  simpl. unfold dbExec. rewrite Hw. apply IH.
Qed.

Lemma NoDup_fmap_filter {A B : Type} (f : A -> B) (P : A -> bool)
    (l : list A) :
  NoDup (f <$> l) -> NoDup (f <$> List.filter P l).
Proof.
  induction l as [|a l IH]; simpl; [done|].
  rewrite NoDup_cons. intros [Hnotin Hnd].
  destruct (P a); [|by apply IH].
  rewrite fmap_cons, NoDup_cons. split; [|by apply IH].
  intros Hin. apply Hnotin.
  apply list_elem_of_fmap in Hin as (x & -> & Hx).
  apply list_elem_of_In, filter_In in Hx as [Hx _].
  apply list_elem_of_fmap_2. by apply list_elem_of_In.
Qed.

Variable cname : string.

Local Abbreviation q := (snapshot_query E cname).

Lemma elem_of_select (q0 : Query) (rows : list Row) (r : Row) :
  r ∈ select q0 rows <-> r ∈ rows /\ row_matches q0 r = true.
Proof.
  unfold select. by rewrite list_elem_of_In, filter_In, <- list_elem_of_In.
Qed.

(** The rows the cleanup query selects are snapshot rows whose name begins
    with the instance name followed by the delimiter. *)
Lemma select_snapshots (rows : list Row) (r : Row) :
  r ∈ select q rows ->
  r ∈ rows /\ row_type r = cTypeSnapshot /\
  String.prefix (cname +:+ SnapshotDelimiter E) (row_name r) = true.
Proof.
  rewrite elem_of_select. unfold q, snapshot_query. simpl.
  rewrite andb_true_iff, !bool_decide_eq_true.
  intros (Hin & Hty & Hsub). split; [done|]. split; [done|].
  rewrite <- Hsub at 1. apply take_chars_prefix.
Qed.

(** When the characters of the instance name and of the delimiter are
    single bytes, the query selects every such row. *)
Lemma select_snapshots_one_byte (rows : list Row) (r : Row) :
  one_byte_chars (cname +:+ SnapshotDelimiter E) = true ->
  r ∈ rows -> row_type r = cTypeSnapshot ->
  String.prefix (cname +:+ SnapshotDelimiter E) (row_name r) = true ->
  r ∈ select q rows.
Proof.
  intros Hone Hin Hty Hpre. apply elem_of_select. split; [done|].
  unfold q, snapshot_query. simpl.
  rewrite andb_true_iff, !bool_decide_eq_true. split; [done|].
  apply prefix_split in Hpre as [t ->].
  unfold sql_substr1, len. rewrite Nat2Z.id.
  by apply take_chars_one_byte.
Qed.

(** A run in which the query succeeds and the backend detection does not
    fail for good: the storage loop, then the delete loop. *)
Lemma containerDeleteSnapshots_run (d : Daemon) :
  env_query_err E d q = None ->
  match (env_detect E (emit (EvQuery q true) d)
           (VarPath E "containers" cname)).2 with
  | Some e => os_IsNotExist e = true
  | None => True
  end ->
  exists d2 okd sev,
    containerDeleteSnapshots E cname d
      = delete_rows_loop E (row_id <$> select q (db d)) d2 /\
    trace d2 = trace d ++ [EvQuery q true;
                           EvDetect (VarPath E "containers" cname) okd] ++ sev /\
    db d2 = db d /\
    Forall (fun e => is_storage_event e = true) sev /\
    (forall r, r ∈ select q (db d) ->
       exists ok, EvRemoveAll (snapshot_dir E r) ok ∈ sev /\
                  (storage_works E -> ok = true)) /\
    (forall p, p ∉ fs d \/ EvRemoveAll p true ∈ sev -> p ∉ fs d2).
Proof.
  intros Hq Hdet.
  unfold containerDeleteSnapshots, dbQueryScan_name_id. fold q. rewrite Hq.
  unfold filesystemDetect.
  destruct (env_detect E (emit (EvQuery q true) d)
              (VarPath E "containers" cname)) as [backingFs err] eqn:Hd.
  simpl in Hdet.
  set (results := (fun r => (row_name r, row_id r)) <$> select q (db d)).
  set (d1 := emit (EvDetect (VarPath E "containers" cname)
                     (bool_decide (err = None)))
               (emit (EvQuery q true) d)).
  destruct (remove_storage_loop_spec backingFs results [] d1)
    as (sev & Ht & Hids & Hdb & Hs & Hall & Hfs).
  exists (remove_storage_loop E backingFs results [] d1).1,
    (bool_decide (err = None)), sev.
  assert (Hids' : (remove_storage_loop E backingFs results [] d1).2
                  = row_id <$> select q (db d)).
  { rewrite Hids. simpl. subst results.
    rewrite <- list_fmap_compose. done. }
  split.
  { destruct (remove_storage_loop E backingFs results [] d1) as [d2 ids] eqn:Hl.
    simpl in Hids'. subst ids. simpl.
    destruct err as [e|]; [|done]. by rewrite Hdet. }
  split; [rewrite Ht; simpl; by rewrite <- !app_assoc|].
  split; [done|]. split; [done|]. split; [|done].
  intros r Hr.
  apply (Hall (row_name r, row_id r)). subst results.
  by apply (list_elem_of_fmap_2 (fun r => (row_name r, row_id r))).
Qed.

(** The calls of any run: first calls that execute no statement, then
    deletes of selected rows; when there is a delete at all, the removal
    of every selected snapshot's directory is among the first. *)
Lemma containerDeleteSnapshots_shape (d : Daemon) :
  exists pre dev,
    trace (containerDeleteSnapshots E cname d).1 = trace d ++ pre ++ dev /\
    Forall (fun e => is_exec e = false) pre /\
    Forall (fun e => exists r ok, r ∈ select q (db d) /\
                                  e = EvExec (DeleteById (row_id r)) ok) dev /\
    (dev = [] \/
     forall r, r ∈ select q (db d) ->
       exists ok, EvRemoveAll (snapshot_dir E r) ok ∈ pre).
Proof.
  assert (Hrun :
    env_query_err E d q = None ->
    match (env_detect E (emit (EvQuery q true) d)
             (VarPath E "containers" cname)).2 with
    | Some e => os_IsNotExist e = true
    | None => True
    end ->
    exists pre dev,
      trace (containerDeleteSnapshots E cname d).1 = trace d ++ pre ++ dev /\
      Forall (fun e => is_exec e = false) pre /\
      Forall (fun e => exists r ok, r ∈ select q (db d) /\
                                    e = EvExec (DeleteById (row_id r)) ok) dev /\
      (dev = [] \/
       forall r, r ∈ select q (db d) ->
         exists ok, EvRemoveAll (snapshot_dir E r) ok ∈ pre)).
  { intros Hq Hdet.
    destruct (containerDeleteSnapshots_run d Hq Hdet)
      as (d2 & okd & sev & -> & Ht2 & Hd2 & Hs & Hall & _).
    set (ids := row_id <$> select q (db d)).
    assert (Hdel : forall l, l ⊆ ids ->
      Forall (fun e => exists r ok, r ∈ select q (db d) /\
                                    e = EvExec (DeleteById (row_id r)) ok)
        (deleted l)).
    { intros l Hl. apply Forall_forall. intros e He.
      apply list_elem_of_fmap in He as (id & -> & Hid).
      apply Hl, list_elem_of_fmap in Hid as (r & -> & Hr).
      by exists r, true. }
    exists ([EvQuery q true; EvDetect (VarPath E "containers" cname) okd]
              ++ sev).
    pose proof (delete_rows_loop_spec ids d2) as [_ Hloop].
    assert (Hpre : Forall (fun e => is_exec e = false)
              ([EvQuery q true; EvDetect (VarPath E "containers" cname) okd]
                 ++ sev)).
    { apply Forall_app. split; [by repeat constructor|].
      eapply Forall_impl; [exact Hs|]. by intros [] He. }
    assert (Hrem : forall r, r ∈ select q (db d) ->
              exists ok, EvRemoveAll (snapshot_dir E r) ok
                ∈ [EvQuery q true; EvDetect (VarPath E "containers" cname) okd]
                    ++ sev).
    { intros r Hr. destruct (Hall r Hr) as (ok & Hin & _). exists ok.
      rewrite elem_of_app. by right. }
    destruct (delete_rows_loop E ids d2).2 as [err|].
    - destruct Hloop as (done & id & rest & Hids & Ht & _).
      exists (deleted done ++ [EvExec (DeleteById id) false]).
      rewrite Ht, Ht2.
      split; [by rewrite <- !app_assoc|]. split; [done|].
      split; [|by right].
      apply Forall_app. split.
      + apply Hdel. rewrite Hids. intros x Hx. rewrite elem_of_app. by left.
      + constructor; [|constructor].
        assert (Hid : id ∈ ids).
        { rewrite Hids, elem_of_app, elem_of_cons. tauto. }
        apply list_elem_of_fmap in Hid as (r & -> & Hr). by exists r, false.
    - destruct Hloop as [Ht _]. exists (deleted ids).
      rewrite Ht, Ht2.
      split; [by rewrite <- !app_assoc|]. split; [done|].
      split; [by apply Hdel | by right]. }
  destruct (env_query_err E d q) as [err|] eqn:Hq.
  { exists [EvQuery q false], [].
    unfold containerDeleteSnapshots, dbQueryScan_name_id. fold q. rewrite Hq.
    simpl. split; [done|]. split; [by repeat constructor|].
    split; [constructor | by left]. }
  pose proof (surjective_pairing
                (env_detect E (emit (EvQuery q true) d)
                   (VarPath E "containers" cname))) as Hd.
  destruct ((env_detect E (emit (EvQuery q true) d)
               (VarPath E "containers" cname)).2) as [e|] eqn:Herr;
    [destruct (os_IsNotExist e) eqn:Hne|].
  - by apply Hrun.
  - exists [EvQuery q true; EvDetect (VarPath E "containers" cname) false], [].
    unfold containerDeleteSnapshots, dbQueryScan_name_id. fold q. rewrite Hq.
    unfold filesystemDetect. cbv beta iota zeta. rewrite Hd.
    cbv beta iota zeta. rewrite Hne. simpl.
    split; [by rewrite <- !app_assoc|]. split; [by repeat constructor|].
    split; [constructor | by left].
  - by apply Hrun.
Qed.

End CleanupFacts.

(** C4: the rows the cleanup query selects are snapshot rows whose name
    begins with the instance name and the delimiter, and they are all such
    rows when the characters of the instance name and of the delimiter are
    single bytes (the query hands [SUBSTR], which counts characters, a
    length in bytes). Every statement the cleanup executes is the delete of
    a selected row, and before the first of them the removal of every
    selected snapshot's directory has been attempted. When a run whose
    removals succeed ends in a failed delete, the directories of the
    selected snapshots are gone and a selected row is still in the store; a
    further run in which the store answers returns nil and leaves no
    selected row. *)
Theorem containerDeleteSnapshots_storage_before_rows (cname : string) :
  (forall E rows r,
     r ∈ Lifecycle.select (Lifecycle.snapshot_query E cname) rows ->
     r ∈ rows /\ Lifecycle.row_type r = Lifecycle.cTypeSnapshot /\
     String.prefix (cname +:+ Lifecycle.SnapshotDelimiter E)
       (Lifecycle.row_name r) = true) /\
  (forall E rows r,
     Lifecycle.one_byte_chars (cname +:+ Lifecycle.SnapshotDelimiter E)
       = true ->
     r ∈ rows -> Lifecycle.row_type r = Lifecycle.cTypeSnapshot ->
     String.prefix (cname +:+ Lifecycle.SnapshotDelimiter E)
       (Lifecycle.row_name r) = true ->
     r ∈ Lifecycle.select (Lifecycle.snapshot_query E cname) rows) /\
  (forall E d l1 s ok l2,
     Lifecycle.trace (Lifecycle.containerDeleteSnapshots E cname d).1
       = Lifecycle.trace d ++ l1 ++ Lifecycle.EvExec s ok :: l2 ->
     (exists r, r ∈ Lifecycle.select (Lifecycle.snapshot_query E cname)
                      (Lifecycle.db d) /\
                s = Lifecycle.DeleteById (Lifecycle.row_id r)) /\
     (forall r, r ∈ Lifecycle.select (Lifecycle.snapshot_query E cname)
                      (Lifecycle.db d) ->
        exists ok', Lifecycle.EvRemoveAll (Shapes.snapshot_dir E r) ok' ∈ l1)) /\
  (forall E1 E2 d err,
     Lifecycle.SnapshotDelimiter E2 = Lifecycle.SnapshotDelimiter E1 ->
     Lifecycle.VarPath E2 = Lifecycle.VarPath E1 ->
     Shapes.store_reads E1 -> Shapes.detects E1 -> Shapes.storage_works E1 ->
     NoDup (Lifecycle.row_id <$> Lifecycle.db d) ->
     (Lifecycle.containerDeleteSnapshots E1 cname d).2 = Some err ->
     Shapes.store_reads E2 -> Shapes.detects E2 -> Shapes.store_writes E2 ->
     let q := Lifecycle.snapshot_query E1 cname in
     let d1 := (Lifecycle.containerDeleteSnapshots E1 cname d).1 in
     let d2 := (Lifecycle.containerDeleteSnapshots E2 cname d1).1 in
     (forall r, r ∈ Lifecycle.select q (Lifecycle.db d) ->
        Shapes.snapshot_dir E1 r ∉ Lifecycle.fs d1) /\
     (exists r, r ∈ Lifecycle.select q (Lifecycle.db d) /\ r ∈ Lifecycle.db d1) /\
     (Lifecycle.containerDeleteSnapshots E2 cname d1).2 = None /\
     Lifecycle.select q (Lifecycle.db d2) = [] /\
     (forall r, r ∈ Lifecycle.select q (Lifecycle.db d) ->
        Shapes.snapshot_dir E1 r ∉ Lifecycle.fs d2)).
Proof.
  split; [intros E rows r; apply select_snapshots|].
  split; [intros E rows r; apply select_snapshots_one_byte|].
  split.
  { intros E d l1 s ok l2 Ht.
    destruct (containerDeleteSnapshots_shape E cname d)
      as (pre & dev & Ht' & Hpre & Hdev & Hrem).
    rewrite Ht' in Ht. apply app_inv_head in Ht.
    apply app_cons_split in Ht as [(t & -> & _)|(h & -> & Hd)].
    - apply Forall_app in Hpre as [_ Hpre].
      apply Forall_cons in Hpre as [Hx _]. discriminate Hx.
    - destruct Hrem as [->|Hrem]; [by destruct h|].
      split.
      + rewrite Hd in Hdev. apply Forall_app in Hdev as [_ Hdev].
        apply Forall_cons in Hdev as [(r & ok' & Hr & Hev) _].
        injection Hev as -> _. by exists r.
      + intros r Hr. destruct (Hrem r Hr) as [ok' Hin]. exists ok'.
        rewrite elem_of_app. by left. }
  intros E1 E2 d err Hdelim Hpath Hr1 Hdet1 Hst1 Hnd Herr Hr2 Hdet2 Hw2 q d1 d2.
  assert (Hq12 : Lifecycle.snapshot_query E2 cname = q).
  { unfold q, Lifecycle.snapshot_query. by rewrite Hdelim. }
  destruct (containerDeleteSnapshots_run E1 cname d (Hr1 _ _) (Hdet1 _ _))
    as (dm & okd & sev & Hrun & Htm & Hdm & _ & Hall & Hfsm).
  fold q in Hrun, Hall.
  pose proof (delete_rows_loop_spec E1
                (Lifecycle.row_id <$> Lifecycle.select q (Lifecycle.db d)) dm)
    as [Hfs1 Hloop].
  rewrite <- Hrun in Hfs1, Hloop. fold d1 in Hfs1, Hloop.
  rewrite Herr in Hloop.
  destruct Hloop as (done & id & rest & Hids & _ & Hdb1).
  rewrite Hdm in Hdb1.
  assert (Habsent1 : forall r,
            r ∈ Lifecycle.select q (Lifecycle.db d) ->
            Shapes.snapshot_dir E1 r ∉ Lifecycle.fs d1).
  { intros r Hr. rewrite Hfs1. apply Hfsm. right.
    destruct (Hall r Hr) as (ok & Hin & Hok). by rewrite (Hok Hst1) in Hin. }
  split; [exact Habsent1|].
  split.
  { assert (Hid : id ∈ Lifecycle.row_id <$> Lifecycle.select q (Lifecycle.db d)).
    { rewrite Hids, elem_of_app, elem_of_cons. tauto. }
    apply list_elem_of_fmap in Hid as (r & Hrid & Hr).
    exists r. split; [done|]. rewrite Hdb1.
    apply elem_of_delete_ids. split.
    - apply elem_of_select in Hr. tauto.
    - rewrite <- Hrid.
      pose proof (NoDup_fmap_filter Lifecycle.row_id
                    (Lifecycle.row_matches q) (Lifecycle.db d) Hnd) as Hnd'.
      fold (Lifecycle.select q (Lifecycle.db d)) in Hnd'.
      rewrite Hids in Hnd'. apply NoDup_app in Hnd' as (_ & Hdisj & _).
      intros Hin. apply (Hdisj id Hin). apply list_elem_of_here. }
  destruct (containerDeleteSnapshots_run E2 cname d1 (Hr2 _ _) (Hdet2 _ _))
    as (dn & okd2 & sev2 & Hrun2 & _ & Hdn & _ & _ & Hfsn).
  rewrite Hq12 in Hrun2.
  pose proof (delete_rows_loop_spec E2
                (Lifecycle.row_id <$> Lifecycle.select q (Lifecycle.db d1)) dn)
    as [Hfs2 Hloop2].
  pose proof (delete_rows_loop_ok E2
                (Lifecycle.row_id <$> Lifecycle.select q (Lifecycle.db d1)) dn Hw2)
    as Hnone.
  rewrite <- Hrun2 in Hfs2, Hloop2, Hnone. fold d2 in Hfs2, Hloop2.
  split; [exact Hnone|].
  rewrite Hnone in Hloop2. destruct Hloop2 as [_ Hdb2]. rewrite Hdn in Hdb2.
  split.
  { apply elem_of_nil_inv. intros r Hr.
    apply elem_of_select in Hr as [Hin Hm].
    rewrite Hdb2 in Hin. apply elem_of_delete_ids in Hin as [Hin Hnot].
    apply Hnot. apply list_elem_of_fmap_2.
    by apply elem_of_select. }
  intros r Hr. rewrite Hfs2. apply Hfsn. left. by apply Habsent1.
Qed.

(** * Ephemeral watchers *)

Section WatchFacts.
Import Lifecycle Shapes.
Variable E : Env.

Lemma containersWatch_loop_shape (result : list string) (d : Daemon) :
  exists os,
    trace (containersWatch_loop E result d).1
      = trace d ++ blocks watch_block result os.
Proof.
  revert d. induction result as [|n result IH]; intros d.
  - exists []. simpl. by rewrite app_nil_r.
  - simpl. unfold newLxdContainer.
    destruct (env_new_err E d n) as [err|].
    { exists [WLoadFailed]. by rewrite blocks_cons, blocks_nil_r. }
    simpl.
    destruct (env_is_ephemeral E (emit (EvNew n true) d) n).
    + destruct (env_is_running E
                  (emit (EvIsEphemeral n true) (emit (EvNew n true) d)) n);
        match goal with
        | |- context [containersWatch_loop E result ?d1] =>
            destruct (IH d1) as (os & Ht)
        end.
      * exists (WWatched :: os). rewrite Ht, blocks_cons. simpl.
        by rewrite <- !app_assoc.
      * exists (WNotRunning :: os). rewrite Ht, blocks_cons. simpl.
        by rewrite <- !app_assoc.
    + match goal with
      | |- context [containersWatch_loop E result ?d1] =>
          destruct (IH d1) as (os & Ht)
      end.
      exists (WNotEphemeral :: os). rewrite Ht, blocks_cons. simpl.
      by rewrite <- !app_assoc.
Qed.





Lemma containersWatch_shape (d : Daemon) :
  exists okq names os,
    trace (containersWatch E d).1
      = trace d ++ EvQuery (QNames cTypeRegular) okq
                :: blocks watch_block names os.
Proof.
  unfold containersWatch, dbQueryScan_names.
  destruct (env_query_err E d (QNames cTypeRegular)).
  - by exists false, [], [].
  - match goal with
    | |- context [containersWatch_loop E ?names ?d1] =>
        destruct (containersWatch_loop_shape names d1) as (os & Ht);
        exists true, names, os
    end.
    rewrite Ht. simpl. by rewrite <- app_assoc.
Qed.




End WatchFacts.

Section WatchAndCleanupExamples.
Import Lifecycle Shapes Scenarios.

(** [web1] is still in the store when its watcher looks: it is deleted. *)
Lemma watcher_deletes_present_instance :
  trace (ephemeral_watcher env_ephemeral (mkContainer "web1") daemon0)
    = [EvLXContainerGet "web1" true;
       EvLxcWait "web1" STOPPED (-1000000000) true;
       EvLxcWait "web1" RUNNING 1000000000 true;
       EvLxcWait "web1" STOPPED (-1000000000) true;
       EvIDGet "web1" true; EvDelete "web1" true].
Proof. reflexivity. Qed.

(** [web1] was deleted by another path during the last wait: the watcher
    finds no row and deletes nothing. *)
Lemma watcher_skips_deleted_instance :
  trace (ephemeral_watcher env_deleted_meanwhile (mkContainer "web1") daemon0)
    = [EvLXContainerGet "web1" true;
       EvLxcWait "web1" STOPPED (-1000000000) true;
       EvLxcWait "web1" RUNNING 1000000000 true;
       EvLxcWait "web1" STOPPED (-1000000000) true;
       EvIDGet "web1" false].
Proof. reflexivity. Qed.


Lemma cleanup_trace_delete_fails :
  trace (containerDeleteSnapshots env_delete_fails "web1" daemon0).1
    = [EvQuery (QSnapshots cTypeSnapshot 5 "web1/") true;
       EvDetect "/var/lib/lxd/containers/web1" true;
       EvBtrfsDeleteSubvol "/var/lib/lxd/snapshots/web1/daily" true;
       EvRemoveAll "/var/lib/lxd/snapshots/web1/daily" true;
       EvBtrfsDeleteSubvol "/var/lib/lxd/snapshots/web1/weekly" true;
       EvRemoveAll "/var/lib/lxd/snapshots/web1/weekly" true;
       EvExec (DeleteById 4) true; EvExec (DeleteById 5) false].
Proof. reflexivity. Qed.

(** The instance [café] has the snapshot [café/daily]. Go's [len] of the
    prefix [café/] is 6, its number of bytes, and the first 6 characters of
    [café/daily] are [café/d]: the query selects nothing, and the cleanup
    returns nil having attempted no removal and deleted no row. *)
Lemma containerDeleteSnapshots_misses_multibyte_name :
  len "café/" = 6 /\
  sql_substr1 6 "café/daily" = "café/d" /\
  containerDeleteSnapshots env_healthy "café" MoreScenarios.daemon_cafe
    = (mkDaemon MoreScenarios.rows_cafe (fs MoreScenarios.daemon_cafe)
         [EvQuery (QSnapshots cTypeSnapshot 6 "café/") true;
          EvDetect "/var/lib/lxd/containers/café" true],
       None) /\
  ~ Stated.cleanup_reaches_every_snapshot env_healthy "café"
      MoreScenarios.daemon_cafe.
Proof.
  split; [reflexivity|]. split; [reflexivity|].
  assert (Hrun :
    containerDeleteSnapshots env_healthy "café" MoreScenarios.daemon_cafe
      = (mkDaemon MoreScenarios.rows_cafe (fs MoreScenarios.daemon_cafe)
           [EvQuery (QSnapshots cTypeSnapshot 6 "café/") true;
            EvDetect "/var/lib/lxd/containers/café" true],
         None)) by reflexivity.
  split; [exact Hrun|].
  intros H.
  destruct (H (mkRow 2 "café/daily" cTypeSnapshot 0)) as [ok Hin].
  - apply list_elem_of_further, list_elem_of_here.
  - reflexivity.
  - reflexivity.
  - rewrite Hrun in Hin. simpl in Hin.
    rewrite !elem_of_cons, elem_of_nil in Hin.
    destruct Hin as [Hin|[Hin|[]]]; discriminate Hin.
Qed.

(** C4 on the store [rows0]: the delete of the second snapshot of [web1]
    fails in a first run and a second run completes the cleanup. *)
Lemma containerDeleteSnapshots_storage_before_rows_witness :
  let d1 := (containerDeleteSnapshots env_delete_fails "web1" daemon0).1 in
  let d2 := (containerDeleteSnapshots env_healthy "web1" d1).1 in
  (exists ok,
     EvRemoveAll "/var/lib/lxd/snapshots/web1/daily" ok
       ∈ [EvQuery (QSnapshots cTypeSnapshot 5 "web1/") true;
          EvDetect "/var/lib/lxd/containers/web1" true;
          EvBtrfsDeleteSubvol "/var/lib/lxd/snapshots/web1/daily" true;
          EvRemoveAll "/var/lib/lxd/snapshots/web1/daily" true;
          EvBtrfsDeleteSubvol "/var/lib/lxd/snapshots/web1/weekly" true;
          EvRemoveAll "/var/lib/lxd/snapshots/web1/weekly" true]) /\
  (exists r, r ∈ select (snapshot_query env_delete_fails "web1") rows0 /\
             r ∈ db d1) /\
  (containerDeleteSnapshots env_healthy "web1" d1).2 = None /\
  select (snapshot_query env_delete_fails "web1") (db d2) = [].
Proof.
  intros d1 d2.
  destruct (containerDeleteSnapshots_storage_before_rows "web1")
    as (_ & Hall & Hord & Hretry).
  split.
  - destruct (Hord env_delete_fails daemon0
                [EvQuery (QSnapshots cTypeSnapshot 5 "web1/") true;
                 EvDetect "/var/lib/lxd/containers/web1" true;
                 EvBtrfsDeleteSubvol "/var/lib/lxd/snapshots/web1/daily" true;
                 EvRemoveAll "/var/lib/lxd/snapshots/web1/daily" true;
                 EvBtrfsDeleteSubvol "/var/lib/lxd/snapshots/web1/weekly" true;
                 EvRemoveAll "/var/lib/lxd/snapshots/web1/weekly" true]
                (DeleteById 4) true [EvExec (DeleteById 5) false]
                eq_refl) as [_ Hrem].
    apply (Hrem (mkRow 4 "web1/daily" cTypeSnapshot 0)).
    apply (Hall env_delete_fails rows0); [reflexivity | | reflexivity..].
    do 3 apply list_elem_of_further. apply list_elem_of_here.
  - destruct (Hretry env_delete_fails env_healthy daemon0
                (ErrMsg "database is locked"))
      as (_ & Hrow & Hnone & Hsel & _).
    + reflexivity.
    + reflexivity.
    + intros ? ?. reflexivity.
    + intros ? ?. exact I.
    + intros ? ?. reflexivity.
    + apply (bool_decide_unpack _). vm_compute. exact I.
    + reflexivity.
    + intros ? ?. reflexivity.
    + intros ? ?. exact I.
    + intros ? ?. reflexivity.
    + split; [exact Hrow|]. split; [exact Hnone | exact Hsel].
Defined.

End WatchAndCleanupExamples.

(** * The connection barrier of the exec session *)

Section ExecFacts.
Import Exec.
Variable controlFd : Z.

Lemma find_fd_Some (secrets : gmap Z string) (secret : string) (fd : Z) :
  find_fd secrets secret = Some fd -> secrets !! fd = Some secret.
Proof.
  unfold find_fd.
  destruct (List.find (fun p => bool_decide (p.2 = secret))
              (map_to_list secrets)) as [[fd' sec]|] eqn:Hf; [|discriminate].
  simpl. intros [= ->]. apply find_some in Hf as [Hin Hsec].
  apply bool_decide_eq_true in Hsec. simpl in Hsec. subst sec.
  by apply list_elem_of_In, elem_of_map_to_list in Hin.
Qed.

Lemma all_conns_set_true (m : gmap Z (option Conn)) :
  all_conns_set m = true ->
  forall fd oc, m !! fd = Some oc -> is_Some oc.
Proof.
  unfold all_conns_set. rewrite forallb_forall. intros H fd oc Hl.
  apply elem_of_map_to_list, list_elem_of_In in Hl.
  apply H in Hl. by apply bool_decide_eq_true in Hl.
Qed.

Lemma all_conns_set_false (m : gmap Z (option Conn)) :
  all_conns_set m = false -> exists fd, m !! fd = Some None.
Proof.
  unfold all_conns_set. intros H.
  assert (Hex : existsb (fun p : Z * option Conn =>
                           negb (bool_decide (is_Some p.2)))
                  (map_to_list m) = true).
  { revert H. induction (map_to_list m) as [|p l IH]; simpl; [done|].
    destruct (bool_decide (is_Some p.2)); simpl; [exact IH | done]. }
  apply existsb_exists in Hex as ([fd oc] & Hin & Hno).
  apply list_elem_of_In, elem_of_map_to_list in Hin.
  apply negb_true_iff, bool_decide_eq_false in Hno. simpl in Hno.
  exists fd. destruct oc as [c|]; [|done].
  exfalso. apply Hno. by eexists.
Qed.

Lemma new_session_inv (inter : bool) (secrets : gmap Z string) :
  session_inv (new_session inter secrets).
Proof.
  split; simpl; try done.
  - apply dom_fmap_L.
  - destruct (map_choose_or_empty secrets) as [(fd & sec & Hfd)| ->].
    + right. left. exists fd. by rewrite lookup_fmap, Hfd.
    + right. right. apply fmap_empty.
Qed.

Lemma Connect_inv (secret : string) (c : Conn) (s : execWs) :
  session_inv s -> session_inv (Connect controlFd secret c s).1.
Proof.
  intros Hs. unfold Connect.
  destruct (find_fd (fds s) secret) as [fd|] eqn:Hfd; [|exact Hs].
  destruct Hs as [Hdom Hbar Hrel Hlive].
  apply find_fd_Some in Hfd.
  assert (Hin : fd ∈ dom (conns s)).
  { rewrite Hdom. apply elem_of_dom. by eexists. }
  split; simpl.
  - rewrite dom_insert_L, <- Hdom. apply subseteq_union_1_L.
    by apply singleton_subseteq_l.
  - intros Hall fd' Hfd'. unfold connected. simpl.
    destruct (decide (fd' = fd)) as [->|Hne].
    { exists c. by rewrite lookup_insert_eq. }
    rewrite lookup_insert_ne by done.
    apply orb_true_iff in Hall as [Hold|Hset].
    + by apply Hbar.
    + assert (Hd : fd' ∈ dom (conns s)) by by rewrite Hdom.
      apply elem_of_dom in Hd as [oc Hoc].
      destruct (all_conns_set_true _ Hset fd' oc) as [c' ->].
      { by rewrite lookup_insert_ne. }
      by exists c'.
  - intros Hr. rewrite (Hrel Hr). done.
  - destruct (allConnected s); [by left|]. simpl.
    destruct (all_conns_set (<[fd:=Some c]> (conns s))) eqn:Hset;
      [by left|].
    right. left. by apply all_conns_set_false.
Qed.

Lemma relay_inv (fd b : Z) (s : execWs) :
  session_inv s -> session_inv (relay fd b s).
Proof.
  intros Hs. unfold relay.
  destruct (allConnected s) eqn:Hall; [|exact Hs].
  destruct Hs as [Hdom Hbar Hrel Hlive].
  split; simpl; rewrite ?Hall; try done.
  - intros _. exact (Hbar Hall).
  - by left.
Qed.

Lemma run_snoc (ops : list Op) (o : Op) (s : execWs) :
  run controlFd (ops ++ [o]) s = apply controlFd (run controlFd ops s) o.
Proof. unfold run. by rewrite fold_left_app. Qed.

Lemma run_inv (ops : list Op) (s : execWs) :
  session_inv s -> session_inv (run controlFd ops s).
Proof.
  revert s. induction ops as [|o ops IH]; intros s Hs; [done|].
  simpl. apply IH. destruct o; simpl.
  - by apply Connect_inv.
  - by apply relay_inv.
Qed.

Lemma run_fds (ops : list Op) (s : execWs) :
  fds (run controlFd ops s) = fds s.
Proof.
  revert s. induction ops as [|o ops IH]; intros s; [done|].
  simpl. rewrite IH. destruct o; simpl.
  - unfold Connect. by destruct (find_fd (fds s) secret).
  - unfold relay. by destruct (allConnected s).
Qed.

(** C9: in a session whose required channels are those of [secrets], at
    any moment at which some required channel has not connected no byte
    has been relayed on any channel, and a relay worker passes a byte only
    in a state in which every required channel has connected; once every
    channel of a non-empty set has connected the relay is released. *)
Theorem no_relay_before_all_connected (inter : bool)
    (secrets : gmap Z string) (ops : list Op) :
  let s := run controlFd ops (new_session inter secrets) in
  dom (fds s) = dom secrets /\
  (~ every_channel_connected s -> relayed s = []) /\
  (forall fd b,
     relayed (run controlFd (ops ++ [OpRelay fd b])
                (new_session inter secrets)) <> relayed s ->
     every_channel_connected s) /\
  (forall ch x, (ch, x) ∈ relayed s -> every_channel_connected s) /\
  (secrets <> ∅ -> every_channel_connected s -> allConnected s = true).
Proof.
  intros s.
  pose proof (run_inv ops _ (new_session_inv inter secrets))
    as [Hdom Hbar Hrel Hlive].
  fold s in Hdom, Hbar, Hrel, Hlive.
  split; [unfold s; by rewrite run_fds|].
  split.
  { intros Hnot. destruct (relayed s) as [|p l] eqn:Hr; [done|].
    exfalso. apply Hnot, Hbar, Hrel. done. }
  split.
  { intros fd b Hchg. rewrite run_snoc in Hchg. fold s in Hchg.
    simpl in Hchg. unfold relay in Hchg.
    destruct (allConnected s) eqn:Hall; [by apply Hbar | done]. }
  split.
  { intros ch x Hin. apply Hbar, Hrel.
    intros Hnil. rewrite Hnil in Hin. by apply elem_of_nil in Hin. }
  intros Hne Hall.
  destruct Hlive as [H|[(fd & Hfd)|Hempty]]; [done| |].
  - assert (Hd : fd ∈ dom (fds s)).
    { rewrite <- Hdom. apply elem_of_dom. by eexists. }
    destruct (Hall fd Hd) as [c Hc]. rewrite Hfd in Hc. discriminate Hc.
  - exfalso. apply Hne. apply dom_empty_inv_L.
    unfold s in Hdom. rewrite run_fds in Hdom. simpl in Hdom.
    rewrite <- Hdom. fold s. rewrite Hempty. apply dom_empty_L.
Qed.

End ExecFacts.

(** C9 on a session with the control channel and three data channels: the
    byte offered while [s-stderr] is not connected does not pass, the one
    offered afterwards does. *)
Lemma no_relay_before_all_connected_witness :
  let s := Exec.run (-1) Scenarios.exec_ops
             (Exec.new_session false Scenarios.exec_secrets) in
  Exec.relayed s = [(0, 105)] /\
  Exec.every_channel_connected s /\
  Exec.allConnected s = true.
Proof.
  intros s.
  assert (Hr : Exec.relayed s = [(0, 105)]) by (vm_compute; reflexivity).
  destruct (no_relay_before_all_connected (-1) false Scenarios.exec_secrets
              Scenarios.exec_ops) as (_ & _ & _ & Hin & Hrel).
  fold s in Hin, Hrel.
  assert (Hall : Exec.every_channel_connected s).
  { apply (Hin 0 105). rewrite Hr. apply list_elem_of_here. }
  split; [exact Hr|]. split; [exact Hall|].
  apply Hrel; [|exact Hall].
  intros Hempty.
  assert (Hl : Scenarios.exec_secrets !! 0 = Some "s-stdin")
    by (vm_compute; reflexivity).
  rewrite Hempty in Hl. discriminate Hl.
Defined.

(** * Further properties of the migration descriptor translator *)

Section TranslatorExtras.
Import GoTime Migration.

Lemma translator_dates (delim project cname : string) (snap : Snapshot) :
  args_CreationDate (snapshotProtobufToInstanceArgs delim project cname snap)
    = (if bool_decide (GetCreationDate snap = 0) then zeroTime
       else Unix (GetCreationDate snap) 0) /\
  args_LastUsedDate (snapshotProtobufToInstanceArgs delim project cname snap)
    = (if bool_decide (GetLastUsedDate snap = 0) then zeroTime
       else Unix (GetLastUsedDate snap) 0).
Proof.
  unfold snapshotProtobufToInstanceArgs.
  destruct (decide (GetCreationDate snap = 0)) as [Hc|Hc];
    destruct (decide (GetLastUsedDate snap = 0)) as [Hl|Hl];
    repeat first
      [ rewrite (bool_decide_eq_true_2 (GetCreationDate snap = 0)) by done
      | rewrite (bool_decide_eq_false_2 (GetCreationDate snap = 0)) by done
      | rewrite (bool_decide_eq_true_2 (GetLastUsedDate snap = 0)) by done
      | rewrite (bool_decide_eq_false_2 (GetLastUsedDate snap = 0)) by done
      | rewrite (bool_decide_eq_true_2 (GetCreationDate snap ≠ 0)) by done
      | rewrite (bool_decide_eq_false_2 (GetCreationDate snap ≠ 0)) by tauto
      | rewrite (bool_decide_eq_true_2 (GetLastUsedDate snap ≠ 0)) by done
      | rewrite (bool_decide_eq_false_2 (GetLastUsedDate snap ≠ 0)) by tauto ];
    done.
Qed.

Lemma translator_maps (delim project cname : string) (snap : Snapshot) :
  args_Config (snapshotProtobufToInstanceArgs delim project cname snap)
    = collect_config (LocalConfig snap) ∅ /\
  args_Devices (snapshotProtobufToInstanceArgs delim project cname snap)
    = collect_devices (LocalDevices snap) ∅ /\
  args_Name (snapshotProtobufToInstanceArgs delim project cname snap)
    = (cname +:+ delim +:+ Snapshot_GetName snap)%string.
Proof.
  unfold snapshotProtobufToInstanceArgs.
  destruct (bool_decide (GetCreationDate snap ≠ 0));
    destruct (bool_decide (GetLastUsedDate snap ≠ 0)); done.
Qed.

Lemma wrap64_zero_iff (z : Z) :
  - 2 ^ 63 <= z < 2 ^ 64 -> (wrap64 z = 0 <-> z = 0).
Proof.
  unfold wrap64. change (2 ^ 63) with 9223372036854775808.
  change (2 ^ 64) with 18446744073709551616.
  intros Hz. split; [|intros ->; reflexivity].
  Z.to_euclidean_division_equations. lia.
Qed.

Lemma Time_Unix_epoch_second (v : Z) :
  int64 v ->
  Time_Unix (if bool_decide (v = 0) then zeroTime else Unix v 0)
    = (if bool_decide (v = 0) then -62135596800 else v).
Proof.
  intros Hv. case_bool_decide; [reflexivity|]. by apply Time_Unix_of_Unix.
Qed.

Lemma IsZero_epoch_second (v : Z) :
  int64 v ->
  IsZero (if bool_decide (v = 0) then zeroTime else Unix v 0) = true
  <-> v = 0 \/ v = -62135596800.
Proof.
  intros Hv. case_bool_decide as H0.
  { split; [by left | reflexivity]. }
  unfold Unix. rewrite bool_decide_eq_false_2 by lia.
  unfold IsZero, unixTime. simpl.
  rewrite andb_true_iff, !bool_decide_eq_true.
  assert (Hr : - 2 ^ 63 <= v + unixToInternal < 2 ^ 64).
  { unfold int64 in Hv. change unixToInternal with 62135596800.
    change (2 ^ 63) with 9223372036854775808 in *.
    change (2 ^ 64) with 18446744073709551616. lia. }
  rewrite (wrap64_zero_iff _ Hr). change unixToInternal with 62135596800.
  split.
  - intros [Hz _]. right. lia.
  - intros [Hz|Hz]; [done|]. split; [lia | reflexivity].
Qed.

(** X1: what [t.Unix()] reads back from the record's timestamps, for
    descriptor values in the range of [int64]: the descriptor's epoch second
    when it is not 0, and -62135596800 (January 1 of year 1), not 0, for a
    timestamp left unset. *)
Theorem translator_timestamps_read_back
    (delim project cname : string) (snap : Snapshot) :
  int64 (GetCreationDate snap) -> int64 (GetLastUsedDate snap) ->
  let args := snapshotProtobufToInstanceArgs delim project cname snap in
  Time_Unix (args_CreationDate args)
    = (if bool_decide (GetCreationDate snap = 0) then -62135596800
       else GetCreationDate snap) /\
  Time_Unix (args_LastUsedDate args)
    = (if bool_decide (GetLastUsedDate snap = 0) then -62135596800
       else GetLastUsedDate snap).
Proof.
  intros Hc Hl args. subst args.
  destruct (translator_dates delim project cname snap) as [-> ->].
  split; by apply Time_Unix_epoch_second.
Qed.

Lemma translator_timestamps_read_back_witness :
  Time_Unix (args_CreationDate
               (snapshotProtobufToInstanceArgs "/" "default" "web1"
                  Scenarios.snap_daily)) = 1700000000 /\
  Time_Unix (args_LastUsedDate
               (snapshotProtobufToInstanceArgs "/" "default" "web1"
                  Scenarios.snap_daily)) = -62135596800.
Proof.
  apply (translator_timestamps_read_back "/" "default" "web1"
           Scenarios.snap_daily); unfold int64; simpl; lia.
Defined.

(** X2: [IsZero] holds of the record's creation timestamp exactly when the
    descriptor's creation date is 0 or -62135596800: the translation of the
    latter is an assigned timestamp that still reads as unset. The same
    holds of the last-used timestamp. *)
Theorem translator_timestamps_IsZero
    (delim project cname : string) (snap : Snapshot) :
  int64 (GetCreationDate snap) -> int64 (GetLastUsedDate snap) ->
  let args := snapshotProtobufToInstanceArgs delim project cname snap in
  (IsZero (args_CreationDate args) = true
   <-> GetCreationDate snap = 0 \/ GetCreationDate snap = -62135596800) /\
  (IsZero (args_LastUsedDate args) = true
   <-> GetLastUsedDate snap = 0 \/ GetLastUsedDate snap = -62135596800).
Proof.
  intros Hc Hl args. subst args.
  destruct (translator_dates delim project cname snap) as [-> ->].
  split; by apply IsZero_epoch_second.
Qed.

Lemma translator_timestamps_IsZero_witness :
  IsZero (args_CreationDate
            (snapshotProtobufToInstanceArgs "/" "default" "web1"
               Scenarios.snap_daily)) = false /\
  IsZero (args_LastUsedDate
            (snapshotProtobufToInstanceArgs "/" "default" "web1"
               Scenarios.snap_daily)) = true.
Proof.
  destruct (translator_timestamps_IsZero "/" "default" "web1"
              Scenarios.snap_daily) as [Hc Hl];
    [unfold int64; simpl; lia | unfold int64; simpl; lia |].
  split.
  - apply not_true_is_false. intros H. apply Hc in H.
    simpl in H. destruct H as [H|H]; discriminate H.
  - apply Hl. by left.
Defined.

Lemma last_entry_all_other {A : Type} (key : A -> string) (k : string)
    (l : list A) :
  (forall e, e ∈ l -> key e ≠ k) -> last_entry key k l = None.
Proof.
  intros Hall. destruct (last_entry key k l) as [e|] eqn:Hl; [|done].
  apply last_entry_Some in Hl as [Hin Hk]. by destruct (Hall e Hin).
Qed.

Lemma last_entry_Permutation {A : Type} (key : A -> string) (k : string)
    (l l' : list A) :
  NoDup (key <$> l) -> l ≡ₚ l' -> last_entry key k l = last_entry key k l'.
Proof.
  intros Hnd Hp.
  assert (Hnd' : NoDup (key <$> l')) by by rewrite <- Hp.
  destruct (last_entry key k l) as [e|] eqn:Hl.
  - apply last_entry_Some in Hl as [Hin <-]. symmetry.
    apply last_entry_NoDup; [done|]. by rewrite <- Hp.
  - symmetry. apply last_entry_all_other. intros e He.
    apply (last_entry_None key k l Hl). by rewrite Hp.
Qed.

(** X3: when the configuration keys of a descriptor are pairwise distinct
    the order of its configuration entries does not matter, and when its
    device names are pairwise distinct the order of its device entries does
    not matter: a descriptor with the entries permuted gives the same
    mappings. *)
Theorem translator_entry_order_irrelevant
    (delim project cname : string) (snap snap' : Snapshot) :
  (NoDup (GetKey <$> LocalConfig snap) ->
   LocalConfig snap ≡ₚ LocalConfig snap' ->
   args_Config (snapshotProtobufToInstanceArgs delim project cname snap)
     = args_Config (snapshotProtobufToInstanceArgs delim project cname snap'))
  /\
  (NoDup (GetName <$> LocalDevices snap) ->
   LocalDevices snap ≡ₚ LocalDevices snap' ->
   args_Devices (snapshotProtobufToInstanceArgs delim project cname snap)
     = args_Devices (snapshotProtobufToInstanceArgs delim project cname snap')).
Proof.
  destruct (translator_maps delim project cname snap) as (-> & -> & _).
  destruct (translator_maps delim project cname snap') as (-> & -> & _).
  split; intros Hnd Hp; apply map_eq; intros k.
  - rewrite !collect_config_lookup.
    by rewrite (last_entry_Permutation GetKey k _ _ Hnd Hp).
  - rewrite !collect_devices_lookup.
    by rewrite (last_entry_Permutation GetName k _ _ Hnd Hp).
Qed.

Lemma translator_entry_order_irrelevant_witness :
  args_Config (snapshotProtobufToInstanceArgs "/" "default" "web1"
                 Scenarios.snap_daily)
    = args_Config (snapshotProtobufToInstanceArgs "/" "default" "web1"
                     MoreScenarios.snap_daily_reordered) /\
  args_Devices (snapshotProtobufToInstanceArgs "/" "default" "web1"
                  Scenarios.snap_daily)
    = args_Devices (snapshotProtobufToInstanceArgs "/" "default" "web1"
                      MoreScenarios.snap_daily_reordered).
Proof.
  destruct (translator_entry_order_irrelevant "/" "default" "web1"
              Scenarios.snap_daily MoreScenarios.snap_daily_reordered)
    as [Hc Hd].
  split.
  - apply Hc.
    + apply (bool_decide_unpack _). vm_compute. exact I.
    + apply Permutation_swap.
  - apply Hd.
    + apply (bool_decide_unpack _). vm_compute. exact I.
    + apply Permutation_swap.
Defined.

Lemma append_cancel_l (p a b : string) :
  (p +:+ a = p +:+ b)%string -> a = b.
Proof.
  induction p as [|c p IH]; simpl; [done|]. intros [= H]. by apply IH.
Qed.

Lemma append_length (a b : string) :
  String.length (a +:+ b) = (String.length a + String.length b)%nat.
Proof. induction a as [|c a IH]; simpl; [done|]. by rewrite IH. Qed.

Lemma append_cancel_r (a b t : string) :
  (a +:+ t = b +:+ t)%string -> a = b.
Proof.
  revert b. induction a as [|c a IH]; intros [|c' b] H; simpl in H.
  - done.
  - apply (f_equal String.length) in H.
    rewrite ?append_length in H. simpl in H.
    rewrite ?append_length in H. lia.
  - apply (f_equal String.length) in H.
    rewrite ?append_length in H. simpl in H.
    rewrite ?append_length in H. lia.
  - injection H as -> H. by rewrite (IH b H).
Qed.

(** X4: instance names do not collide within a parent or across parents:
    two descriptors translated for the same parent with the same delimiter
    get the same name only when their snapshot names are equal, and one
    snapshot name translated for two parents gives the same name only when
    the parents are equal. *)
Theorem translator_names_distinct
    (delim project project' : string) (snap snap' : Snapshot) :
  (forall cname,
     args_Name (snapshotProtobufToInstanceArgs delim project cname snap)
       = args_Name (snapshotProtobufToInstanceArgs delim project' cname snap')
     -> Snapshot_GetName snap = Snapshot_GetName snap') /\
  (forall cname cname',
     Snapshot_GetName snap = Snapshot_GetName snap' ->
     args_Name (snapshotProtobufToInstanceArgs delim project cname snap)
       = args_Name (snapshotProtobufToInstanceArgs delim project' cname' snap')
     -> cname = cname').
Proof.
  split.
  - intros cname.
    destruct (translator_maps delim project cname snap) as (_ & _ & ->).
    destruct (translator_maps delim project' cname snap') as (_ & _ & ->).
    intros H. by apply append_cancel_l, append_cancel_l in H.
  - intros cname cname' Hn.
    destruct (translator_maps delim project cname snap) as (_ & _ & ->).
    destruct (translator_maps delim project' cname' snap') as (_ & _ & ->).
    rewrite Hn. intros H. by apply append_cancel_r in H.
Qed.

Lemma translator_names_distinct_witness :
  args_Name (snapshotProtobufToInstanceArgs "/" "default" "web1"
               Scenarios.snap_daily)
    = args_Name (snapshotProtobufToInstanceArgs "/" "other" "web1"
                   MoreScenarios.snap_daily_reordered) /\
  Snapshot_GetName Scenarios.snap_daily
    = Snapshot_GetName MoreScenarios.snap_daily_reordered.
Proof.
  split; [reflexivity|].
  destruct (translator_names_distinct "/" "default" "other"
              Scenarios.snap_daily MoreScenarios.snap_daily_reordered)
    as [Hs _].
  apply (Hs "web1"). reflexivity.
Defined.

(** X5: when the characters of the instance name and of the delimiter are
    single bytes (ASCII names are of this kind), a snapshot row that carries
    the name the translator builds for parent [cname] is selected by the
    cleanup query of [cname], both using the same delimiter: what migration
    creates for such an instance, the snapshot cleanup of that instance
    finds. *)
Theorem translated_snapshot_found_by_cleanup
    (E : Lifecycle.Env) (project cname : string) (snap : Snapshot)
    (id ps : Z) (rows : list Lifecycle.Row) :
  let name :=
    args_Name (snapshotProtobufToInstanceArgs (Lifecycle.SnapshotDelimiter E)
                 project cname snap) in
  Lifecycle.one_byte_chars (cname +:+ Lifecycle.SnapshotDelimiter E) = true ->
  Lifecycle.mkRow id name Lifecycle.cTypeSnapshot ps ∈ rows ->
  Lifecycle.mkRow id name Lifecycle.cTypeSnapshot ps
    ∈ Lifecycle.select (Lifecycle.snapshot_query E cname) rows.
Proof.
  intros name Hone Hin.
  apply select_snapshots_one_byte; [done | done | done |].
  simpl. subst name.
  destruct (translator_maps (Lifecycle.SnapshotDelimiter E) project cname snap)
    as (_ & _ & ->).
  rewrite append_assoc_r. apply prefix_append.
Qed.

Lemma translated_snapshot_found_by_cleanup_witness :
  Lifecycle.one_byte_chars "web1/" = true /\
  Lifecycle.mkRow 4 "web1/daily" Lifecycle.cTypeSnapshot 0
    ∈ Lifecycle.select
        (Lifecycle.snapshot_query Scenarios.env_healthy "web1")
        Scenarios.rows0.
Proof.
  split; [reflexivity|].
  apply (translated_snapshot_found_by_cleanup Scenarios.env_healthy
           "default" "web1" Scenarios.snap_daily 4 0 Scenarios.rows0).
  - reflexivity.
  - do 3 apply list_elem_of_further. apply list_elem_of_here.
Defined.

End TranslatorExtras.

(** * Further properties of [containersWatch] *)

Section WatchExtras.
Import Lifecycle Shapes MoreShapes.
Variable E : Env.

Lemma containersWatch_loop_full (result : list string) (d : Daemon) :
  exists os,
    trace (containersWatch_loop E result d).1
      = trace d ++ blocks watch_block result os /\
    db (containersWatch_loop E result d).1 = db d /\
    fs (containersWatch_loop E result d).1 = fs d /\
    batch_result watch_aborts result os (containersWatch_loop E result d).2.
Proof.
  revert d. induction result as [|n result IH]; intros d.
  - exists []. simpl. rewrite app_nil_r.
    split; [done|]. split; [done|]. split; [done|]. apply batch_result_nil.
  - simpl. unfold newLxdContainer.
    destruct (env_new_err E d n) as [err|].
    { exists [WLoadFailed]. simpl. rewrite blocks_cons, blocks_nil_r.
      split; [done|]. split; [done|]. split; [done|].
      by apply batch_result_abort. }
    simpl.
    destruct (env_is_ephemeral E (emit (EvNew n true) d) n).
    + destruct (env_is_running E
                  (emit (EvIsEphemeral n true) (emit (EvNew n true) d)) n);
        match goal with
        | |- context [containersWatch_loop E result ?d1] =>
            destruct (IH d1) as (os & Ht & Hd & Hf & Hr)
        end.
      * exists (WWatched :: os). rewrite Ht, Hd, Hf, blocks_cons. simpl.
        split; [by rewrite <- !app_assoc|]. split; [done|]. split; [done|].
        by apply batch_result_cons.
      * exists (WNotRunning :: os). rewrite Ht, Hd, Hf, blocks_cons. simpl.
        split; [by rewrite <- !app_assoc|]. split; [done|]. split; [done|].
        by apply batch_result_cons.
    + match goal with
      | |- context [containersWatch_loop E result ?d1] =>
          destruct (IH d1) as (os & Ht & Hd & Hf & Hr)
      end.
      exists (WNotEphemeral :: os). rewrite Ht, Hd, Hf, blocks_cons. simpl.
      split; [by rewrite <- !app_assoc|]. split; [done|]. split; [done|].
      by apply batch_result_cons.
Qed.

Lemma watch_blocks_events (names : list string) (os : list WatchOutcome)
    (e : Event) :
  e ∈ blocks watch_block names os ->
  exists n b, n ∈ names /\
    (e = EvNew n b \/ e = EvIsEphemeral n b \/ e = EvIsRunning n b \/
     e = EvGoWatch n).
Proof.
  revert os. induction names as [|n names IH]; intros os He.
  - by apply elem_of_nil in He.
  - destruct os as [|o os]; [by apply elem_of_nil in He|].
    rewrite blocks_cons in He. apply elem_of_app in He as [He|He].
    + destruct o; simpl in He;
        repeat (apply elem_of_cons in He as [->|He]);
        try (by apply elem_of_nil in He);
        first
          [ exists n, true; split; [apply list_elem_of_here|]; by eauto
          | exists n, false; split; [apply list_elem_of_here|]; by eauto ].
    + destruct (IH os He) as (m & b & Hm & Hev).
      exists m, b. split; [by apply list_elem_of_further | done].
Qed.

(** X6: [containersWatch] only reads: beside its query it loads handles,
    asks them whether the instance is ephemeral and running, and starts
    watchers; it executes no statement, starts, stops or deletes nothing,
    and leaves the store and the storage as they were. *)
Theorem containersWatch_only_reads (d : Daemon) :
  db (containersWatch E d).1 = db d /\
  fs (containersWatch E d).1 = fs d /\
  exists okq evs,
    trace (containersWatch E d).1
      = trace d ++ EvQuery (QNames cTypeRegular) okq :: evs /\
    forall e, e ∈ evs ->
      exists n b, e = EvNew n b \/ e = EvIsEphemeral n b \/
                  e = EvIsRunning n b \/ e = EvGoWatch n.
Proof.
  unfold containersWatch, dbQueryScan_names.
  destruct (env_query_err E d (QNames cTypeRegular)) as [err|].
  - simpl. split; [done|]. split; [done|].
    exists false, []. split; [done|]. intros e He. by apply elem_of_nil in He.
  - match goal with
    | |- context [containersWatch_loop E ?names ?d1] =>
        destruct (containersWatch_loop_full names d1) as (os & Ht & Hd & Hf & _);
        rewrite Ht, Hd, Hf
    end.
    simpl. split; [done|]. split; [done|].
    eexists true, _. split; [by rewrite <- app_assoc|].
    intros e He. apply watch_blocks_events in He as (n & b & _ & He).
    by exists n, b.
Qed.

(** X7: [containersWatch] returns an error exactly when its query fails or
    a handle cannot be loaded. When the query fails no instance is looked
    at; when a load fails that instance is the last one looked at, so the
    regular instances after it in the store get no watcher; otherwise every
    regular instance is looked at once, in the order of the store. *)
Theorem containersWatch_errors (d : Daemon) :
  let q := QNames cTypeRegular in
  (forall err, env_query_err E d q = Some err ->
     containersWatch E d = (emit (EvQuery q false) d, Some err)) /\
  (env_query_err E d q = None ->
   exists os,
     trace (containersWatch E d).1
       = trace d ++ EvQuery q true
                 :: blocks watch_block (row_name <$> select q (db d)) os /\
     batch_result watch_aborts (row_name <$> select q (db d)) os
       (containersWatch E d).2).
Proof.
  intros q. unfold containersWatch, dbQueryScan_names. fold q. split.
  - intros err Hq. by rewrite Hq.
  - intros Hq. rewrite Hq.
    match goal with
    | |- context [containersWatch_loop E ?names ?d1] =>
        destruct (containersWatch_loop_full names d1) as (os & Ht & _ & _ & Hr)
    end.
    exists os. rewrite Ht. simpl. split; [by rewrite <- app_assoc | done].
Qed.

Lemma watch_block_IsRunning_any (n m : string) (b : bool) (o : WatchOutcome)
    (b1 b2 : list Event) :
  watch_block n o = b1 ++ EvIsRunning m b :: b2 ->
  m = n /\ b1 = [EvNew n true; EvIsEphemeral n true].
Proof.
  destruct o; intros H; simpl in H;
    repeat (destruct b1 as [|? b1]; simplify_eq/=); eauto.
Qed.

Lemma watch_block_IsEphemeral_false (n m : string) (o : WatchOutcome)
    (b1 b2 : list Event) :
  watch_block n o = b1 ++ EvIsEphemeral m false :: b2 ->
  m = n /\ b1 = [EvNew n true] /\ b2 = [].
Proof.
  destruct o; intros H; simpl in H;
    repeat (destruct b1 as [|? b1]; simplify_eq/=); eauto.
Qed.

Lemma watch_blocks_head (names : list string) (os : list WatchOutcome) :
  blocks watch_block names os = [] \/
  exists m ok l, blocks watch_block names os = EvNew m ok :: l.
Proof.
  destruct names as [|n names]; [by left|].
  destruct os as [|o os]; [by left|].
  right. rewrite blocks_cons. destruct o; simpl; eauto.
Qed.

(** X8: [containersWatch] asks whether an instance is running only of an
    instance it has just found ephemeral, and after finding an instance not
    ephemeral it goes straight to the next instance. *)
Theorem containersWatch_short_circuit (d : Daemon) (l1 l2 : list Event)
    (m : string) :
  (forall b,
     trace (containersWatch E d).1 = trace d ++ l1 ++ EvIsRunning m b :: l2 ->
     exists l0, l1 = l0 ++ [EvNew m true; EvIsEphemeral m true]) /\
  (trace (containersWatch E d).1
     = trace d ++ l1 ++ EvIsEphemeral m false :: l2 ->
   l2 = [] \/ exists k ok l3, l2 = EvNew k ok :: l3).
Proof.
  destruct (containersWatch_shape E d) as (okq & names & os & Hs).
  rewrite Hs. split.
  - intros b Ht. apply app_inv_head in Ht.
    destruct l1 as [|e l1]; [discriminate Ht|].
    injection Ht as _ Ht.
    apply blocks_split in Ht
      as (ns1 & k & ns2 & os1 & o & os2 & b1 & b2 & _ & _ & Hb & -> & _).
    apply watch_block_IsRunning_any in Hb as (-> & ->).
    by exists (e :: blocks watch_block ns1 os1).
  - intros Ht. apply app_inv_head in Ht.
    destruct l1 as [|e l1]; [discriminate Ht|].
    injection Ht as _ Ht.
    apply blocks_split in Ht
      as (ns1 & k & ns2 & os1 & o & os2 & b1 & b2 & _ & _ & Hb & _ & ->).
    apply watch_block_IsEphemeral_false in Hb as (-> & _ & ->).
    simpl. apply watch_blocks_head.
Qed.

End WatchExtras.

Section WatchExtrasExamples.
Import Lifecycle Shapes MoreShapes Scenarios.

Lemma watch_trace_ephemeral :
  trace (containersWatch env_ephemeral daemon0).1
    = [EvQuery (QNames cTypeRegular) true;
       EvNew "web1" true; EvIsEphemeral "web1" true; EvIsRunning "web1" true;
       EvGoWatch "web1";
       EvNew "web2" true; EvIsEphemeral "web2" false;
       EvNew "idle" true; EvIsEphemeral "idle" false].
Proof. reflexivity. Qed.

Lemma containersWatch_errors_witness :
  containersWatch MoreScenarios.env_query_fails daemon0
    = (emit (EvQuery (QNames cTypeRegular) false) daemon0,
       Some (ErrMsg "database is locked")) /\
  exists os,
    trace (containersWatch env_load_fails daemon0).1
      = EvQuery (QNames cTypeRegular) true
          :: blocks watch_block ["web1"; "web2"; "idle"] os /\
    batch_result watch_aborts ["web1"; "web2"; "idle"] os
      (containersWatch env_load_fails daemon0).2.
Proof.
  split.
  - destruct (containersWatch_errors MoreScenarios.env_query_fails daemon0)
      as [Hq _].
    apply Hq. reflexivity.
  - destruct (containersWatch_errors env_load_fails daemon0) as [_ Hl].
    exact (Hl eq_refl).
Defined.

Lemma containersWatch_short_circuit_witness :
  (exists l0,
     [EvQuery (QNames cTypeRegular) true;
      EvNew "web1" true; EvIsEphemeral "web1" true]
       = l0 ++ [EvNew "web1" true; EvIsEphemeral "web1" true]) /\
  ([EvNew "idle" true; EvIsEphemeral "idle" false] = [] \/
   exists k ok l3,
     [EvNew "idle" true; EvIsEphemeral "idle" false] = EvNew k ok :: l3).
Proof.
  split.
  - destruct (containersWatch_short_circuit env_ephemeral daemon0
                [EvQuery (QNames cTypeRegular) true;
                 EvNew "web1" true; EvIsEphemeral "web1" true]
                [EvGoWatch "web1";
                 EvNew "web2" true; EvIsEphemeral "web2" false;
                 EvNew "idle" true; EvIsEphemeral "idle" false]
                "web1") as [Hr _].
    exact (Hr true eq_refl).
  - destruct (containersWatch_short_circuit env_ephemeral daemon0
                [EvQuery (QNames cTypeRegular) true;
                 EvNew "web1" true; EvIsEphemeral "web1" true;
                 EvIsRunning "web1" true; EvGoWatch "web1";
                 EvNew "web2" true]
                [EvNew "idle" true; EvIsEphemeral "idle" false]
                "web2") as [_ He].
    exact (He eq_refl).
Defined.

End WatchExtrasExamples.

(** * Further properties of restart-all recovery and mass shutdown *)

Section RecoveryExtras.
Import Lifecycle Shapes MoreShapes.

(** When the read of the instances to restart fails, or the statement
    that clears the flags fails, [containersRestart] returns that error at
    once: no instance is loaded or started, and the store is left as it
    was, flags included. *)
Theorem containersRestart_early_failure (E : Env) (d : Daemon) (err : error) :
  let q := QPowered cTypeRegular in
  (env_query_err E d q = Some err ->
   containersRestart E d = (emit (EvQuery q false) d, Some err) /\
   db (containersRestart E d).1 = db d) /\
  (env_query_err E d q = None ->
   env_exec_err E (emit (EvQuery q true) d) ClearPowerState = Some err ->
   containersRestart E d
     = (emit (EvExec ClearPowerState false) (emit (EvQuery q true) d),
        Some err) /\
   db (containersRestart E d).1 = db d).
Proof.
  intros q. unfold containersRestart, dbQueryScan_names, dbExec. fold q.
  split.
  - intros Hq. by rewrite Hq.
  - intros Hq Hx. by rewrite Hq, Hx.
Qed.

Lemma containersRestart_early_failure_witness :
  containersRestart MoreScenarios.env_query_fails Scenarios.daemon0
    = (emit (EvQuery (QPowered cTypeRegular) false) Scenarios.daemon0,
       Some (ErrMsg "database is locked")) /\
  db (containersRestart MoreScenarios.env_query_fails Scenarios.daemon0).1
    = Scenarios.rows0.
Proof.
  destruct (containersRestart_early_failure MoreScenarios.env_query_fails
              Scenarios.daemon0 (ErrMsg "database is locked")) as [Hq _].
  exact (Hq eq_refl).
Defined.

Lemma select_QPowered_cleared (ty : containerType) (rows : list Row) :
  select (QPowered ty) (set_power_state 0 <$> rows) = [].
Proof.
  induction rows as [|r rows IH]; [done|].
  unfold select in *. rewrite fmap_cons.
  change (List.filter (row_matches (QPowered ty))
            (set_power_state 0 r :: (set_power_state 0 <$> rows)))
    with (if row_matches (QPowered ty) (set_power_state 0 r)
          then set_power_state 0 r
                 :: List.filter (row_matches (QPowered ty))
                      (set_power_state 0 <$> rows)
          else List.filter (row_matches (QPowered ty))
                 (set_power_state 0 <$> rows)).
  rewrite IH.
  assert (Hm : row_matches (QPowered ty) (set_power_state 0 r) = false).
  { simpl. apply andb_false_iff. by right. }
  by rewrite Hm.
Qed.

(** X9: restart-all is one-shot. After a pass that got as far as clearing
    the flags (with a start call that leaves the store as it finds it) no
    instance is flagged any more, whether or not the pass went through all
    instances; a further pass therefore loads and starts nothing, also not
    the instances an aborted pass never reached. *)
Theorem containersRestart_second_pass (E1 E2 : Env) (d : Daemon) :
  let q := QPowered cTypeRegular in
  env_query_err E1 d q = None ->
  env_exec_err E1 (emit (EvQuery q true) d) ClearPowerState = None ->
  start_keeps_store E1 ->
  let d1 := (containersRestart E1 d).1 in
  Stated.powered_names d1 = [] /\
  (env_query_err E2 d1 q = None ->
   env_exec_err E2 (emit (EvQuery q true) d1) ClearPowerState = None ->
   trace (containersRestart E2 d1).1
     = trace d1 ++ [EvQuery q true; EvExec ClearPowerState true] /\
   (containersRestart E2 d1).2 = None).
Proof.
  intros q Hq Hx Hk d1.
  assert (Hd1 : db d1 = set_power_state 0 <$> db d).
  { unfold d1. rewrite (containersRestart_run E1 d Hq Hx).
    match goal with
    | |- context [containersRestart_loop E1 ?names ?d0] =>
        destruct (containersRestart_loop_shape E1 names d0)
          as (os & _ & Hd & _ & _)
    end.
    by rewrite (Hd Hk). }
  assert (Hnone : Stated.powered_names d1 = []).
  { unfold Stated.powered_names. by rewrite Hd1, select_QPowered_cleared. }
  split; [exact Hnone|].
  intros Hq2 Hx2. rewrite (containersRestart_run E2 d1 Hq2 Hx2).
  unfold Stated.powered_names in Hnone. subst q. rewrite Hnone. simpl.
  split; [by rewrite <- app_assoc | done].
Qed.

Lemma containersRestart_second_pass_witness :
  Stated.powered_names
    (containersRestart Scenarios.env_load_fails Scenarios.daemon0).1 = [] /\
  trace (containersRestart Scenarios.env_healthy
           (containersRestart Scenarios.env_load_fails Scenarios.daemon0).1).1
    = [EvQuery (QPowered cTypeRegular) true; EvExec ClearPowerState true;
       EvNew "web1" false;
       EvQuery (QPowered cTypeRegular) true; EvExec ClearPowerState true].
Proof.
  destruct (containersRestart_second_pass Scenarios.env_load_fails
              Scenarios.env_healthy Scenarios.daemon0 eq_refl eq_refl
              (fun _ _ => eq_refl)) as [Hn Hp].
  split; [exact Hn|].
  destruct (Hp eq_refl eq_refl) as [Ht _]. exact Ht.
Defined.

Lemma mark_running_fields (U : list string) (r : Row) :
  row_id (mark_running U r) = row_id r /\
  row_name (mark_running U r) = row_name r /\
  row_type (mark_running U r) = row_type r /\
  row_power_state (mark_running U r)
    = (if bool_decide (row_name r ∈ U) then 1 else row_power_state r).
Proof. unfold mark_running. by case_bool_decide. Qed.

(** X10: what mass shutdown flags, restart-all reads. When no instance is
    flagged before a mass shutdown whose listing succeeds, the instances a
    following restart-all pass would read from the store are exactly the
    instances for which a shutdown goroutine was started and that have a
    regular row. *)
Theorem shutdown_then_restart_reads_running (E : Env) (d : Daemon)
    (names : list string) :
  env_list E d = (names, None) ->
  (forall r, r ∈ db d -> row_power_state r = 0) ->
  exists evs,
    trace (containersShutdown E d).1 = trace d ++ EvList true :: evs /\
    forall n,
      n ∈ Stated.powered_names (containersShutdown E d).1 <->
      EvGo n ∈ evs /\
      exists r, r ∈ db d /\ row_name r = n /\ row_type r = cTypeRegular.
Proof.
  intros Hl Hzero.
  destruct (containersShutdown_shape E d names Hl) as (os & Ht & Hd & _ & _).
  exists (blocks shutdown_block names os). split; [done|].
  intros n. unfold Stated.powered_names. rewrite select_QPowered, Hd.
  rewrite <- updated_Go. split.
  - intros (r' & Hin & Hn & Hty & Hp).
    apply list_elem_of_fmap in Hin as (r & -> & Hr).
    destruct (mark_running_fields (updated names os) r)
      as (_ & Hname & Htype & Hpow).
    rewrite Hname in Hn. rewrite Htype in Hty. rewrite Hpow in Hp.
    case_bool_decide as HU.
    + rewrite Hn in HU. split; [done|]. by exists r.
    + rewrite (Hzero r Hr) in Hp. discriminate Hp.
  - intros (HU & r & Hr & Hn & Hty).
    exists (mark_running (updated names os) r).
    destruct (mark_running_fields (updated names os) r)
      as (_ & Hname & Htype & Hpow).
    split; [by apply list_elem_of_fmap_2|].
    rewrite Hname, Htype, Hpow. split; [done|]. split; [done|].
    rewrite bool_decide_eq_true_2; [done|]. by rewrite Hn.
Qed.

Lemma shutdown_then_restart_reads_running_witness :
  exists evs,
    trace (containersShutdown Scenarios.env_idle_stopped
             MoreScenarios.daemon_cleared).1 = EvList true :: evs /\
    forall n,
      n ∈ Stated.powered_names
            (containersShutdown Scenarios.env_idle_stopped
               MoreScenarios.daemon_cleared).1 <->
      EvGo n ∈ evs /\
      exists r, r ∈ MoreScenarios.rows_cleared /\ row_name r = n /\
                row_type r = cTypeRegular.
Proof.
  apply (shutdown_then_restart_reads_running Scenarios.env_idle_stopped
           MoreScenarios.daemon_cleared ["web1"; "web2"; "idle"] eq_refl).
  intros r Hr. apply list_elem_of_fmap in Hr as (r0 & -> & _). reflexivity.
Defined.

Lemma Forall2_mark_running (U : list string) (rows : list Row) :
  Forall2 flag_raised rows (mark_running U <$> rows).
Proof.
  induction rows as [|r rows IH]; [constructor|].
  rewrite fmap_cons. constructor; [|exact IH].
  destruct (mark_running_fields U r) as (Hi & Hn & Ht & Hp).
  unfold flag_raised. rewrite Hi, Hn, Ht, Hp.
  case_bool_decide; auto.
Qed.

(** X11: mass shutdown never removes, adds or reorders rows, never changes
    a row's id, name or type, never lowers a power_state (a flag already at
    1 stays), and never touches the storage, whatever fails. *)
Theorem containersShutdown_frame (E : Env) (d : Daemon) :
  Forall2 flag_raised (db d) (db (containersShutdown E d).1) /\
  fs (containersShutdown E d).1 = fs d.
Proof.
  destruct (env_list E d) as [names [err|]] eqn:Hl.
  - unfold containersShutdown, ListRegularContainers. rewrite Hl. simpl.
    split; [|done].
    rewrite <- (list_fmap_id (db d)) at 2.
    assert (H := Forall2_mark_running [] (db d)).
    replace (mark_running [] <$> db d) with (id <$> db d) in H; [done|].
    apply list_fmap_ext. intros _ r _. unfold mark_running.
    rewrite bool_decide_eq_false_2; [done | apply not_elem_of_nil].
  - destruct (containersShutdown_shape E d names Hl) as (os & _ & Hd & Hf & _).
    rewrite Hd, Hf. split; [apply Forall2_mark_running | done].
Qed.

End RecoveryExtras.

(** * Further properties of snapshot cleanup *)

Section CleanupExtras.
Import Lifecycle Shapes MoreShapes.
Variable E : Env.
Variable cname : string.

Local Abbreviation q := (snapshot_query E cname).
Local Abbreviation cpath := (VarPath E "containers" cname).

Lemma trace_after_detect (d : Daemon) :
  trace (after_detect E cname d)
    = trace d ++ [EvQuery q true;
                  EvDetect cpath
                    (bool_decide
                       ((env_detect E (emit (EvQuery q true) d) cpath).2
                        = None))].
Proof. unfold after_detect. simpl. by rewrite <- app_assoc. Qed.

(** A run that gets past the query and the detection, spelled out. *)
Lemma containerDeleteSnapshots_unfold (d : Daemon) :
  env_query_err E d q = None -> detect_passes E cname d ->
  containerDeleteSnapshots E cname d
    = delete_rows_loop E (row_id <$> select q (db d))
        (remove_storage_loop E
           (env_detect E (emit (EvQuery q true) d) cpath).1
           (snapshot_results E cname d) [] (after_detect E cname d)).1.
Proof.
  intros Hq Hdet. unfold detect_passes in Hdet.
  unfold containerDeleteSnapshots, dbQueryScan_name_id, after_detect,
    snapshot_results. rewrite Hq.
  unfold filesystemDetect.
  destruct (env_detect E (emit (EvQuery q true) d) cpath)
    as [backingFs err] eqn:Hd.
  simpl in Hdet. cbv beta iota zeta. unfold fst, snd.
  set (results := (fun r => (row_name r, row_id r)) <$> select q (db d)).
  set (d1 := emit (EvDetect cpath (bool_decide (err = None)))
               (emit (EvQuery q true) d)).
  destruct (remove_storage_loop_spec E backingFs results [] d1)
    as (sev & _ & Hids & _).
  assert (Hids' : (remove_storage_loop E backingFs results [] d1).2
                  = row_id <$> select q (db d)).
  { rewrite Hids. simpl. subst results. by rewrite <- list_fmap_compose. }
  simpl.
  destruct (remove_storage_loop E backingFs results [] d1) as [d2 ids].
  simpl in Hids'. subst ids. simpl.
  destruct err as [e|]; [|done]. by rewrite Hdet.
Qed.

(** Where an error of the cleanup can come from. *)
Lemma containerDeleteSnapshots_cases (d : Daemon) :
  (exists err, env_query_err E d q = Some err /\
     containerDeleteSnapshots E cname d = (emit (EvQuery q false) d, Some err))
  \/
  (exists err, env_query_err E d q = None /\
     (env_detect E (emit (EvQuery q true) d) cpath).2 = Some err /\
     os_IsNotExist err = false /\
     containerDeleteSnapshots E cname d
       = (emit (EvDetect cpath false) (emit (EvQuery q true) d), Some err))
  \/
  (env_query_err E d q = None /\ detect_passes E cname d).
Proof.
  destruct (env_query_err E d q) as [err|] eqn:Hq.
  { left. exists err. split; [done|].
    unfold containerDeleteSnapshots, dbQueryScan_name_id. by rewrite Hq. }
  right. unfold detect_passes.
  destruct (env_detect E (emit (EvQuery q true) d) cpath)
    as [backingFs [e|]] eqn:Hd; simpl; [|by right].
  destruct (os_IsNotExist e) eqn:Hne; [by right|].
  left. exists e. split; [done|]. split; [done|]. split; [done|].
  unfold containerDeleteSnapshots, dbQueryScan_name_id. rewrite Hq.
  unfold filesystemDetect. cbv beta iota zeta. rewrite Hd.
  cbv beta iota zeta. by rewrite Hne.
Qed.

Lemma filter_filter {A : Type} (f g : A -> bool) (l : list A) :
  List.filter f (List.filter g l) = List.filter (fun x => g x && f x) l.
Proof.
  induction l as [|a l IH]; [done|]. simpl.
  destruct (g a); simpl; [|exact IH].
  destruct (f a); by rewrite IH.
Qed.

Lemma delete_ids_filter (ids : list Z) (rows : list Row) :
  delete_ids ids rows
    = List.filter (fun r => negb (bool_decide (row_id r ∈ ids))) rows.
Proof.
  revert rows. induction ids as [|id ids IH]; intros rows.
  - unfold delete_ids. simpl.
    induction rows as [|r rows IHr]; [done|]. simpl.
    f_equal. exact IHr.
  - unfold delete_ids in *. simpl. rewrite IH, filter_filter.
    apply filter_ext. intros r.
    destruct (decide (row_id r = id)) as [Hi|Hi].
    + rewrite (bool_decide_eq_true_2 (row_id r = id)) by done. simpl.
      symmetry. apply negb_false_iff, bool_decide_eq_true.
      rewrite Hi. apply list_elem_of_here.
    + rewrite (bool_decide_eq_false_2 (row_id r = id)) by done. simpl.
      f_equal. apply bool_decide_ext. rewrite elem_of_cons. tauto.
Qed.

Lemma NoDup_fmap_same {A B : Type} (f : A -> B) (l : list A) (x y : A) :
  NoDup (f <$> l) -> x ∈ l -> y ∈ l -> f x = f y -> x = y.
Proof.
  induction l as [|a l IH]; intros Hnd Hx Hy Hf.
  - by apply elem_of_nil in Hx.
  - rewrite fmap_cons in Hnd. apply NoDup_cons in Hnd as [Hnotin Hnd].
    apply elem_of_cons in Hx as [->|Hx]; apply elem_of_cons in Hy as [->|Hy].
    + done.
    + exfalso. apply Hnotin. rewrite Hf. by apply list_elem_of_fmap_2.
    + exfalso. apply Hnotin. rewrite <- Hf. by apply list_elem_of_fmap_2.
    + by apply IH.
Qed.

(** X12: a cleanup that returns nil, on a store with unique row ids, has
    deleted the snapshot rows of the instance and no other row: the store
    is the former one without the rows the cleanup query selects, the other
    rows unchanged and in their order. *)
Theorem containerDeleteSnapshots_deletes_only_snapshots (d : Daemon) :
  NoDup (row_id <$> db d) ->
  (containerDeleteSnapshots E cname d).2 = None ->
  db (containerDeleteSnapshots E cname d).1
    = List.filter (fun r => negb (row_matches q r)) (db d).
Proof.
  intros Hnd Hnone.
  destruct (containerDeleteSnapshots_cases d)
    as [(err & _ & Hc)|[(err & _ & _ & _ & Hc)|[Hq Hdet]]];
    [rewrite Hc in Hnone; discriminate Hnone
    |rewrite Hc in Hnone; discriminate Hnone|].
  rewrite (containerDeleteSnapshots_unfold d Hq Hdet) in Hnone |- *.
  match goal with
  | |- context [delete_rows_loop E ?ids ?d2] =>
      pose proof (delete_rows_loop_spec E ids d2) as [_ Hloop];
      rewrite Hnone in Hloop; destruct Hloop as [_ Hdb]; rewrite Hdb
  end.
  match goal with
  | |- context [remove_storage_loop E ?k ?res ?ids ?d1] =>
      destruct (remove_storage_loop_spec E k res ids d1)
        as (sev & _ & _ & Hd2 & _); rewrite Hd2
  end.
  change (db (after_detect E cname d)) with (db d).
  rewrite delete_ids_filter. apply filter_ext_in. intros r Hr.
  apply list_elem_of_In in Hr. f_equal.
  destruct (row_matches q r) eqn:Hm.
  - apply bool_decide_eq_true. apply list_elem_of_fmap_2.
    apply list_elem_of_In, filter_In. split; [by apply list_elem_of_In|done].
  - apply bool_decide_eq_false. intros Hin.
    apply list_elem_of_fmap in Hin as (r' & Hid & Hr').
    apply list_elem_of_In, filter_In in Hr' as [Hr' Hm'].
    apply list_elem_of_In in Hr'.
    rewrite (NoDup_fmap_same row_id (db d) r r' Hnd Hr Hr' Hid) in Hm.
    congruence.
Qed.

(** X13: an error of the cleanup has one of three origins. When the query
    fails, or the detection of the backing file system fails for another
    reason than a missing path, that error is returned and no storage is
    removed and no row deleted; otherwise the error ends the run at a
    failed delete. A detection error for a missing path is not an error of
    the cleanup. *)
Theorem containerDeleteSnapshots_error_origin (d : Daemon) (err : error) :
  (containerDeleteSnapshots E cname d).2 = Some err ->
  (env_query_err E d q = Some err /\
   (containerDeleteSnapshots E cname d).1 = emit (EvQuery q false) d) \/
  ((env_detect E (emit (EvQuery q true) d) cpath).2 = Some err /\
   os_IsNotExist err = false /\
   (containerDeleteSnapshots E cname d).1
     = emit (EvDetect cpath false) (emit (EvQuery q true) d)) \/
  (exists l id,
     trace (containerDeleteSnapshots E cname d).1
       = trace d ++ l ++ [EvExec (DeleteById id) false]).
Proof.
  intros Herr.
  destruct (containerDeleteSnapshots_cases d)
    as [(e & Hq & Hc)|[(e & _ & Hd & Hne & Hc)|[Hq Hdet]]].
  - left. rewrite Hc in Herr |- *. simpl in *. by injection Herr as <-.
  - right. left. rewrite Hc in Herr |- *. simpl in *.
    by injection Herr as <-.
  - right. right.
    rewrite (containerDeleteSnapshots_unfold d Hq Hdet) in Herr |- *.
    match goal with
    | |- context [delete_rows_loop E ?ids ?d2] =>
        pose proof (delete_rows_loop_spec E ids d2) as [_ Hloop];
        rewrite Herr in Hloop;
        destruct Hloop as (done & id & rest & _ & Ht & _); rewrite Ht
    end.
    match goal with
    | |- context [remove_storage_loop E ?k ?res ?ids ?d1] =>
        destruct (remove_storage_loop_spec E k res ids d1)
          as (sev & Ht2 & _); rewrite Ht2
    end.
    rewrite trace_after_detect.
    exists ([EvQuery q true;
             EvDetect cpath
               (bool_decide
                  ((env_detect E (emit (EvQuery q true) d) cpath).2 = None))]
              ++ sev ++ deleted done), id.
    by rewrite <- !app_assoc.
Qed.

Lemma storage_calls_cons (b : bool) (dir : string) (dirs : list string)
    (ok : bool * bool) (oks : list (bool * bool)) :
  storage_calls b (dir :: dirs) (ok :: oks)
    = storage_block b dir ok ++ storage_calls b dirs oks.
Proof. reflexivity. Qed.

Lemma remove_storage_loop_calls (backingFs : string)
    (results : list (string * Z)) (ids : list Z) (d : Daemon) :
  exists oks,
    length oks = length results /\
    trace (remove_storage_loop E backingFs results ids d).1
      = trace d ++ storage_calls (bool_decide (backingFs = "btrfs"))
                     (VarPath E "snapshots" <$> results.*1) oks.
Proof.
  revert ids d. induction results as [|r results IH]; intros ids d.
  - exists []. simpl. by rewrite app_nil_r.
  - simpl. rewrite ?fmap_cons.
    set (cdir := VarPath E "snapshots" r.1).
    destruct (bool_decide (backingFs = "btrfs")) eqn:Hb.
    + destruct (btrfsDeleteSubvol_spec E cdir d) as (ok1 & Ht1 & _).
      destruct (os_RemoveAll_spec E cdir (btrfsDeleteSubvol E cdir d).1)
        as (ok2 & Ht2 & _).
      destruct (IH (ids ++ [r.2])
                  (os_RemoveAll E cdir (btrfsDeleteSubvol E cdir d).1).1)
        as (oks & Hlen & Ht).
      exists ((ok1, ok2) :: oks). split; [simpl; by rewrite Hlen|].
      rewrite Ht, Ht2, Ht1, storage_calls_cons. unfold storage_block. simpl.
      by rewrite <- !app_assoc.
    + destruct (os_RemoveAll_spec E cdir d) as (ok2 & Ht2 & _).
      destruct (IH (ids ++ [r.2]) (os_RemoveAll E cdir d).1)
        as (oks & Hlen & Ht).
      exists ((false, ok2) :: oks). split; [simpl; by rewrite Hlen|].
      rewrite Ht, Ht2, storage_calls_cons. unfold storage_block. simpl.
      by rewrite <- !app_assoc.
Qed.

(** X14: the calls of a cleanup that gets past its query and the
    detection: the query, the detection, then for each selected snapshot in
    the order of the store one recursive removal of its directory, preceded
    by the subvolume delete exactly when the detected file system is btrfs,
    and only then the deletes. *)
Theorem containerDeleteSnapshots_storage_calls (d : Daemon) :
  env_query_err E d q = None -> detect_passes E cname d ->
  exists okd oks dev,
    length oks = length (select q (db d)) /\
    trace (containerDeleteSnapshots E cname d).1
      = trace d ++ [EvQuery q true; EvDetect cpath okd]
          ++ storage_calls
               (bool_decide
                  ((env_detect E (emit (EvQuery q true) d) cpath).1 = "btrfs"))
               (snapshot_dir E <$> select q (db d)) oks
          ++ dev /\
    Forall (fun e => is_exec e = true) dev.
Proof.
  intros Hq Hdet. rewrite (containerDeleteSnapshots_unfold d Hq Hdet).
  destruct (remove_storage_loop_calls
              (env_detect E (emit (EvQuery q true) d) cpath).1
              (snapshot_results E cname d) [] (after_detect E cname d))
    as (oks & Hlen & Ht).
  assert (Hdirs : VarPath E "snapshots" <$> (snapshot_results E cname d).*1
                  = snapshot_dir E <$> select q (db d)).
  { unfold snapshot_results. rewrite <- !list_fmap_compose. done. }
  rewrite Hdirs in Ht.
  assert (Hlen' : length oks = length (select q (db d))).
  { rewrite Hlen. unfold snapshot_results. by rewrite length_fmap. }
  match goal with
  | |- context [delete_rows_loop E ?ids ?d2] =>
      pose proof (delete_rows_loop_spec E ids d2) as [_ Hloop];
      destruct (delete_rows_loop E ids d2).2 as [err|]
  end.
  - destruct Hloop as (done & id & rest & _ & Htd & _).
    eexists _, oks, (deleted done ++ [EvExec (DeleteById id) false]).
    split; [done|]. split.
    + rewrite Htd, Ht, trace_after_detect. by rewrite <- !app_assoc.
    + apply Forall_app. split; [|by repeat constructor].
      apply Forall_forall. intros e He.
      apply list_elem_of_fmap in He as (x & -> & _). done.
  - destruct Hloop as [Htd _].
    eexists _, oks, (deleted (row_id <$> select q (db d))).
    split; [done|]. split.
    + rewrite Htd, Ht, trace_after_detect. by rewrite <- !app_assoc.
    + apply Forall_forall. intros e He.
      apply list_elem_of_fmap in He as (x & -> & _). done.
Qed.

Lemma elem_of_remove_tree (p x : string) (paths : list string) :
  x ∈ remove_tree p paths <-> x ∈ paths /\ under p x = false.
Proof.
  unfold remove_tree.
  rewrite list_elem_of_In, filter_In, <- list_elem_of_In, negb_true_iff.
  done.
Qed.

Lemma remove_storage_loop_fs (backingFs : string)
    (results : list (string * Z)) (ids : list Z) (d : Daemon) (x : string) :
  storage_works E ->
  x ∈ fs (remove_storage_loop E backingFs results ids d).1 <->
  x ∈ fs d /\
  forall r, r ∈ results -> under (VarPath E "snapshots" r.1) x = false.
Proof.
  intros Hw. revert ids d.
  induction results as [|r results IH]; intros ids d.
  - simpl. split; [intros H; split; [done|] | tauto].
    intros r Hr. by apply elem_of_nil in Hr.
  - simpl. set (cdir := VarPath E "snapshots" r.1).
    rewrite IH. unfold os_RemoveAll at 1. rewrite Hw. simpl.
    rewrite elem_of_remove_tree.
    assert (H1 : x ∈ fs (if bool_decide (backingFs = "btrfs")
                         then (btrfsDeleteSubvol E cdir d).1 else d)
                 /\ under cdir x = false
                 <-> x ∈ fs d /\ under cdir x = false).
    { destruct (bool_decide (backingFs = "btrfs")); [|done].
      unfold btrfsDeleteSubvol. destruct (env_btrfs_err E d cdir); simpl;
        [done|]. rewrite elem_of_remove_tree. tauto. }
    split.
    + intros [Hx Hall]. apply H1 in Hx as [Hx Hu]. split; [done|].
      intros r' Hr'. apply elem_of_cons in Hr' as [->|Hr']; [done|].
      by apply Hall.
    + intros [Hx Hall]. split.
      * apply H1. split; [done|]. apply Hall, list_elem_of_here.
      * intros r' Hr'. by apply Hall, list_elem_of_further.
Qed.

(** X15: a cleanup that gets past its query and the detection, with
    removals that succeed, removes from the storage exactly what is a
    selected snapshot's directory or lies below one; every other path, the
    instance's own directory included when it is no such path, is still
    there afterwards, whether or not a delete fails. *)
Theorem containerDeleteSnapshots_storage_frame (d : Daemon) (x : string) :
  env_query_err E d q = None -> detect_passes E cname d ->
  storage_works E ->
  x ∈ fs (containerDeleteSnapshots E cname d).1 <->
  x ∈ fs d /\ outside_snapshots E (select q (db d)) x.
Proof.
  intros Hq Hdet Hw. rewrite (containerDeleteSnapshots_unfold d Hq Hdet).
  match goal with
  | |- context [delete_rows_loop E ?ids ?d2] =>
      pose proof (delete_rows_loop_spec E ids d2) as [Hf _]; rewrite Hf
  end.
  rewrite (remove_storage_loop_fs _ _ _ _ _ Hw).
  change (fs (after_detect E cname d)) with (fs d).
  unfold outside_snapshots, snapshot_results, snapshot_dir. split.
  - intros [Hx Hall]. split; [done|]. intros r Hr.
    apply (Hall (row_name r, row_id r)).
    by apply (list_elem_of_fmap_2 (fun r => (row_name r, row_id r))).
  - intros [Hx Hall]. split; [done|]. intros r Hr.
    apply list_elem_of_fmap in Hr as (r0 & -> & Hr0). by apply Hall.
Qed.

End CleanupExtras.

(** X16: snapshot cleanup is idempotent. After a cleanup that returned nil
    the cleanup query selects nothing, so a further cleanup of the same
    instance that gets past its query and the detection makes no storage
    call and no delete, changes nothing and returns nil. *)
Theorem containerDeleteSnapshots_idempotent (E E2 : Lifecycle.Env)
    (cname : string) (d : Lifecycle.Daemon) :
  (Lifecycle.containerDeleteSnapshots E cname d).2 = None ->
  Lifecycle.SnapshotDelimiter E2 = Lifecycle.SnapshotDelimiter E ->
  let d1 := (Lifecycle.containerDeleteSnapshots E cname d).1 in
  let q := Lifecycle.snapshot_query E2 cname in
  Lifecycle.select q (Lifecycle.db d1) = [] /\
  (Lifecycle.env_query_err E2 d1 q = None ->
   MoreShapes.detect_passes E2 cname d1 ->
   Lifecycle.containerDeleteSnapshots E2 cname d1
     = (MoreShapes.after_detect E2 cname d1, None)).
Proof.
  intros Hnone Hdelim d1 q.
  assert (Hq12 : q = Lifecycle.snapshot_query E cname).
  { unfold q, Lifecycle.snapshot_query. by rewrite Hdelim. }
  assert (Hsel : Lifecycle.select q (Lifecycle.db d1) = []).
  { rewrite Hq12. unfold d1.
    destruct (containerDeleteSnapshots_cases E cname d)
      as [(err & _ & Hc)|[(err & _ & _ & _ & Hc)|[Hq Hdet]]];
      [rewrite Hc in Hnone; discriminate Hnone
      |rewrite Hc in Hnone; discriminate Hnone|].
    rewrite (containerDeleteSnapshots_unfold E cname d Hq Hdet) in Hnone |- *.
    match goal with
    | |- context [Lifecycle.delete_rows_loop E ?ids ?d2] =>
        pose proof (delete_rows_loop_spec E ids d2) as [_ Hloop];
        rewrite Hnone in Hloop; destruct Hloop as [_ Hdb]; rewrite Hdb
    end.
    match goal with
    | |- context [Lifecycle.remove_storage_loop E ?k ?res ?ids ?d0] =>
        destruct (remove_storage_loop_spec E k res ids d0)
          as (sev & _ & _ & Hd2 & _); rewrite Hd2
    end.
    change (Lifecycle.db (MoreShapes.after_detect E cname d))
      with (Lifecycle.db d).
    apply elem_of_nil_inv. intros r Hr.
    apply elem_of_select in Hr as [Hin Hm].
    apply elem_of_delete_ids in Hin as [Hin Hnot].
    apply Hnot. apply list_elem_of_fmap_2. by apply elem_of_select. }
  split; [exact Hsel|].
  intros Hq2 Hdet2.
  rewrite (containerDeleteSnapshots_unfold E2 cname d1 Hq2 Hdet2).
  unfold MoreShapes.snapshot_results. fold q. rewrite Hsel. reflexivity.
Qed.

Section CleanupExtrasExamples.
Import Lifecycle Shapes MoreShapes Scenarios.

Lemma select_web1_snapshots :
  select (snapshot_query env_healthy "web1") rows0
    = [mkRow 4 "web1/daily" cTypeSnapshot 0;
       mkRow 5 "web1/weekly" cTypeSnapshot 0].
Proof. reflexivity. Qed.

Lemma containerDeleteSnapshots_deletes_only_snapshots_witness :
  db (containerDeleteSnapshots env_healthy "web1" daemon0).1
    = List.filter
        (fun r => negb (row_matches (snapshot_query env_healthy "web1") r))
        rows0.
Proof.
  apply (containerDeleteSnapshots_deletes_only_snapshots env_healthy "web1"
           daemon0).
  - apply (bool_decide_unpack _). vm_compute. exact I.
  - reflexivity.
Defined.

Lemma containerDeleteSnapshots_error_origin_witness :
  (env_query_err env_delete_fails daemon0
     (snapshot_query env_delete_fails "web1")
     = Some (ErrMsg "database is locked") /\
   (containerDeleteSnapshots env_delete_fails "web1" daemon0).1
     = emit (EvQuery (snapshot_query env_delete_fails "web1") false) daemon0)
  \/
  ((env_detect env_delete_fails
      (emit (EvQuery (snapshot_query env_delete_fails "web1") true) daemon0)
      (VarPath env_delete_fails "containers" "web1")).2
     = Some (ErrMsg "database is locked") /\
   os_IsNotExist (ErrMsg "database is locked") = false /\
   (containerDeleteSnapshots env_delete_fails "web1" daemon0).1
     = emit (EvDetect (VarPath env_delete_fails "containers" "web1") false)
         (emit (EvQuery (snapshot_query env_delete_fails "web1") true)
            daemon0))
  \/
  (exists l id,
     trace (containerDeleteSnapshots env_delete_fails "web1" daemon0).1
       = trace daemon0 ++ l ++ [EvExec (DeleteById id) false]).
Proof.
  apply (containerDeleteSnapshots_error_origin env_delete_fails "web1"
           daemon0 (ErrMsg "database is locked")).
  reflexivity.
Defined.

Lemma containerDeleteSnapshots_storage_calls_witness :
  exists okd oks dev,
    length oks = 2%nat /\
    trace (containerDeleteSnapshots env_delete_fails "web1" daemon0).1
      = [EvQuery (snapshot_query env_delete_fails "web1") true;
         EvDetect "/var/lib/lxd/containers/web1" okd]
          ++ storage_calls true
               ["/var/lib/lxd/snapshots/web1/daily";
                "/var/lib/lxd/snapshots/web1/weekly"] oks
          ++ dev /\
    Forall (fun e => is_exec e = true) dev.
Proof.
  destruct (containerDeleteSnapshots_storage_calls env_delete_fails "web1"
              daemon0 eq_refl I) as (okd & oks & dev & Hlen & Ht & Hdev).
  exists okd, oks, dev. split; [exact Hlen|]. split; [exact Ht | exact Hdev].
Defined.

Lemma containerDeleteSnapshots_idempotent_witness :
  select (snapshot_query env_healthy "web1")
    (db (containerDeleteSnapshots env_healthy "web1" daemon0).1) = [] /\
  containerDeleteSnapshots env_healthy "web1"
    (containerDeleteSnapshots env_healthy "web1" daemon0).1
    = (after_detect env_healthy "web1"
         (containerDeleteSnapshots env_healthy "web1" daemon0).1, None).
Proof.
  destruct (containerDeleteSnapshots_idempotent env_healthy env_healthy
              "web1" daemon0 eq_refl eq_refl) as [Hs Hr].
  split; [exact Hs|]. apply Hr; [reflexivity | exact I].
Defined.

Lemma containerDeleteSnapshots_storage_frame_witness :
  "/var/lib/lxd/containers/web1"
    ∈ fs (containerDeleteSnapshots env_healthy "web1" daemon0).1 /\
  "/var/lib/lxd/snapshots/web1/daily/rootfs"
    ∉ fs (containerDeleteSnapshots env_healthy "web1" daemon0).1.
Proof.
  split.
  - apply (containerDeleteSnapshots_storage_frame env_healthy "web1" daemon0
             "/var/lib/lxd/containers/web1" eq_refl I (fun _ _ => eq_refl)).
    split; [apply list_elem_of_here|].
    intros r Hr. change (db daemon0) with rows0 in Hr.
    rewrite select_web1_snapshots in Hr.
    apply elem_of_cons in Hr as [->|Hr]; [reflexivity|].
    apply list_elem_of_singleton in Hr as ->. reflexivity.
  - intros Hin.
    apply (containerDeleteSnapshots_storage_frame env_healthy "web1" daemon0
             "/var/lib/lxd/snapshots/web1/daily/rootfs" eq_refl I
             (fun _ _ => eq_refl)) in Hin as [_ Hout].
    specialize (Hout (mkRow 4 "web1/daily" cTypeSnapshot 0)).
    change (db daemon0) with rows0 in Hout.
    rewrite select_web1_snapshots in Hout.
    specialize (Hout (list_elem_of_here _ _)). discriminate Hout.
Defined.

End CleanupExtrasExamples.

(** * Properties of [startContainer] *)

Section ForkstartFacts.
Import Forkstart.
Variable E : Env.

(** The runs of [startContainer], by the step at which they end. *)
Lemma startContainer_cases (args : list string) (w : World) :
  (length args ≠ 4%nat /\
   startContainer E args w = (w, Some (BadArguments args))) \/
  exists a0 name lxcpath cfg,
    args = [a0; name; lxcpath; cfg] /\
    ((exists e,
        startContainer E args w
          = (record (CNewContainer name lxcpath false) w, Some (InitError e)))
     \/
     (exists e,
        startContainer E args w
          = (record (CLoadConfigFile cfg false)
               (record (CNewContainer name lxcpath true) w),
             Some (ConfigError e)))
     \/
     (exists e w3,
        calls w3 = calls w ++ [CNewContainer name lxcpath true;
                               CLoadConfigFile cfg true; CStart name false] /\
        files w3 = files w /\
        startContainer E args w = (os_Remove E cfg w3, Some (StartError e)))
     \/
     (exists w3,
        calls w3 = calls w ++ [CNewContainer name lxcpath true;
                               CLoadConfigFile cfg true; CStart name true] /\
        files w3 = files w /\
        startContainer E args w
          = (FileMove E cfg (LogPath E name "lxc.conf") w3, None))).
Proof.
  destruct args as [|a0 [|name [|lxcpath [|cfg [|a4 rest]]]]];
    try (left; split; [simpl; lia | reflexivity]).
  right. exists a0, name, lxcpath, cfg. split; [done|].
  unfold startContainer.
  destruct (env_NewContainer E w name lxcpath) as [e|]; [left; by exists e|].
  right.
  destruct (env_LoadConfigFile E _ cfg) as [e|]; [left; by exists e|].
  right.
  destruct (env_Start E _ name) as [e|].
  - left. eexists e, _. split; [|split; [|reflexivity]]; simpl;
      [by rewrite <- !app_assoc | done].
  - right. eexists. split; [|split; [|reflexivity]]; simpl;
      [by rewrite <- !app_assoc | done].
Qed.

Lemma os_Remove_calls (p : string) (w : World) :
  exists ok, calls (os_Remove E p w) = calls w ++ [CRemove p ok] /\
             (ok = false -> files (os_Remove E p w) = files w) /\
             (ok = true -> p ∉ files (os_Remove E p w)).
Proof.
  unfold os_Remove. destruct (env_remove_ok E w p).
  - exists true. simpl. split; [done|]. split; [done|]. intros _.
    rewrite list_elem_of_In, filter_In. intros [_ H].
    by rewrite bool_decide_eq_true_2 in H.
  - exists false. by simpl.
Qed.

Lemma FileMove_calls (p t : string) (w : World) :
  exists ok, calls (FileMove E p t w) = calls w ++ [CFileMove p t ok] /\
             (ok = false -> files (FileMove E p t w) = files w) /\
             (ok = true -> t ∈ files (FileMove E p t w) /\
                           (p ≠ t -> p ∉ files (FileMove E p t w))).
Proof.
  unfold FileMove. destruct (env_move_ok E w p t).
  - exists true. simpl. split; [done|]. split; [done|]. intros _.
    split; [apply list_elem_of_here|]. intros Hne.
    rewrite elem_of_cons, list_elem_of_In, filter_In.
    intros [H|[_ H]]; [done|]. by rewrite bool_decide_eq_true_2 in H.
  - exists false. by simpl.
Qed.

(** X17: [startContainer] wants exactly four arguments: with any other
    number it returns the bad-arguments error without making any call, and
    it returns that error in no other case. *)
Theorem startContainer_bad_arguments (args : list string) (w : World) :
  (length args ≠ 4%nat ->
   startContainer E args w = (w, Some (BadArguments args))) /\
  (forall a, (startContainer E args w).2 = Some (BadArguments a) ->
     length args ≠ 4%nat).
Proof.
  destruct (startContainer_cases args w)
    as [[Hlen Hc]|(a0 & name & lxcpath & cfg & -> & Hc)].
  - split; [done|]. by intros a _.
  - split; [intros H; by destruct H|].
    intros a Hr.
    destruct Hc as [(e & Hc)|[(e & Hc)|[(e & w3 & _ & _ & Hc)|(w3 & _ & _ & Hc)]]];
      rewrite Hc in Hr; discriminate Hr.
Qed.

Ltac invert_mem H :=
  repeat (apply elem_of_cons in H as [H|H]; [simplify_eq|]);
  try (apply elem_of_nil in H; destruct H).

(** The calls of a run and its result, by the step at which it ends. *)
Lemma startContainer_calls (args : list string) (w : World) :
  (length args ≠ 4%nat /\
   startContainer E args w = (w, Some (BadArguments args))) \/
  exists a0 name lxcpath cfg,
    args = [a0; name; lxcpath; cfg] /\
    ((exists e,
        (startContainer E args w).2 = Some (InitError e) /\
        files (startContainer E args w).1 = files w /\
        calls (startContainer E args w).1
          = calls w ++ [CNewContainer name lxcpath false])
     \/
     (exists e,
        (startContainer E args w).2 = Some (ConfigError e) /\
        files (startContainer E args w).1 = files w /\
        calls (startContainer E args w).1
          = calls w ++ [CNewContainer name lxcpath true;
                        CLoadConfigFile cfg false])
     \/
     (exists e ok,
        (startContainer E args w).2 = Some (StartError e) /\
        calls (startContainer E args w).1
          = calls w ++ [CNewContainer name lxcpath true;
                        CLoadConfigFile cfg true; CStart name false;
                        CRemove cfg ok] /\
        (ok = false -> files (startContainer E args w).1 = files w) /\
        (ok = true -> cfg ∉ files (startContainer E args w).1))
     \/
     (exists ok,
        (startContainer E args w).2 = None /\
        calls (startContainer E args w).1
          = calls w ++ [CNewContainer name lxcpath true;
                        CLoadConfigFile cfg true; CStart name true;
                        CFileMove cfg (LogPath E name "lxc.conf") ok] /\
        (ok = false -> files (startContainer E args w).1 = files w) /\
        (ok = true ->
         LogPath E name "lxc.conf" ∈ files (startContainer E args w).1 /\
         (cfg ≠ LogPath E name "lxc.conf" ->
          cfg ∉ files (startContainer E args w).1)))).
Proof.
  destruct (startContainer_cases args w)
    as [H|(a0 & name & lxcpath & cfg & Ha & Hc)]; [by left|].
  right. exists a0, name, lxcpath, cfg. split; [done|].
  destruct Hc as [(e & Hc)|[(e & Hc)|[(e & w3 & Hcalls & Hfiles & Hc)
                                     |(w3 & Hcalls & Hfiles & Hc)]]];
    rewrite Hc; simpl.
  - left. exists e. split; [done|]. split; [done|]. done.
  - right. left. exists e. split; [done|]. split; [done|].
    by rewrite <- app_assoc.
  - right. right. left.
    destruct (os_Remove_calls cfg w3) as (ok & Ht & Hno & Hyes).
    exists e, ok. split; [done|]. rewrite Ht, Hcalls.
    split; [by rewrite <- app_assoc|].
    split; [intros Hok; by rewrite (Hno Hok) | done].
  - right. right. right.
    destruct (FileMove_calls cfg (LogPath E name "lxc.conf") w3)
      as (ok & Ht & Hno & Hyes).
    exists ok. split; [done|]. rewrite Ht, Hcalls.
    split; [by rewrite <- app_assoc|].
    split; [intros Hok; by rewrite (Hno Hok) | done].
Qed.

(** X18: what [startContainer] does with the config file. It removes the
    file only after a start that failed and moves it, to the log path of
    the container, only after a start that succeeded, never both. When the
    container cannot be initialised or the config file cannot be loaded it
    makes neither call and the files are as they were: the config file is
    left behind. *)
Theorem startContainer_config_file (args : list string) (w : World) :
  exists new,
    calls (startContainer E args w).1 = calls w ++ new /\
    (forall p ok, CRemove p ok ∈ new ->
       args !! 3%nat = Some p /\
       (exists name, args !! 1%nat = Some name /\ CStart name false ∈ new) /\
       exists e, (startContainer E args w).2 = Some (StartError e)) /\
    (forall p t ok, CFileMove p t ok ∈ new ->
       args !! 3%nat = Some p /\
       (exists name, args !! 1%nat = Some name /\ CStart name true ∈ new /\
                     t = LogPath E name "lxc.conf") /\
       (startContainer E args w).2 = None) /\
    ((exists e, (startContainer E args w).2 = Some (InitError e) \/
                (startContainer E args w).2 = Some (ConfigError e)) ->
     files (startContainer E args w).1 = files w /\
     forall c, c ∈ new -> is_remove c = false /\ is_move c = false).
Proof.
  destruct (startContainer_calls args w)
    as [[_ Hc]|(a0 & name & lxcpath & cfg & -> & Hc)].
  { exists []. rewrite Hc. simpl. rewrite app_nil_r. split; [done|].
    split; [intros p ok H; by apply elem_of_nil in H|].
    split; [intros p t ok H; by apply elem_of_nil in H|].
    intros (e & [H|H]); discriminate H. }
  destruct Hc as [(e & Hr & Hf & Ht)|[(e & Hr & Hf & Ht)
                 |[(e & ok0 & Hr & Ht & _)|(ok0 & Hr & Ht & _)]]];
    eexists; (split; [exact Ht|]); rewrite Hr.
  - split; [intros p ok H; invert_mem H|].
    split; [intros p t ok H; invert_mem H|].
    intros _. split; [done|]. intros c Hc. invert_mem Hc. done.
  - split; [intros p ok H; invert_mem H|].
    split; [intros p t ok H; invert_mem H|].
    intros _. split; [done|]. intros c Hc.
    apply elem_of_cons in Hc as [->|Hc]; [done|].
    apply list_elem_of_singleton in Hc as ->. done.
  - split.
    { intros p ok H. invert_mem H. split; [done|]. split; [|by exists e].
      exists name. split; [done|].
      do 2 apply list_elem_of_further. apply list_elem_of_here. }
    split; [intros p t ok H; invert_mem H|].
    intros (e' & [H|H]); discriminate H.
  - split; [intros p ok H; invert_mem H|].
    split.
    { intros p t ok H. invert_mem H. split; [done|]. split; [|done].
      exists name. split; [done|]. split; [|done].
      do 2 apply list_elem_of_further. apply list_elem_of_here. }
    intros (e' & [H|H]); discriminate H.
Qed.

(** X19: the result of [startContainer] does not depend on what becomes of
    the config file. It is nil exactly when the container was started, also
    when moving the config file failed (the file then stays where it was);
    it is the start error exactly when the start failed, also when removing
    the file failed. When the move or the removal succeeds the file is no
    longer at its path. *)
Theorem startContainer_result (args : list string) (w : World) :
  exists new,
    calls (startContainer E args w).1 = calls w ++ new /\
    ((startContainer E args w).2 = None <->
     exists name, CStart name true ∈ new) /\
    ((exists e, (startContainer E args w).2 = Some (StartError e)) <->
     exists name, CStart name false ∈ new) /\
    (forall p t, CFileMove p t false ∈ new \/ CRemove p false ∈ new ->
       files (startContainer E args w).1 = files w) /\
    (forall p t, CFileMove p t true ∈ new ->
       t ∈ files (startContainer E args w).1 /\
       (p ≠ t -> p ∉ files (startContainer E args w).1)) /\
    (forall p, CRemove p true ∈ new ->
       p ∉ files (startContainer E args w).1).
Proof.
  destruct (startContainer_calls args w)
    as [[_ Hc]|(a0 & name & lxcpath & cfg & -> & Hc)].
  { exists []. rewrite Hc. simpl. rewrite app_nil_r. split; [done|].
    split; [split; [done | intros (n & H); by apply elem_of_nil in H]|].
    split; [split; [intros (e & H); discriminate H
                   | intros (n & H); by apply elem_of_nil in H]|].
    split; [intros p t [H|H]; by apply elem_of_nil in H|].
    split; [intros p t H; by apply elem_of_nil in H|].
    intros p H; by apply elem_of_nil in H. }
  destruct Hc as [(e & Hr & Hf & Ht)|[(e & Hr & Hf & Ht)
                 |[(e & ok0 & Hr & Ht & Hno & Hyes)
                  |(ok0 & Hr & Ht & Hno & Hyes)]]];
    eexists; (split; [exact Ht|]); rewrite Hr.
  - split; [split; [done | intros (n & H); invert_mem H]|].
    split; [split; [intros (e' & H); discriminate H
                   | intros (n & H); invert_mem H]|].
    split; [intros p t [H|H]; invert_mem H|].
    split; [intros p t H; invert_mem H|].
    intros p H; invert_mem H.
  - split; [split; [done | intros (n & H); invert_mem H]|].
    split; [split; [intros (e' & H); discriminate H
                   | intros (n & H); invert_mem H]|].
    split; [intros p t [H|H]; invert_mem H|].
    split; [intros p t H; invert_mem H|].
    intros p H; invert_mem H.
  - split; [split; [done | intros (n & H); invert_mem H]|].
    split.
    { split; [intros _; exists name|intros _; by exists e].
      do 2 apply list_elem_of_further. apply list_elem_of_here. }
    split; [intros p t [H|H]; invert_mem H; by apply Hno|].
    split; [intros p t H; invert_mem H|].
    intros p H. invert_mem H. by apply Hyes.
  - split.
    { split; [intros _; exists name|done].
      do 2 apply list_elem_of_further. apply list_elem_of_here. }
    split; [split; [intros (e' & H); discriminate H
                   | intros (n & H); invert_mem H]|].
    split; [intros p t [H|H]; invert_mem H; by apply Hno|].
    split; [intros p t H; invert_mem H; by apply Hyes|].
    intros p H; invert_mem H.
Qed.

End ForkstartFacts.

Section ForkstartExamples.
Import Forkstart MoreScenarios.

Lemma startContainer_bad_arguments_witness :
  startContainer (fork_env false false false) ["lxd"; "forkstart"; "web1"]
    fork_world
    = (fork_world, Some (BadArguments ["lxd"; "forkstart"; "web1"])).
Proof.
  destruct (startContainer_bad_arguments (fork_env false false false)
              ["lxd"; "forkstart"; "web1"] fork_world) as [H _].
  apply H. simpl. lia.
Defined.

(** The config file cannot be loaded: it is neither removed nor moved. *)
Lemma startContainer_config_file_witness :
  files (startContainer (fork_env false true false) fork_args fork_world).1
    = ["/tmp/lxd_lxc_startconfig_1"].
Proof.
  destruct (startContainer_config_file (fork_env false true false)
              fork_args fork_world) as (new & _ & _ & _ & Hleft).
  apply Hleft. exists "cannot read config". right. reflexivity.
Defined.

(** A start that succeeds and one that fails. *)
Lemma startContainer_runs :
  startContainer (fork_env false false false) fork_args fork_world
    = (mkWorld ["/var/log/lxd/web1/lxc.conf"]
         [CNewContainer "web1" "/var/lib/lxd/containers" true;
          CLoadConfigFile "/tmp/lxd_lxc_startconfig_1" true;
          CStart "web1" true;
          CFileMove "/tmp/lxd_lxc_startconfig_1"
            "/var/log/lxd/web1/lxc.conf" true],
       None) /\
  startContainer (fork_env false false true) fork_args fork_world
    = (mkWorld []
         [CNewContainer "web1" "/var/lib/lxd/containers" true;
          CLoadConfigFile "/tmp/lxd_lxc_startconfig_1" true;
          CStart "web1" false;
          CRemove "/tmp/lxd_lxc_startconfig_1" true],
       Some (StartError "failed to start")).
Proof. split; reflexivity. Qed.

End ForkstartExamples.
